(** * Credit approval system: scoring, eligibility and EMI engine

    A shallow embedding of [credit_system/utils.py],
    [credit_system/services.py] and the views of [credit_system/views.py]
    over the two tables of [credit_system/models.py].  Python values are
    modelled as the interpreter has them:

    - [int] is [Z] (unbounded);
    - [decimal.Decimal] is a sign, a coefficient and an exponent, with the
      arithmetic of the default context (28 significant digits,
      ROUND_HALF_EVEN, Emax = 999999, Emin = -999999, traps on
      InvalidOperation, DivisionByZero and Overflow);
    - [float] (produced by [int / int]) is an IEEE-754 binary64 value;
    - a raised exception is the [Raise] branch of [result]. *)

From Stdlib Require Import ZArith NArith List Bool Lia String Permutation.
Import ListNotations.

Set Implicit Arguments.

(** ** Exceptions *)

Module Py.

Inductive exn : Type :=
| InvalidOperation      (* decimal.InvalidOperation *)
| DivisionByZero        (* decimal.DivisionByZero *)
| Overflow              (* decimal.Overflow *)
| OverflowError         (* float overflow *)
| ZeroDivisionError     (* int / 0 *)
| ValueError.           (* round(nan) *)

Inductive result (A : Type) : Type :=
| Ok (a : A)
| Raise (e : exn).

Arguments Ok {A} a.
Arguments Raise {A} e.

Definition bind {A B : Type} (m : result A) (k : A -> result B) : result B :=
  match m with
  | Ok a => k a
  | Raise e => Raise e
  end.

Definition returns {A : Type} (m : result A) : Prop :=
  exists a, m = Ok a.

Definition map {A B : Type} (f : A -> B) (m : result A) : result B :=
  match m with
  | Ok a => Ok (f a)
  | Raise e => Raise e
  end.

End Py.

Import Py.

Declare Scope py_scope.
Delimit Scope py_scope with py.
Notation "x <- m ;; k" := (bind m (fun x => k))
  (at level 61, m at next level, right associativity) : py_scope.
Notation "' pat <- m ;; k" := (bind m (fun x => match x with pat => k end))
  (at level 61, pat pattern, m at next level, right associativity) : py_scope.
Open Scope py_scope.
Open Scope Z_scope.

(** ** decimal.Decimal under the default context *)

Module PyDecimal.

(** A finite Decimal: [(-1)^d_sign * d_int * 10^d_exp].  The model
    fields of this program (DecimalField) never hold NaN or Infinity. *)
Record decimal : Type := mkdec { d_sign : bool; d_int : N; d_exp : Z }.

Definition Emax : Z := 999999.
Definition Emin : Z := -999999.
Definition default_prec : Z := 28.
Definition Etiny (p : Z) : Z := Emin - p + 1.
Definition Etop (p : Z) : Z := Emax - p + 1.

(** [len(str(c))] *)
Fixpoint ndigits_fuel (fuel : nat) (c : N) : Z :=
  match fuel with
  | O => 1
  | S f => if (c <? 10)%N then 1 else 1 + ndigits_fuel f (c / 10)%N
  end.

Definition ndigits (c : N) : Z := ndigits_fuel (N.to_nat (N.size c)) c.

Definition pow10 (k : Z) : N := (10 ^ Z.to_N k)%N.

(** Drop the [k] low digits of [c], rounding half to even
    ([_round_half_even]). *)
Definition round_half_even (c : N) (k : Z) : N :=
  if k <=? 0 then c
  else
    let m := pow10 k in
    let q := (c / m)%N in
    let r := (c mod m)%N in
    if ((m <? 2 * r) || ((2 * r =? m) && N.odd q))%N then (q + 1)%N else q.

(** Round [c * 10^e] to the exponent [target > e].  A value with no
    digit at or above the target is first replaced by [1 * 10^(target-1)],
    as [_fix] and [_rescale] do, which rounds to a zero coefficient. *)
Definition round_to (c : N) (e target : Z) : N :=
  if ndigits c + e - target <? 0 then round_half_even 1 1
  else round_half_even c (target - e).

(** [Decimal._fix]: round to the context precision [p] and check the
    exponent range. *)
Definition fix_ (p : Z) (d : decimal) : result decimal :=
  let '(mkdec s c e) := d in
  if (c =? 0)%N then Ok (mkdec s 0 (Z.min (Z.max e (Etiny p)) Emax))
  else
    let exp_min := ndigits c + e - p in
    if Etop p <? exp_min then Raise Overflow
    else
      let exp_min := Z.max exp_min (Etiny p) in
      if e <? exp_min then
        let coeff := round_to c e exp_min in
        let coeff' := if p <? ndigits coeff then (coeff / 10)%N else coeff in
        let exp_min' := if p <? ndigits coeff then exp_min + 1 else exp_min in
        if Etop p <? exp_min' then Raise Overflow
        else Ok (mkdec s coeff' exp_min')
      else Ok d.

Definition of_int (n : Z) : decimal := mkdec (n <? 0) (Z.abs_N n) 0.

Definition copy_negate (d : decimal) : decimal :=
  mkdec (negb (d_sign d)) (d_int d) (d_exp d).

(** [_normalize]: align two non-zero operands of an addition; an
    operand too small to matter is replaced by a single unit below the
    other one's last kept digit. *)
Definition normalize (p : Z) (c1 : N) (e1 : Z) (c2 : N) (e2 : Z) : N * N * Z :=
  if e1 <? e2 then
    (* tmp = op2, other = op1 *)
    let exp := e2 + Z.min (-1) (ndigits c2 - p - 2) in
    let '(oc, oe) := if ndigits c1 + e1 - 1 <? exp then (1%N, exp) else (c1, e1) in
    (oc, (c2 * pow10 (e2 - oe))%N, oe)
  else
    let exp := e1 + Z.min (-1) (ndigits c1 - p - 2) in
    let '(oc, oe) := if ndigits c2 + e2 - 1 <? exp then (1%N, exp) else (c2, e2) in
    ((c1 * pow10 (e1 - oe))%N, oc, oe).

(** [Decimal.__add__] *)
Definition add_ (p : Z) (a b : decimal) : result decimal :=
  let exp := Z.min (d_exp a) (d_exp b) in
  if ((d_int a =? 0) && (d_int b =? 0))%N then
    fix_ p (mkdec (d_sign a && d_sign b) 0 exp)
  else if (d_int a =? 0)%N then
    let exp := Z.max exp (d_exp b - p - 1) in
    fix_ p (mkdec (d_sign b) (d_int b * pow10 (d_exp b - exp)) exp)
  else if (d_int b =? 0)%N then
    let exp := Z.max exp (d_exp a - p - 1) in
    fix_ p (mkdec (d_sign a) (d_int a * pow10 (d_exp a - exp)) exp)
  else
    let '(n1, n2, e) := normalize p (d_int a) (d_exp a) (d_int b) (d_exp b) in
    if Bool.eqb (d_sign a) (d_sign b) then
      fix_ p (mkdec (d_sign a) (n1 + n2) e)
    else if (n1 =? n2)%N then fix_ p (mkdec false 0 exp)
    else if (n1 <? n2)%N then fix_ p (mkdec (d_sign b) (n2 - n1) e)
    else fix_ p (mkdec (d_sign a) (n1 - n2) e).

(** [Decimal.__sub__] *)
Definition sub_ (p : Z) (a b : decimal) : result decimal :=
  add_ p a (copy_negate b).

(** [Decimal.__mul__] *)
Definition mul_ (p : Z) (a b : decimal) : result decimal :=
  fix_ p (mkdec (xorb (d_sign a) (d_sign b)) (d_int a * d_int b) (d_exp a + d_exp b)).

(** Strip trailing zeros of an exact quotient while the exponent is
    below the ideal one (the [while] loop of [__truediv__]). *)
Fixpoint strip_to_ideal (fuel : nat) (coeff : N) (exp ideal : Z) : N * Z :=
  match fuel with
  | O => (coeff, exp)
  | S f =>
      if (exp <? ideal) && (coeff mod 10 =? 0)%N
      then strip_to_ideal f (coeff / 10)%N (exp + 1) ideal
      else (coeff, exp)
  end.

(** [Decimal.__truediv__] *)
Definition div_ (p : Z) (a b : decimal) : result decimal :=
  let sign := xorb (d_sign a) (d_sign b) in
  if (d_int b =? 0)%N then
    if (d_int a =? 0)%N then Raise InvalidOperation else Raise DivisionByZero
  else if (d_int a =? 0)%N then fix_ p (mkdec sign 0 (d_exp a - d_exp b))
  else
    let shift := ndigits (d_int b) - ndigits (d_int a) + p + 1 in
    let exp := d_exp a - d_exp b - shift in
    let num := if 0 <=? shift then (d_int a * pow10 shift)%N else d_int a in
    let den := if 0 <=? shift then d_int b else (d_int b * pow10 (- shift))%N in
    let coeff := (num / den)%N in
    let remainder := (num mod den)%N in
    if (remainder =? 0)%N then
      let '(coeff, exp) :=
        strip_to_ideal (Z.to_nat (d_exp a - d_exp b - exp)) coeff exp (d_exp a - d_exp b) in
      fix_ p (mkdec sign coeff exp)
    else
      let coeff := if (coeff mod 5 =? 0)%N then (coeff + 1)%N else coeff in
      fix_ p (mkdec sign coeff exp).

(** The signed integer [(-1)^s * c * 10^(e - m)], for [m <= e]. *)
Definition scaled (d : decimal) (m : Z) : Z :=
  let z := Z.of_N (d_int d * pow10 (d_exp d - m)) in
  if d_sign d then - z else z.

(** [Decimal._cmp]: exact comparison of the values. *)
Definition compare (a b : decimal) : comparison :=
  let m := Z.min (d_exp a) (d_exp b) in
  Z.compare (scaled a m) (scaled b m).

Definition eqb (a b : decimal) : bool :=
  match compare a b with Eq => true | _ => false end.
Definition ltb (a b : decimal) : bool :=
  match compare a b with Lt => true | _ => false end.
Definition gtb (a b : decimal) : bool :=
  match compare a b with Gt => true | _ => false end.
Definition leb (a b : decimal) : bool :=
  match compare a b with Gt => false | _ => true end.
Definition geb (a b : decimal) : bool :=
  match compare a b with Lt => false | _ => true end.

Definition is_zero (d : decimal) : bool := (d_int d =? 0)%N.

(** [abs(base) == 1] *)
Definition abs_is_one (d : decimal) : bool :=
  (d_exp d <=? 0) && (d_int d =? pow10 (- d_exp d))%N.

(** Square-and-multiply over the bits of the exponent below its
    leading one, in the working precision [wp]; the loop stops once an
    underflow has produced a zero coefficient. *)
Fixpoint pow_loop (wp : Z) (base : decimal) (m : positive) : result decimal :=
  match m with
  | xH => Ok base
  | xO m' =>
      r <- pow_loop wp base m' ;;
      if is_zero r then Ok r else mul_ wp r r
  | xI m' =>
      r <- pow_loop wp base m' ;;
      if is_zero r then Ok r
      else r2 <- mul_ wp r r ;; mul_ wp r2 base
  end.

(** [Decimal.__pow__] with an [int] exponent, as CPython's C
    implementation computes it: the integer power is taken by repeated
    squaring with [digits(n) + 2] guard digits (one more for a negative
    exponent, whose base is inverted first) and rounded once more to
    the context precision.  [0 ** n] for negative [n] is Infinity in
    Python; the only use of a power in this program is followed by
    [Infinity / Infinity], which raises InvalidOperation, so it is
    modelled as that exception. *)
Definition pow_ (p : Z) (a : decimal) (n : Z) : result decimal :=
  let rs := d_sign a && Z.odd n in
  if is_zero a then
    if n <=? 0 then Raise InvalidOperation else Ok (mkdec rs 0 0)
  else if n =? 0 then Ok (mkdec rs 1 0)
  else if abs_is_one a then
    if n <? 0 then Ok (mkdec rs 1 0)
    else
      let shift := Z.min (n * (- d_exp a)) (p - 1) in
      Ok (mkdec rs (pow10 shift) (- shift))
  else
    let wp := p + ndigits (Z.abs_N n) + 2 in
    let wp := if n <? 0 then wp + 1 else wp in
    base <- (if n <? 0 then div_ wp (mkdec false 1 0) a else Ok a) ;;
    match Z.abs n with
    | Zpos m =>
        r <- pow_loop wp base m ;;
        fix_ p (mkdec rs (d_int r) (d_exp r))
    | _ => Ok (mkdec rs 1 0)
    end.

(** [Decimal._rescale] on a non-zero value. *)
Definition rescale (d : decimal) (exp : Z) : decimal :=
  if exp <=? d_exp d
  then mkdec (d_sign d) (d_int d * pow10 (d_exp d - exp)) exp
  else mkdec (d_sign d) (round_to (d_int d) (d_exp d) exp) exp.

(** [Decimal.quantize(exp)] where [qexp] is the exponent of [exp]. *)
Definition quantize_ (p : Z) (d : decimal) (qexp : Z) : result decimal :=
  if negb ((Etiny p <=? qexp) && (qexp <=? Emax)) then Raise InvalidOperation
  else if is_zero d then fix_ p (mkdec (d_sign d) 0 qexp)
  else
    let adjusted := ndigits (d_int d) + d_exp d - 1 in
    if Emax <? adjusted then Raise InvalidOperation
    else if p <? adjusted - qexp + 1 then Raise InvalidOperation
    else
      let ans := rescale d qexp in
      if Emax <? ndigits (d_int ans) + d_exp ans - 1 then Raise InvalidOperation
      else if p <? ndigits (d_int ans) then Raise InvalidOperation
      else fix_ p ans.

(** The operations in the default context. *)
Definition add := add_ default_prec.
Definition sub := sub_ default_prec.
Definition mul := mul_ default_prec.
Definition div := div_ default_prec.
Definition pow := pow_ default_prec.
Definition quantize := quantize_ default_prec.

End PyDecimal.

(** ** float: IEEE-754 binary64, round to nearest, ties to even *)

Module PyFloat.

(** A finite float is the dyadic rational [m * 2^e]; the sign of a zero
    is not kept (no operation of this program observes it). *)
Inductive float : Type :=
| Finite (m e : Z)
| Inf (neg : bool)
| NaN.

(** [a / b] rounded to the nearest integer, ties to even ([0 < b]). *)
Definition rne_div (a b : Z) : Z :=
  let q := a / b in
  let r := a mod b in
  if 2 * r <? b then q
  else if b <? 2 * r then q + 1
  else if Z.even q then q else q + 1.

(** [b * 2^k <= a], for any integer [k]. *)
Definition ge_scaled (a b k : Z) : bool :=
  if 0 <=? k then b * 2 ^ k <=? a else b <=? a * 2 ^ (- k).

(** [floor (log2 (a / b))] for [0 < a] and [0 < b]. *)
Definition ilog2_ratio (a b : Z) : Z :=
  let e0 := Z.log2 a - Z.log2 b in
  if ge_scaled a b e0 then e0 else e0 - 1.

(** The binary64 nearest to [(-1)^neg * a / b], for [0 < a], [0 < b]:
    53 significant bits, smallest exponent -1074, overflow from
    [2^1024]. *)
Definition round_ratio (neg : bool) (a b : Z) : float :=
  let ex := Z.max (ilog2_ratio a b - 52) (-1074) in
  let m := if 0 <=? ex then rne_div a (b * 2 ^ ex) else rne_div (a * 2 ^ (- ex)) b in
  if (0 <=? ex) && (2 ^ 1024 <=? m * 2 ^ ex) then Inf neg
  else Finite (if neg then - m else m) ex.

(** The binary64 nearest to [z * 2^e]. *)
Definition round_dyadic (z e : Z) : float :=
  if z =? 0 then Finite 0 0
  else if 0 <=? e then round_ratio (z <? 0) (Z.abs z * 2 ^ e) 1
  else round_ratio (z <? 0) (Z.abs z) (2 ^ (- e)).

(** [int / int] (true division, correctly rounded). *)
Definition int_truediv (a b : Z) : result float :=
  if b =? 0 then Raise ZeroDivisionError
  else if a =? 0 then Ok (Finite 0 0)
  else
    match round_ratio (xorb (a <? 0) (b <? 0)) (Z.abs a) (Z.abs b) with
    | Finite m e => Ok (Finite m e)
    | _ => Raise OverflowError
    end.

(** [float(n)] *)
Definition of_int (n : Z) : result float :=
  match round_dyadic n 0 with
  | Finite m e => Ok (Finite m e)
  | _ => Raise OverflowError
  end.

(** [x * y] *)
Definition mul (x y : float) : float :=
  match x, y with
  | Finite m1 e1, Finite m2 e2 => round_dyadic (m1 * m2) (e1 + e2)
  | Inf s, Finite m _ | Finite m _, Inf s =>
      if m =? 0 then NaN else Inf (xorb s (m <? 0))
  | Inf s1, Inf s2 => Inf (xorb s1 s2)
  | _, _ => NaN
  end.

(** [x < y] *)
Definition ltb (x y : float) : bool :=
  match x, y with
  | Finite m1 e1, Finite m2 e2 =>
      let e := Z.min e1 e2 in
      m1 * 2 ^ (e1 - e) <? m2 * 2 ^ (e2 - e)
  | Finite _ _, Inf s => negb s
  | Inf s, Finite _ _ => s
  | Inf s1, Inf s2 => s1 && negb s2
  | _, _ => false
  end.

(** The literal [0.5]. *)
Definition half : float := Finite 1 (-1).

(** [round(x)] with no [ndigits]: the nearest [int], ties to even. *)
Definition round (x : float) : result Z :=
  match x with
  | Finite m e => Ok (if 0 <=? e then m * 2 ^ e else rne_div m (2 ^ (- e)))
  | Inf _ => Raise OverflowError
  | NaN => Raise ValueError
  end.

End PyFloat.

Import PyDecimal.

(** ** credit_system/models.py *)

(** [datetime.date] *)
Record date : Type := mkdate { year : Z; month : Z; day : Z }.

Definition date_leb (a b : date) : bool :=
  (year a <? year b)
  || ((year a =? year b)
      && ((month a <? month b) || ((month a =? month b) && (day a <=? day b)))).

Record Loan : Type := mkLoan {
  loan_id : Z;
  loan_amount : decimal;
  tenure : Z;
  interest_rate : decimal;
  monthly_installment : decimal;
  emis_paid_on_time : Z;
  start_date : date;
  end_date : date;
  is_active : bool
}.

(** [loans] is the reverse relation of [Loan.customer]
    ([related_name='loans']): what [customer.loans.all()] yields. *)
Record Customer : Type := mkCustomer {
  customer_id : Z;
  first_name : string;
  last_name : string;
  age : Z;
  phone_number : Z;
  monthly_salary : decimal;
  approved_limit : Z;
  current_debt : decimal;
  total_current_emi : decimal;
  loans : list Loan
}.

(** ** credit_system/utils.py *)

Definition Decimal_0 : decimal := mkdec false 0 0.
Definition Decimal_0_01 : decimal := mkdec false 1 (-2).

(** [x.quantize(Decimal('0.01'))] *)
Definition quantize_cents (x : decimal) : result decimal :=
  quantize x (d_exp Decimal_0_01).

Definition calculate_monthly_installment
    (principal annual_interest_rate : decimal) (tenure_months : Z) : result decimal :=
  (* Handle 0% interest rate case (Simple division) *)
  if eqb annual_interest_rate (of_int 0) then
    if tenure_months =? 0 then Ok Decimal_0
    else
      q <- div principal (of_int tenure_months) ;;
      quantize_cents q
  else
    (* r = annual_interest_rate / Decimal(1200) *)
    r <- div annual_interest_rate (of_int 1200) ;;
    (* pow_r_n = (1 + r) ** tenure_months *)
    one_plus_r <- add r (of_int 1) ;;
    pow_r_n <- pow one_plus_r tenure_months ;;
    (* numerator = principal * r * pow_r_n *)
    pr <- mul principal r ;;
    numerator <- mul pr pow_r_n ;;
    (* denominator = pow_r_n - 1 *)
    denominator <- sub pow_r_n (of_int 1) ;;
    if eqb denominator (of_int 0) then Ok Decimal_0
    else
      emi <- div numerator denominator ;;
      quantize_cents emi.

(** ** credit_system/services.py *)

Module SCORE_WEIGHTS.
Definition on_time_payment : Z := 40.
Definition loan_volume : Z := 20.
Definition activity : Z := 15.
Definition approved_volume : Z := 15.
Definition limit_check : Z := 10.
End SCORE_WEIGHTS.

Module MIN_INTEREST_RATES.
Definition tier_2 : decimal := mkdec false 120 (-1).   (* Decimal('12.0') *)
Definition tier_3 : decimal := mkdec false 160 (-1).   (* Decimal('16.0') *)
End MIN_INTEREST_RATES.

(** The local variables that the loop over [all_loans] updates. *)
Record aggregates : Type := mkAgg {
  total_emis_paid : Z;
  total_emis_due : Z;
  total_closed_loans : Z;
  total_approved_volume : decimal;
  has_recent_default : bool
}.

Definition aggregates_init : aggregates := mkAgg 0 0 0 (of_int 0) false.

(** [loan.emis_paid_on_time / expected_emis < 0.5] *)
Definition paid_under_half (paid expected : Z) : result bool :=
  ratio <- PyFloat.int_truediv paid expected ;;
  Ok (PyFloat.ltb ratio PyFloat.half).

(** One iteration of [for loan in all_loans]. *)
Definition aggregate_loan (today : date) (st : aggregates) (loan : Loan) : result aggregates :=
  let paid := total_emis_paid st + emis_paid_on_time loan in
  let due := total_emis_due st + tenure loan in
  volume <- add (total_approved_volume st) (loan_amount loan) ;;
  let closed :=
    if date_leb (end_date loan) today
    then total_closed_loans st + 1 else total_closed_loans st in
  if year (start_date loan) =? year today then
    let expected_emis :=
      (year today - year (start_date loan)) * 12
      + (month today - month (start_date loan)) in
    if 0 <? expected_emis then
      under <- paid_under_half (emis_paid_on_time loan) expected_emis ;;
      Ok (mkAgg paid due closed volume (under || has_recent_default st))
    else Ok (mkAgg paid due closed volume (has_recent_default st))
  else Ok (mkAgg paid due closed volume (has_recent_default st)).

Fixpoint aggregate_loans (today : date) (st : aggregates) (all_loans : list Loan)
  : result aggregates :=
  match all_loans with
  | [] => Ok st
  | loan :: rest =>
      st' <- aggregate_loan today st loan ;;
      aggregate_loans today st' rest
  end.

(** [round(SCORE_WEIGHTS['on_time_payment'] * on_time_ratio)] *)
Definition on_time_points (paid due : Z) : result Z :=
  on_time_ratio <- PyFloat.int_truediv paid due ;;
  weight <- PyFloat.of_int SCORE_WEIGHTS.on_time_payment ;;
  PyFloat.round (PyFloat.mul weight on_time_ratio).

Definition volume_threshold_high : decimal := of_int 5000000.
Definition volume_threshold_medium : decimal := of_int 1000000.

(** The score computed from the aggregates, after the limit check has
    granted its 10 points. *)
Definition score_from_aggregates (st : aggregates) : result Z :=
  let current_score := SCORE_WEIGHTS.limit_check in
  (* i. Past Loans Paid on Time *)
  current_score <-
    (if 0 <? total_emis_due st then
       pts <- on_time_points (total_emis_paid st) (total_emis_due st) ;;
       Ok (current_score + pts)
     else Ok current_score) ;;
  (* ii. No of loans taken in past *)
  let score_from_volume := Z.min (total_closed_loans st * 5) SCORE_WEIGHTS.loan_volume in
  let current_score := current_score + score_from_volume in
  (* iv. Loan Approved Volume *)
  let current_score :=
    if geb (total_approved_volume st) volume_threshold_high
    then current_score + SCORE_WEIGHTS.approved_volume
    else if geb (total_approved_volume st) volume_threshold_medium
    then current_score + 5
    else current_score in
  (* iii. Loan activity in current year *)
  let current_score :=
    if negb (has_recent_default st)
    then current_score + SCORE_WEIGHTS.activity else current_score in
  Ok (Z.min current_score 100).

(** [today] is the value of [date.today()] at the call. *)
Definition calculate_credit_score
    (today : date) (customer : Customer) (requested_loan_amount : decimal) : result Z :=
  (* 1. CRITICAL CHECK: Debt-to-Limit Check *)
  exposure <- add (current_debt customer) requested_loan_amount ;;
  if gtb exposure (of_int (approved_limit customer)) then Ok 0
  else
    st <- aggregate_loans today aggregates_init (loans customer) ;;
    score_from_aggregates st.

(** The dict returned by [check_loan_eligibility]; the salary-gate
    branch has no ['interest_rate'] and no ['tenure'] key. *)
Record eligibility : Type := mkElig {
  approval : bool;
  res_interest_rate : option decimal;
  corrected_interest_rate : decimal;
  res_tenure : option Z;
  res_monthly_installment : decimal;
  credit_score : Z;
  message : string
}.

Definition check_loan_eligibility
    (today : date) (customer : Customer)
    (loan_amount requested_rate : decimal) (tenure : Z) : result eligibility :=
  (* 1. Calculate Credit Score *)
  credit_score <- calculate_credit_score today customer loan_amount ;;
  (* 2. CRITICAL PRE-CHECK: EMI-to-Salary Ratio *)
  salary_limit <- div (monthly_salary customer) (of_int 2) ;;
  if gtb (total_current_emi customer) salary_limit then
    Ok (mkElig false None requested_rate None (of_int 0) credit_score
          "Total current EMIs exceed 50% of monthly salary.")
  else
    (* 3. Eligibility and Rate Correction Logic *)
    let '(approved, required_min_rate) :=
      if 50 <? credit_score then (true, of_int 0)
      else if (30 <? credit_score) && (credit_score <=? 50)
      then (true, MIN_INTEREST_RATES.tier_2)
      else if (10 <? credit_score) && (credit_score <=? 30)
      then (true, MIN_INTEREST_RATES.tier_3)
      else (false, of_int 0) in
    (* 4. Interest Rate Correction *)
    let corrected_rate :=
      if approved && ltb requested_rate required_min_rate
      then required_min_rate else requested_rate in
    (* 5. Final EMI Calculation *)
    monthly_installment <-
      (if approved
       then calculate_monthly_installment loan_amount corrected_rate tenure
       else Ok (of_int 0)) ;;
    Ok (mkElig approved (Some requested_rate) corrected_rate (Some tenure)
          monthly_installment credit_score
          (if approved then "Loan approved."
           else "Credit score too low for loan approval.")).

(** ** Sample data used by the examples *)

Definition cents (n : Z) : decimal := mkdec (n <? 0) (Z.abs_N n) (-2).

Definition sample_today : date := mkdate 2025 6 15.

Definition sample_loans : list Loan :=
  [ mkLoan 1 (cents 50000000) 24 (cents 1050) (cents 2318800) 20
      (mkdate 2022 3 1) (mkdate 2024 3 1) false;
    mkLoan 2 (cents 80000000) 36 (cents 1200) (cents 2657100) 4
      (mkdate 2025 1 10) (mkdate 2028 1 10) true ].

Definition sample_customer (limit debt_cents emi_cents : Z) (history : list Loan) : Customer :=
  mkCustomer 7 "Test" "User" 40 9988776655 (cents 5000000) limit
    (cents debt_cents) (cents emi_cents) history.

(** Python's [max(a, b)] on Decimals: [b] only when it is strictly larger. *)
Definition decimal_max (a b : decimal) : decimal := if ltb a b then b else a.

Definition msg_salary : string := "Total current EMIs exceed 50% of monthly salary.".
Definition msg_approved : string := "Loan approved.".
Definition msg_low_score : string := "Credit score too low for loan approval.".

(** The decision returned past the salary gate for an approved loan. *)
Definition approved_at (requested corrected : decimal) (tenure score : Z) (emi : decimal)
  : eligibility :=
  mkElig true (Some requested) corrected (Some tenure) emi score msg_approved.

(** ** Preconditions of the data model *)

(** [emis_paid_on_time] is a count between 0 and the tenure. *)
Definition paid_within_tenure (l : Loan) : Prop :=
  0 <= emis_paid_on_time l <= tenure l.

(** A loan of the history: installments paid within the tenure and a
    positive principal. *)
Definition history_precondition (l : Loan) : Prop :=
  paid_within_tenure l /\ ltb Decimal_0 (loan_amount l) = true.

(** A profile: non-negative debt and a well-formed history. *)
Definition profile_precondition (c : Customer) : Prop :=
  ltb (current_debt c) Decimal_0 = false /\ Forall history_precondition (loans c).

(** A non-negative value of [DecimalField(max_digits=12, decimal_places=2)]. *)
Definition amount_field (d : decimal) : Prop :=
  d_sign d = false /\ d_exp d = -2 /\ (d_int d < 10 ^ 12)%N.

(** A stored loan: the amount is a 12-digit field and the count of paid
    installments fits the 32-bit [IntegerField]. *)
Definition model_loan (l : Loan) : Prop :=
  amount_field (loan_amount l) /\ emis_paid_on_time l < 2 ^ 31.

(** Values as the tables hold them ([loan_id] is a 32-bit primary key,
    so a customer has at most [2^32] loans). *)
Definition model_fields (c : Customer) (amount : decimal) : Prop :=
  amount_field (current_debt c) /\ amount_field amount
  /\ Forall model_loan (loans c)
  /\ Z.of_nat (List.length (loans c)) <= 2 ^ 32.

(** The invariant of the loop over the loans. *)
Definition aggregates_ok (st : aggregates) : Prop :=
  0 <= total_emis_paid st <= total_emis_due st /\ 0 <= total_closed_loans st.

(** The running total of the approved volume is either the initial
    [Decimal(0)] or an amount in cents. *)
Definition volume_is (d : decimal) (v : N) : Prop :=
  d = mkdec false v (-2) \/ (v = 0%N /\ d = mkdec false 0 0).

(** ** Rates used by the examples *)



(** ** Rounding relations *)

(** [q] is the integer nearest to [a / b], ties going to the even one. *)
Definition nearest_even (a b q : Z) : Prop :=
  - b <= 2 * a - 2 * q * b <= b
  /\ (Z.abs (2 * a - 2 * q * b) = b -> Z.even q = true).

(** [C] is the quotient [N0 / n] when it is exact, and otherwise the
    floor of it with the sticky digit of [__truediv__]: one is added when
    the last digit is 0 or 5, so that a later rounding sees the remainder. *)
Definition sticky_of (n N0 C : Z) : Prop :=
  n * C = N0
  \/ (N0 mod n <> 0 /\ C = N0 / n + (if (N0 / n) mod 5 =? 0 then 1 else 0)).

(** What [amount / n] is before quantizing: a value with [k] digits
    below the cent that is either the exact quotient or within half a
    unit of its last digit, that unit being smaller than [1 / n]. *)
Definition close_quotient (c n cy k : Z) : Prop :=
  n * cy = c * 10 ^ k
  \/ (14 <= k /\ - n <= 2 * (n * cy - c * 10 ^ k) <= n).

(** The amount in cents divided by [n], rounded half-even to a whole
    number of cents. *)
Definition cents_quotient (principal : decimal) (n : Z) : decimal :=
  mkdec (d_sign principal)
        (Z.to_N (PyFloat.rne_div (Z.of_N (d_int principal)) n)) (-2).

(** ** decimal.Decimal: [int()] and [round()] *)

(** [int(d)]: the integral part, truncated towards zero
    ([Decimal.__int__]). *)
Definition decimal_int (d : decimal) : Z :=
  let z :=
    if 0 <=? d_exp d then Z.of_N (d_int d) * 10 ^ d_exp d
    else Z.of_N (d_int d / pow10 (- d_exp d)) in
  if d_sign d then - z else z.

(** [round(d)] with no [ndigits]: [int(d._rescale(0, ROUND_HALF_EVEN))]
    ([Decimal.__round__]). *)
Definition decimal_round (d : decimal) : Z := decimal_int (rescale d 0).

(** ** credit_system/serializers.py *)

(** What [CustomerRegisterRequestSerializer.validated_data] holds. *)
Record CustomerRegisterRequest : Type := mkRegisterRequest {
  reg_first_name : string;
  reg_last_name : string;
  reg_age : Z;
  reg_monthly_income : Z;
  reg_phone_number : Z
}.

(** The constraints that the serializer declares on its fields. *)
Definition CustomerRegisterRequest_valid (data : CustomerRegisterRequest) : Prop :=
  (String.length (reg_first_name data) <= 100)%nat
  /\ (String.length (reg_last_name data) <= 100)%nat
  /\ 18 <= reg_age data
  /\ 1 <= reg_monthly_income data.

(** What [LoanRequestSerializer.validated_data] holds. *)
Record LoanRequest : Type := mkLoanRequest {
  req_customer_id : Z;
  req_loan_amount : decimal;
  req_interest_rate : decimal;
  req_tenure : Z
}.


(** ** credit_system/views.py *)

Module status.
Definition HTTP_200_OK : Z := 200.
Definition HTTP_201_CREATED : Z := 201.
Definition HTTP_400_BAD_REQUEST : Z := 400.
Definition HTTP_404_NOT_FOUND : Z := 404.
Definition HTTP_409_CONFLICT : Z := 409.
Definition HTTP_500_INTERNAL_SERVER_ERROR : Z := 500.
End status.

(** [rest_framework.response.Response(data, status=...)] *)
Record Response (A : Type) : Type := mkResponse {
  response_data : A;
  status_code : Z
}.

(** The data of a response: the errors of a serializer that is not
    valid, the body of an [Http404], or a dict built by the view. *)
Inductive body (A : Type) : Type :=
| serializer_errors
| not_found
| content (a : A).

Arguments serializer_errors {A}.
Arguments not_found {A}.

(** An exception that leaves the view. *)
Inductive unhandled : Type :=
| Exception (e : exn)     (* raised by Decimal arithmetic or by the engine *)
| IntegrityError          (* raised by [Loan.objects.create] *)
| OffsetError.            (* raised by the pandas date expression *)

Inductive outcome (A : Type) : Type :=
| Handled (r : A)
| Unhandled (u : unhandled).

Arguments Unhandled {A} u.

(** The two tables.  A [Loan] row has exactly one owner (its
    [customer] foreign key is not nullable), so the rows of the loan
    table are kept with their owner: [loans c] is [c.loans.all()].  A
    column holds the value that the view hands to the ORM; the range
    checks of a database backend are not part of the model. *)
Definition database : Type := list Customer.

(** [Loan.objects.all()] *)
Definition Loan_objects_all (db : database) : list Loan := flat_map loans db.

(** [Model.objects.latest(field).field]; [None] stands for
    [DoesNotExist]. *)
Definition latest (ids : list Z) : option Z :=
  match ids with
  | [] => None
  | i :: rest => Some (fold_left Z.max rest i)
  end.

(** [get_object_or_404(Customer, customer_id=id)]; [None] stands for
    [Http404]. *)
Definition get_object_or_404 (db : database) (id : Z) : option Customer :=
  find (fun c => customer_id c =? id) db.

(** *** POST /register *)

(** Step 2 of [RegisterCustomerView.post]:
    [int(round(Decimal(36) * Decimal(monthly_salary) / nearest_lakh) * nearest_lakh)]. *)
Definition calculate_approved_limit (monthly_salary : Z) : result Z :=
  calculated_limit <- mul (of_int 36) (of_int monthly_salary) ;;
  let nearest_lakh := of_int 100000 in
  lakhs <- div calculated_limit nearest_lakh ;;
  rounded <- mul (of_int (decimal_round lakhs)) nearest_lakh ;;
  Ok (decimal_int rounded).

Inductive register_content : Type :=
| register_message (message : string)
| register_error          (* {"error": f"Database error: {e}"} *)
| register_created (customer_id : Z) (name : string) (age : Z)
    (monthly_income : Z) (approved_limit : Z) (phone_number : Z).

(** [validated] is [serializer.validated_data], or [None] when
    [serializer.is_valid()] is false. *)
Definition RegisterCustomerView_post
    (db : database) (validated : option CustomerRegisterRequest)
  : outcome (Response (body register_content) * database) :=
  match validated with
  | None => Handled (mkResponse serializer_errors status.HTTP_400_BAD_REQUEST, db)
  | Some data =>
      let monthly_salary := reg_monthly_income data in
      let phone := reg_phone_number data in
      (* Check for existing phone number to prevent duplicates *)
      if existsb (fun c => phone_number c =? phone) db then
        Handled (mkResponse
                   (content (register_message
                               "Customer with this phone number already exists."))
                   status.HTTP_409_CONFLICT, db)
      else
        (* 2. Calculate Approved Limit *)
        match calculate_approved_limit monthly_salary with
        | Raise e => Unhandled (Exception e)
        | Ok limit =>
            (* 3. Get the next available customer_id *)
            let new_customer_id :=
              match latest (List.map customer_id db) with
              | Some latest_id => latest_id + 1
              | None => 1
              end in
            (* 4. Create and Save New Customer *)
            let customer :=
              mkCustomer new_customer_id (reg_first_name data) (reg_last_name data)
                (reg_age data) phone (of_int monthly_salary) limit
                (of_int 0) (of_int 0) [] in
            if existsb (fun c => (customer_id c =? new_customer_id)
                                 || (phone_number c =? phone)) db
            then
              Handled (mkResponse (content register_error)
                         status.HTTP_500_INTERNAL_SERVER_ERROR, db)
            else
              (* 5. Format and Return Response *)
              Handled (mkResponse
                         (content (register_created (customer_id customer)
                                     (first_name customer ++ " " ++ last_name customer)
                                     (age customer) monthly_salary
                                     (approved_limit customer) (phone_number customer)))
                         status.HTTP_201_CREATED, db ++ [customer])
        end
  end.

(** *** POST /check-eligibility *)



(** *** POST /create-loan *)

Record create_loan_response : Type := mkCreateLoanResponse {
  cl_loan_id : option Z;
  cl_customer_id : Z;
  cl_loan_approved : bool;
  cl_message : string;
  cl_monthly_installment : decimal
}.

(** [Loan.objects.create(customer=customer, ...)] followed by
    [customer.save(update_fields=['current_debt', 'total_current_emi'])]
    on the row of the customer. *)
Definition save_loan (db : database) (id : Z) (new_loan : Loan) (debt emi : decimal)
  : database :=
  List.map (fun c =>
              if customer_id c =? id then
                mkCustomer (customer_id c) (first_name c) (last_name c) (age c)
                  (phone_number c) (monthly_salary c) (approved_limit c)
                  debt emi (loans c ++ [new_loan])
              else c) db.

(** [offset today months] is the value of
    [(pd.to_datetime(today) + pd.DateOffset(months=months)).date()],
    [None] when the expression raises. *)
Definition CreateLoanView_post
    (today : date) (offset : date -> Z -> option date)
    (db : database) (validated : option LoanRequest)
  : outcome (Response (body create_loan_response) * database) :=
  match validated with
  | None => Handled (mkResponse serializer_errors status.HTTP_400_BAD_REQUEST, db)
  | Some data =>
      match get_object_or_404 db (req_customer_id data) with
      | None => Handled (mkResponse not_found status.HTTP_404_NOT_FOUND, db)
      | Some customer =>
          (* 1. Run Eligibility Check *)
          match check_loan_eligibility today customer (req_loan_amount data)
                  (req_interest_rate data) (req_tenure data) with
          | Raise e => Unhandled (Exception e)
          | Ok eligibility_result =>
              let loan_approved := approval eligibility_result in
              let installment := res_monthly_installment eligibility_result in
              if loan_approved then
                (* 2. Database Write (Atomic Transaction) *)
                let new_loan_id :=
                  match latest (List.map loan_id (Loan_objects_all db)) with
                  | Some latest_loan => latest_loan + 1
                  | None => 1
                  end in
                match offset today (req_tenure data) with
                | None => Unhandled OffsetError
                | Some end_date =>
                    (* a. Create Loan Record *)
                    let new_loan :=
                      mkLoan new_loan_id (req_loan_amount data) (req_tenure data)
                        (corrected_interest_rate eligibility_result) installment
                        0 today end_date true in
                    if existsb (fun l => loan_id l =? new_loan_id) (Loan_objects_all db)
                    then Unhandled IntegrityError
                    else
                      (* b. Update Customer Debt/EMI *)
                      match add (current_debt customer) (req_loan_amount data) with
                      | Raise e => Unhandled (Exception e)
                      | Ok debt =>
                          match add (total_current_emi customer) installment with
                          | Raise e => Unhandled (Exception e)
                          | Ok emi =>
                              Handled
                                (mkResponse
                                   (content (mkCreateLoanResponse (Some new_loan_id)
                                               (customer_id customer) loan_approved
                                               "Loan approved and processed successfully."
                                               installment))
                                   status.HTTP_201_CREATED,
                                 save_loan db (customer_id customer) new_loan debt emi)
                          end
                      end
                end
              else
                Handled
                  (mkResponse
                     (content (mkCreateLoanResponse None (customer_id customer)
                                 loan_approved (message eligibility_result) installment))
                     status.HTTP_200_OK, db)
          end
      end
  end.

(** *** GET /view-loan/{loan_id} *)

Record customer_view : Type := mkCustomerView {
  cv_customer_id : Z;
  cv_first_name : string;
  cv_last_name : string;
  cv_phone_number : Z;
  cv_age : Z
}.

Record loan_view : Type := mkLoanView {
  lv_loan_id : Z;
  lv_customer : customer_view;
  lv_loan_amount : decimal;
  lv_interest_rate : decimal;
  lv_monthly_installment : decimal;
  lv_tenure : Z
}.

(** [self.get_object()]: the loan with this [loan_id] and its owner. *)
Definition get_loan_or_404 (db : database) (id : Z) : option (Customer * Loan) :=
  find (fun cl => loan_id (snd cl) =? id)
       (flat_map (fun c => List.map (pair c) (loans c)) db).

Definition ViewLoanDetailsView_retrieve (db : database) (id : Z)
  : Response (body loan_view) :=
  match get_loan_or_404 db id with
  | None => mkResponse not_found status.HTTP_404_NOT_FOUND
  | Some (owner, instance) =>
      let customer_data :=
        mkCustomerView (customer_id owner) (first_name owner) (last_name owner)
          (phone_number owner) (age owner) in
      mkResponse
        (content (mkLoanView (loan_id instance) customer_data (loan_amount instance)
                    (interest_rate instance) (monthly_installment instance)
                    (tenure instance)))
        status.HTTP_200_OK
  end.

(** *** GET /view-loans/{customer_id} *)

(** [a > b] on dates ([end_date__gt]). *)
Definition date_gtb (a b : date) : bool :=
  (year b <? year a)
  || ((year a =? year b)
      && ((month b <? month a) || ((month a =? month b) && (day b <? day a)))).

Record loan_item : Type := mkLoanItem {
  li_loan_id : Z;
  li_loan_amount : decimal;
  li_interest_rate : decimal;
  li_monthly_installment : decimal;
  li_repayments_left : Z
}.

Definition ViewCustomerLoansView_get (today : date) (db : database) (id : Z)
  : Response (body (list loan_item)) :=
  match get_object_or_404 db id with
  | None => mkResponse not_found status.HTTP_404_NOT_FOUND
  | Some customer =>
      (* Filter for active loans (end_date in the future) *)
      let active_loans := filter (fun loan => date_gtb (end_date loan) today) (loans customer) in
      let loan_list :=
        List.map (fun loan =>
                    (* Calculate Repayments Left: Tenure - EMIs Paid On Time *)
                    let repayments_left := tenure loan - emis_paid_on_time loan in
                    mkLoanItem (loan_id loan) (loan_amount loan) (interest_rate loan)
                      (monthly_installment loan) repayments_left)
                 active_loans in
      mkResponse (content loan_list) status.HTTP_200_OK
  end.

(** ** Invariants of the tables *)

(** The primary keys and the unique phone number. *)
Definition database_ok (db : database) : Prop :=
  NoDup (List.map customer_id db)
  /\ NoDup (List.map phone_number db)
  /\ NoDup (List.map loan_id (Loan_objects_all db)).

(** A calendar date. *)
Definition valid_date (d : date) : Prop := 1 <= month d <= 12 /\ 1 <= day d <= 31.

(** ** The tables that the API can build *)

(** A database is reachable when it is built from the empty tables by
    calls of the two views that write: /register, with data that the
    serializer accepts, and /create-loan.  A call that raises leaves
    the tables as they were. *)
Inductive reachable (offset : date -> Z -> option date) : database -> Prop :=
| reachable_empty : reachable offset []
| reachable_register db data r db' :
    reachable offset db ->
    CustomerRegisterRequest_valid data ->
    reg_monthly_income data < 10 ^ 26 ->
    RegisterCustomerView_post db (Some data) = Handled (r, db') ->
    reachable offset db'
| reachable_create_loan db today validated r db' :
    reachable offset db ->
    CreateLoanView_post today offset db validated = Handled (r, db') ->
    reachable offset db'.

(** ** Sample tables and requests used by the examples *)

Definition sample_database : database := [sample_customer 1800000 0 0 sample_loans].

Definition sample_request : LoanRequest :=
  mkLoanRequest 7 (cents 10000000) (cents 1000) 12.

(** A request above the approved limit of the sample customer. *)
Definition sample_request_over_limit : LoanRequest :=
  mkLoanRequest 7 (cents 200000000) (cents 1000) 12.

Definition sample_registration : CustomerRegisterRequest :=
  mkRegisterRequest "Test" "User" 40 100000 9988776655.

(** A date offset for the examples: the same day, [months] later (the
    examples use days that every month has). *)
Definition sample_offset (today : date) (months : Z) : option date :=
  Some (mkdate (year today + (month today - 1 + months) / 12)
          ((month today - 1 + months) mod 12 + 1) (day today)).

(** * Properties *)

Unset Implicit Arguments.

(** ** The exception monad *)

Lemma bind_ok {A B : Type} (m : result A) (k : A -> result B) (b : B) :
  bind m k = Ok b -> exists a, m = Ok a /\ k a = Ok b.
Proof. destruct m as [a | e]; cbn; [eauto | discriminate]. Qed.

Lemma Ok_inj {A : Type} (a b : A) : Ok a = Ok b -> a = b.
Proof. congruence. Qed.

(** ** Decimal: digit counts and exact operations *)

Section DecimalFacts.

Lemma ndigits_fuel_pos fuel c : 1 <= ndigits_fuel fuel c.
Proof.
  revert c. induction fuel as [| f IH]; intros c; cbn [ndigits_fuel]; [lia |].
  destruct (c <? 10)%N; [lia |]. specialize (IH (c / 10)%N). lia.
Qed.

Lemma ndigits_pos c : 1 <= ndigits c.
Proof. apply ndigits_fuel_pos. Qed.

Lemma pow10_pos k : (0 < pow10 k)%N.
Proof. unfold pow10. apply N.neq_0_lt_0, N.pow_nonzero. discriminate. Qed.

Lemma pow10_succ k : 0 <= k -> pow10 (k + 1) = (10 * pow10 k)%N.
Proof.
  intros Hk. unfold pow10.
  replace (Z.to_N (k + 1)) with (N.succ (Z.to_N k)) by lia.
  apply N.pow_succ_r'.
Qed.

Lemma pow10_add j k : 0 <= j -> 0 <= k -> pow10 (j + k) = (pow10 j * pow10 k)%N.
Proof.
  intros Hj Hk. unfold pow10.
  rewrite Z2N.inj_add by lia. apply N.pow_add_r.
Qed.

Lemma pow10_le_mono j k : j <= k -> (pow10 j <= pow10 k)%N.
Proof.
  intros H. unfold pow10. apply N.pow_le_mono_r; [discriminate | lia].
Qed.

Lemma pow10_lt_mono j k : 0 <= j -> j < k -> (pow10 j < pow10 k)%N.
Proof.
  intros H0 H. unfold pow10. apply N.pow_lt_mono_r; lia.
Qed.

(** The fuel given by the bit size is enough: the digit count brackets
    the coefficient between two powers of ten. *)
Lemma ndigits_fuel_spec fuel c :
  (c < 2 ^ N.of_nat fuel)%N -> c <> 0%N ->
  (pow10 (ndigits_fuel fuel c - 1) <= c < pow10 (ndigits_fuel fuel c))%N.
Proof.
  revert c. induction fuel as [| f IH]; intros c Hlt Hnz.
  - cbn in Hlt. lia.
  - cbn [ndigits_fuel]. destruct (N.ltb_spec c 10) as [H10 | H10].
    + change (pow10 (1 - 1)) with 1%N. change (pow10 1) with 10%N. lia.
    + assert (Hq : (c / 10 <> 0)%N).
      { intros Hq. apply N.div_small_iff in Hq; lia. }
      assert (Hf : (c / 10 < 2 ^ N.of_nat f)%N).
      { apply N.Div0.div_lt_upper_bound.
        rewrite Nat2N.inj_succ, N.pow_succ_r' in Hlt. lia. }
      specialize (IH _ Hf Hq).
      pose proof (ndigits_fuel_pos f (c / 10)%N) as Hp.
      replace (1 + ndigits_fuel f (c / 10)%N - 1)
        with (ndigits_fuel f (c / 10)%N - 1 + 1) by lia.
      replace (1 + ndigits_fuel f (c / 10)%N)
        with (ndigits_fuel f (c / 10)%N + 1) by lia.
      rewrite !pow10_succ by lia.
      pose proof (N.Div0.div_mod c 10) as Hdm.
      pose proof (N.mod_upper_bound c 10 ltac:(discriminate)) as Hr.
      clear Hlt Hf Hp.
      generalize dependent (pow10 (ndigits_fuel f (c / 10) - 1)).
      generalize dependent (pow10 (ndigits_fuel f (c / 10))).
      generalize dependent (c mod 10)%N. generalize dependent (c / 10)%N.
      intros. lia.
Qed.

Lemma ndigits_spec c :
  c <> 0%N -> (pow10 (ndigits c - 1) <= c < pow10 (ndigits c))%N.
Proof.
  intros Hnz. apply ndigits_fuel_spec; [| exact Hnz].
  rewrite N2Nat.id. apply N.size_gt.
Qed.

Lemma ndigits_le c k : 0 <= k -> (c < pow10 k)%N -> c <> 0%N -> ndigits c <= k.
Proof.
  intros Hk Hlt Hnz.
  destruct (ndigits_spec c Hnz) as [Hlo _].
  destruct (Z.le_gt_cases (ndigits c) k) as [| Hgt]; [assumption | exfalso].
  assert (pow10 k <= pow10 (ndigits c - 1))%N by (apply pow10_le_mono; lia).
  lia.
Qed.

Lemma ndigits_ge c k : (pow10 k <= c)%N -> 0 <= k -> k < ndigits c.
Proof.
  intros Hle Hk.
  assert (Hnz : c <> 0%N) by (pose proof (pow10_pos k); lia).
  destruct (ndigits_spec c Hnz) as [_ Hhi].
  destruct (Z.lt_ge_cases k (ndigits c)) as [| Hge]; [assumption | exfalso].
  assert (pow10 (ndigits c) <= pow10 k)%N by (apply pow10_le_mono; lia).
  lia.
Qed.

(** [_fix] leaves a value alone when it fits the precision and the
    exponent range. *)
Lemma fix_unchanged p s c e :
  c <> 0%N -> ndigits c <= p -> Etiny p <= e <= Etop p ->
  fix_ p (mkdec s c e) = Ok (mkdec s c e).
Proof.
  intros Hnz Hd He. unfold fix_.
  rewrite (proj2 (N.eqb_neq c 0) Hnz).
  replace (Etop p <? ndigits c + e - p) with false by lia.
  replace (e <? Z.max (ndigits c + e - p) (Etiny p)) with false by lia.
  reflexivity.
Qed.

Lemma fix_zero p s e :
  Etiny p <= e <= Emax -> fix_ p (mkdec s 0 e) = Ok (mkdec s 0 e).
Proof.
  intros He. unfold fix_. cbn [N.eqb]. f_equal. f_equal. lia.
Qed.

(** Adding two non-negative values of the same exponent is exact as
    long as the sum has at most 28 digits. *)
Lemma add_same_exponent ca cb e :
  (ca + cb < pow10 28)%N -> Etiny 28 <= e <= Etop 28 ->
  add (mkdec false ca e) (mkdec false cb e) = Ok (mkdec false (ca + cb) e).
Proof.
  intros Hsum He. unfold add, add_, default_prec. cbn [d_int d_exp d_sign].
  rewrite Z.min_id.
  assert (HEt : Etop 28 <= Emax) by (unfold Etop, Emax; lia).
  assert (Hpow0 : forall z, pow10 (z - z) = 1%N)
    by (intros z; rewrite Z.sub_diag; reflexivity).
  destruct (N.eqb_spec ca 0) as [Ha | Ha]; destruct (N.eqb_spec cb 0) as [Hb | Hb];
    cbn [andb].
  - subst. apply fix_zero. lia.
  - subst ca. replace (Z.max e (e - 28 - 1)) with e by lia.
    rewrite Hpow0, N.mul_1_r, N.add_0_l.
    apply fix_unchanged; [assumption | | lia].
    apply ndigits_le; lia.
  - subst cb. replace (Z.max e (e - 28 - 1)) with e by lia.
    rewrite Hpow0, N.mul_1_r, N.add_0_r.
    apply fix_unchanged; [assumption | | lia].
    apply ndigits_le; lia.
  - unfold normalize. rewrite Z.ltb_irrefl.
    pose proof (ndigits_pos cb) as Hpb.
    replace (ndigits cb + e - 1 <? e + Z.min (-1) (ndigits ca - 28 - 2))
      with false by lia.
    rewrite Hpow0, N.mul_1_r. cbn [Bool.eqb].
    apply fix_unchanged; [lia | | lia].
    apply ndigits_le; lia.
Qed.

Lemma add_to_zero c :
  (c < pow10 28)%N ->
  add (mkdec false 0 0) (mkdec false c (-2)) = Ok (mkdec false c (-2)).
Proof.
  intros Hc. unfold add, add_, default_prec. cbn [d_int d_exp d_sign N.eqb andb].
  destruct (N.eqb_spec c 0) as [Hz | Hz].
  - subst c. reflexivity.
  - change (Z.max (Z.min 0 (-2)) (-2 - 28 - 1)) with (-2).
    change (pow10 (-2 - -2)) with 1%N. rewrite N.mul_1_r.
    apply fix_unchanged; [assumption | | unfold Etiny, Etop, Emin, Emax; lia].
    apply ndigits_le; [lia | assumption | assumption].
Qed.

Lemma add_volume d v c :
  volume_is d v -> (v + c < pow10 28)%N ->
  add d (mkdec false c (-2)) = Ok (mkdec false (v + c) (-2)).
Proof.
  intros [-> | [-> ->]] Hsum.
  - apply add_same_exponent; [assumption | unfold Etiny, Etop, Emin, Emax; lia].
  - rewrite N.add_0_l in *. apply add_to_zero. assumption.
Qed.

End DecimalFacts.

(** ** float: bounds kept by rounding *)

Section FloatFacts.

Import PyFloat.

(** A quotient that is at most the integer [n] rounds to at most [n]. *)
Lemma rne_div_bounds a b n :
  0 < b -> 0 <= a -> a <= n * b -> 0 <= rne_div a b <= n.
Proof.
  intros Hb Ha Hn. unfold rne_div.
  pose proof (Z.div_mod a b ltac:(lia)) as Hdm.
  pose proof (Z.mod_pos_bound a b Hb) as Hr.
  assert (Hq0 : 0 <= a / b) by (apply Z.div_pos; lia).
  assert (Hqn : a / b <= n).
  { apply Z.div_le_upper_bound; lia. }
  destruct (2 * (a mod b) <? b) eqn:H1; [lia |].
  assert (a / b < n) by nia.
  destruct (b <? 2 * (a mod b)); [lia |].
  destruct (Z.even (a / b)); lia.
Qed.

Lemma ge_scaled_ilog2 a b :
  0 < a -> 0 < b -> ge_scaled a b (ilog2_ratio a b) = true.
Proof.
  intros Ha Hb. unfold ilog2_ratio.
  destruct (ge_scaled a b (Z.log2 a - Z.log2 b)) eqn:H; [exact H |].
  pose proof (Z.log2_spec a Ha) as [La _].
  pose proof (Z.log2_spec b Hb) as [_ Lb].
  pose proof (Z.log2_nonneg a). pose proof (Z.log2_nonneg b).
  unfold ge_scaled.
  destruct (0 <=? Z.log2 a - Z.log2 b - 1) eqn:Hs.
  - apply Z.leb_le.
    assert (Hsplit : 2 ^ Z.log2 a
                     = 2 ^ Z.succ (Z.log2 b) * 2 ^ (Z.log2 a - Z.log2 b - 1)).
    { rewrite <- Z.pow_add_r by lia. f_equal. lia. }
    assert (0 < 2 ^ (Z.log2 a - Z.log2 b - 1)) by (apply Z.pow_pos_nonneg; lia).
    nia.
  - apply Z.leb_le.
    assert (Hsplit : 2 ^ Z.succ (Z.log2 b)
                     = 2 ^ Z.log2 a * 2 ^ (- (Z.log2 a - Z.log2 b - 1))).
    { rewrite <- Z.pow_add_r by lia. f_equal. lia. }
    assert (0 < 2 ^ (- (Z.log2 a - Z.log2 b - 1))) by (apply Z.pow_pos_nonneg; lia).
    nia.
Qed.

Lemma ilog2_ratio_lt a b k :
  0 < a -> 0 < b -> 0 <= k -> a < 2 ^ k * b -> ilog2_ratio a b < k.
Proof.
  intros Ha Hb Hk Hlt.
  pose proof (ge_scaled_ilog2 a b Ha Hb) as Hge.
  destruct (Z.lt_ge_cases (ilog2_ratio a b) k) as [|Hbig]; [assumption | exfalso].
  unfold ge_scaled in Hge.
  replace (0 <=? ilog2_ratio a b) with true in Hge by lia.
  apply Z.leb_le in Hge.
  assert (2 ^ k <= 2 ^ ilog2_ratio a b) by (apply Z.pow_le_mono_r; lia).
  nia.
Qed.

(** A ratio of at most [n < 2^53] rounds to a finite float of at most [n]. *)
Lemma round_ratio_bounded neg a b n :
  0 < a -> 0 < b -> 0 < n < 2 ^ 53 -> a <= n * b ->
  exists m e,
    round_ratio neg a b = Finite (if neg then - m else m) e
    /\ e <= 0 /\ 0 <= m <= n * 2 ^ (- e).
Proof.
  intros Ha Hb Hn Hle.
  assert (He : ilog2_ratio a b < 53).
  { apply ilog2_ratio_lt; try lia. nia. }
  unfold round_ratio.
  set (ex := Z.max (ilog2_ratio a b - 52) (-1074)).
  assert (Hex : ex <= 0) by (unfold ex; lia).
  destruct (0 <=? ex) eqn:H0.
  - assert (Hex0 : ex = 0) by lia.
    rewrite Hex0, Z.pow_0_r, !Z.mul_1_r.
    pose proof (rne_div_bounds a b n Hb ltac:(lia) Hle) as Hm.
    assert (Hov : (2 ^ 1024 <=? rne_div a b) = false).
    { apply Z.leb_gt.
      assert (2 ^ 53 < 2 ^ 1024) by (apply Z.pow_lt_mono_r; lia). lia. }
    rewrite Hov. cbn [andb].
    exists (rne_div a b), 0. split; [reflexivity |].
    rewrite Z.opp_0, Z.pow_0_r. lia.
  - cbn [andb].
    assert (Hp : 0 < 2 ^ (- ex)) by (apply Z.pow_pos_nonneg; lia).
    pose proof (rne_div_bounds (a * 2 ^ (- ex)) b (n * 2 ^ (- ex)) Hb
                  ltac:(nia) ltac:(nia)) as Hm.
    exists (rne_div (a * 2 ^ (- ex)) b), ex. split; [reflexivity |]. lia.
Qed.

Lemma int_truediv_bounded a b n :
  0 <= a -> 0 < b -> 0 < n < 2 ^ 53 -> a <= n * b ->
  exists m e,
    int_truediv a b = Ok (Finite m e) /\ e <= 0 /\ 0 <= m <= n * 2 ^ (- e).
Proof.
  intros Ha Hb Hn Hle. unfold int_truediv.
  replace (b =? 0) with false by lia.
  destruct (a =? 0) eqn:Ha0.
  - exists 0, 0. split; [reflexivity |]. cbn. lia.
  - replace (a <? 0) with false by lia. replace (b <? 0) with false by lia.
    cbn [xorb]. rewrite !Z.abs_eq by lia.
    destruct (round_ratio_bounded false a b n ltac:(lia) Hb Hn Hle)
      as (m & e & Hr & He & Hm).
    rewrite Hr. exists m, e. auto.
Qed.

Lemma of_int_weight :
  of_int SCORE_WEIGHTS.on_time_payment = Ok (Finite (40 * 2 ^ 47) (-47)).
Proof. vm_compute. reflexivity. Qed.

Lemma mul_weight_bounded m e :
  e <= 0 -> 0 <= m <= 2 ^ (- e) ->
  exists m' e',
    mul (Finite (40 * 2 ^ 47) (-47)) (Finite m e) = Finite m' e'
    /\ e' <= 0 /\ 0 <= m' <= 40 * 2 ^ (- e').
Proof.
  intros He Hm. cbn [mul]. unfold round_dyadic.
  assert (H47 : 0 < 2 ^ 47) by (apply Z.pow_pos_nonneg; lia).
  destruct (40 * 2 ^ 47 * m =? 0) eqn:Hz.
  - exists 0, 0. split; [reflexivity |]. cbn. lia.
  - apply Z.eqb_neq in Hz.
    assert (Hm0 : 0 < m) by (destruct (Z.eq_dec m 0); [subst m; lia | lia]).
    assert (Hz0 : 0 < 40 * 2 ^ 47 * m) by nia.
    replace (0 <=? -47 + e) with false by lia.
    replace (40 * 2 ^ 47 * m <? 0) with false by lia.
    rewrite Z.abs_eq by nia.
    assert (Hp : 0 < 2 ^ (- (-47 + e))) by (apply Z.pow_pos_nonneg; lia).
    assert (Hsplit : 2 ^ (- (-47 + e)) = 2 ^ 47 * 2 ^ (- e)).
    { rewrite <- Z.pow_add_r by lia. f_equal. lia. }
    assert (H53 : 40 < 2 ^ 53)
      by (apply Z.lt_trans with (2 ^ 6); [reflexivity | apply Z.pow_lt_mono_r; lia]).
    assert (Hb : 40 * 2 ^ 47 * m <= 40 * 2 ^ (- (-47 + e))).
    { rewrite Hsplit.
      assert (2 ^ 47 * m <= 2 ^ 47 * 2 ^ (- e))
        by (apply Z.mul_le_mono_nonneg_l; lia).
      lia. }
    destruct (round_ratio_bounded false (40 * 2 ^ 47 * m) (2 ^ (- (-47 + e))) 40
                Hz0 Hp ltac:(lia) Hb)
      as (m' & e' & Hr & He' & Hm').
    rewrite Hr. exists m', e'. auto.
Qed.

Lemma round_bounded m e n :
  e <= 0 -> 0 <= m <= n * 2 ^ (- e) ->
  exists z, round (Finite m e) = Ok z /\ 0 <= z <= n.
Proof.
  intros He Hm. cbn [round].
  destruct (0 <=? e) eqn:H0.
  - assert (e = 0) by lia. subst e. cbn in *. eexists. split; [reflexivity | lia].
  - assert (Hp : 0 < 2 ^ (- e)) by (apply Z.pow_pos_nonneg; lia).
    eexists. split; [reflexivity |].
    apply rne_div_bounds; lia.
Qed.

End FloatFacts.

(** ** Rounding to the nearest, ties to even *)

Section RoundingFacts.

Lemma nearest_even_unique a b q q' :
  0 < b -> nearest_even a b q -> nearest_even a b q' -> q = q'.
Proof.
  intros Hb [H1 E1] [H2 E2].
  assert (Hd : -1 <= q - q' <= 1) by nia.
  destruct (Z.eq_dec q q') as [| Hne]; [assumption | exfalso].
  assert (Hcase : q' = q + 1 \/ q = q' + 1) by lia.
  destruct Hcase as [-> | ->].
  - assert (2 * a - 2 * q * b = b) by nia.
    assert (2 * a - 2 * (q + 1) * b = - b) by nia.
    assert (Ha : Z.even q = true) by (apply E1; lia).
    assert (Hb' : Z.even (q + 1) = true) by (apply E2; lia).
    rewrite Z.even_add in Hb'. rewrite Ha in Hb'. discriminate.
  - assert (2 * a - 2 * q' * b = b) by nia.
    assert (2 * a - 2 * (q' + 1) * b = - b) by nia.
    assert (Ha : Z.even q' = true) by (apply E2; lia).
    assert (Hb' : Z.even (q' + 1) = true) by (apply E1; lia).
    rewrite Z.even_add in Hb'. rewrite Ha in Hb'. discriminate.
Qed.

Lemma rne_div_nearest a b : 0 < b -> nearest_even a b (PyFloat.rne_div a b).
Proof.
  intros Hb. unfold PyFloat.rne_div, nearest_even.
  pose proof (Z.div_mod a b ltac:(lia)) as Hdm.
  pose proof (Z.mod_pos_bound a b Hb) as Hr.
  set (q := a / b) in *. set (r := a mod b) in *.
  destruct (Z.ltb_spec (2 * r) b) as [H1 | H1].
  - split; [nia |]. intros Habs. exfalso. nia.
  - destruct (Z.ltb_spec b (2 * r)) as [H2 | H2].
    + split; [nia |]. intros Habs. exfalso. nia.
    + assert (Htie : 2 * r = b) by lia.
      destruct (Z.even q) eqn:Hev.
      * split; [nia | intros _; exact Hev].
      * split; [nia |]. intros _. rewrite Z.even_add, Hev. reflexivity.
Qed.

Lemma round_half_even_nearest c k :
  0 < k ->
  nearest_even (Z.of_N c) (Z.of_N (pow10 k)) (Z.of_N (round_half_even c k)).
Proof.
  intros Hk. unfold round_half_even.
  replace (k <=? 0) with false by lia.
  pose proof (pow10_pos k) as Hm.
  set (m := pow10 k) in *.
  pose proof (N.Div0.div_mod c m) as Hdm.
  pose proof (N.mod_upper_bound c m ltac:(lia)) as Hr.
  set (q := (c / m)%N) in *. set (r := (c mod m)%N) in *.
  unfold nearest_even.
  destruct (N.ltb_spec m (2 * r)) as [H1 | H1]; cbn [orb].
  - split; [nia |]. intros Habs. exfalso. nia.
  - destruct (N.eqb_spec (2 * r) m) as [H2 | H2]; cbn [andb].
    + destruct (N.odd q) eqn:Hodd.
      * split; [nia |]. intros _.
        rewrite N2Z.inj_add, Z.even_add. change (Z.of_N 1) with 1.
        rewrite <- Z.negb_odd. 
        replace (Z.odd (Z.of_N q)) with (N.odd q); [rewrite Hodd; reflexivity |].
        destruct q as [| p]; [reflexivity |]. destruct p; reflexivity.
      * split; [nia |]. intros _.
        rewrite <- Z.negb_odd.
        replace (Z.odd (Z.of_N q)) with (N.odd q); [rewrite Hodd; reflexivity |].
        destruct q as [| p]; [reflexivity |]. destruct p; reflexivity.
    + split; [nia |]. intros Habs. exfalso. nia.
Qed.

(** Rounding twice: once to a fine grid, within half a unit of it, then
    to the integers, gives the integer nearest to the exact quotient as
    soon as the fine unit is smaller than [1 / n]. *)
Lemma double_rounding c n cy T z :
  0 < n -> n < T -> Z.even T = true ->
  - n <= 2 * (n * cy - c * T) <= n ->
  nearest_even cy T z -> nearest_even c n z.
Proof.
  intros Hn HT Hev Hclose [Hz Ez].
  assert (HD : - n <= 2 * c - 2 * z * n <= n) by nia.
  split; [exact HD |].
  intros Htie. apply Ez.
  apply Z.even_spec in Hev. destruct Hev as [h Hh].
  assert (Hcase : 2 * c - 2 * z * n = n \/ 2 * c - 2 * z * n = - n) by lia.
  destruct Hcase as [Hc | Hc].
  - assert (Hw : - n <= 2 * n * (cy - z * T - h) <= n) by nia.
    assert (cy - z * T - h = 0) by nia.
    lia.
  - assert (Hw : - n <= 2 * n * (cy - z * T + h) <= n) by nia.
    assert (cy - z * T + h = 0) by nia.
    lia.
Qed.

(** The same when the fine value is the exact quotient. *)
Lemma exact_rounding c n cy T z :
  0 < n -> 0 < T -> n * cy = c * T ->
  nearest_even cy T z -> nearest_even c n z.
Proof.
  intros Hn HT Hex [Hz Ez].
  assert (Heq : T * (2 * c - 2 * z * n) = n * (2 * cy - 2 * z * T)) by nia.
  split; [nia |].
  intros Htie. apply Ez.
  assert (Hcase : 2 * c - 2 * z * n = n \/ 2 * c - 2 * z * n = - n) by lia.
  destruct Hcase as [Hc | Hc]; rewrite Hc in Heq; nia.
Qed.

Lemma pow10_Z k : 0 <= k -> Z.of_N (pow10 k) = 10 ^ k.
Proof.
  intros Hk. unfold pow10. rewrite N2Z.inj_pow. rewrite Z2N.id by lia. reflexivity.
Qed.

Lemma pow10Z_pos k : 0 <= k -> 0 < 10 ^ k.
Proof. intros. apply Z.pow_pos_nonneg; lia. Qed.

Lemma pow10Z_succ k : 0 <= k -> 10 ^ (k + 1) = 10 * 10 ^ k.
Proof. intros. rewrite Z.pow_add_r by lia. lia. Qed.

(** Rounding the sticky quotient (or an exact one) to a coarser unit
    [M = 10 * M1] stays within half a unit of the exact value [N0 / n]. *)
Lemma sticky_round n N0 C M1 q :
  0 < n -> 0 <= N0 -> 0 < M1 ->
  (n * C = N0
   \/ (N0 mod n <> 0 /\ C = N0 / n + (if (N0 / n) mod 5 =? 0 then 1 else 0))) ->
  nearest_even C (10 * M1) q ->
  - (n * (10 * M1)) <= 2 * (n * q * (10 * M1) - N0) <= n * (10 * M1).
Proof.
  intros Hn HN HM Hrel [Hq _].
  destruct Hrel as [Hex | [Hrem HC]].
  - subst N0. nia.
  - pose proof (Z.div_mod N0 n ltac:(lia)) as Hdm.
    pose proof (Z.mod_pos_bound N0 n Hn) as Hr.
    set (coeff := N0 / n) in *. set (rem := N0 mod n) in *.
    clearbody coeff rem.
    set (E := 2 * C - 2 * q * (10 * M1)) in *.
    assert (HE : - (10 * M1 - 2) <= E <= 10 * M1 - 2).
    { assert (Hnot : E <> 10 * M1 /\ E <> - (10 * M1)).
      { split; intros HEq.
        - assert (HC5 : C = 5 * (2 * q * M1 + M1)) by (unfold E in HEq; lia).
          generalize dependent (2 * q * M1 + M1). intros t ?.
          destruct (coeff mod 5 =? 0) eqn:H5; [apply Z.eqb_eq in H5 | apply Z.eqb_neq in H5].
          all: clear - H5 HC HC5; Z.to_euclidean_division_equations; lia.
        - assert (HC5 : C = 5 * (2 * q * M1 - M1)) by (unfold E in HEq; lia).
          generalize dependent (2 * q * M1 - M1). intros t ?.
          destruct (coeff mod 5 =? 0) eqn:H5; [apply Z.eqb_eq in H5 | apply Z.eqb_neq in H5];
            clear - H5 HC HC5; Z.to_euclidean_division_equations; lia. }
      assert (Heven : exists w, E = 2 * w) by (exists (C - q * (10 * M1)); unfold E; lia).
      destruct Heven as [w Hw]. lia. }
    assert (Hdelta : - n < n * C - N0 < n).
    { destruct (coeff mod 5 =? 0); nia. }
    assert (Hsplit : 2 * (n * q * (10 * M1) - N0) = - (n * E) + 2 * (n * C - N0))
      by (unfold E; ring).
    rewrite Hsplit. nia.
Qed.

Lemma ndigits_lt_pow c k : 0 <= k -> ndigits c <= k -> (c < pow10 k)%N.
Proof.
  intros Hk Hd.
  destruct (N.eq_dec c 0) as [-> | Hnz]; [apply pow10_pos |].
  destruct (ndigits_spec c Hnz) as [_ Hhi].
  apply N.lt_le_trans with (pow10 (ndigits c)); [exact Hhi |].
  apply pow10_le_mono. exact Hd.
Qed.

Lemma ndigits_gt_pow c k : c <> 0%N -> k < ndigits c -> (pow10 k <= c)%N.
Proof.
  intros Hnz Hd.
  destruct (ndigits_spec c Hnz) as [Hlo _].
  apply N.le_trans with (pow10 (ndigits c - 1)); [| exact Hlo].
  apply pow10_le_mono. lia.
Qed.

Lemma fix_round_close s C e0 n N0 :
  0 < n -> 0 <= N0 -> sticky_of n N0 (Z.of_N C) ->
  28 < ndigits C <= 30 -> -1000 <= e0 <= 1000 ->
  exists cy j,
    fix_ 28 (mkdec s C e0) = Ok (mkdec s cy (e0 + j))
    /\ 1 <= j <= 3
    /\ 10 ^ 27 <= Z.of_N cy
    /\ - (n * 10 ^ j) <= 2 * (n * Z.of_N cy * 10 ^ j - N0) <= n * 10 ^ j.
Proof.
  intros Hn HN0 Hst Hd He.
  assert (Hnz : C <> 0%N).
  { intros ->. change (ndigits 0) with 1 in Hd. lia. }
  unfold fix_. rewrite (proj2 (N.eqb_neq C 0) Hnz).
  assert (HEtop : Etop 28 = 999972) by reflexivity.
  assert (HEtiny : Etiny 28 = -1000026) by reflexivity.
  replace (Etop 28 <? ndigits C + e0 - 28) with false by lia.
  replace (Z.max (ndigits C + e0 - 28) (Etiny 28)) with (ndigits C + e0 - 28) by lia.
  replace (e0 <? ndigits C + e0 - 28) with true by lia.
  unfold round_to.
  replace (ndigits C + e0 - (ndigits C + e0 - 28) <? 0) with false by lia.
  replace (ndigits C + e0 - 28 - e0) with (ndigits C - 28) by lia.
  set (j' := ndigits C - 28) in *.
  assert (Hj' : 1 <= j' <= 2) by (unfold j'; lia).
  pose proof (round_half_even_nearest C j' ltac:(lia)) as Hne.
  rewrite pow10_Z in Hne by lia.
  set (q := round_half_even C j') in *.
  (* the size of the coefficient *)
  pose proof (ndigits_gt_pow C (27 + j') Hnz ltac:(unfold j'; lia)) as Hlo.
  pose proof (ndigits_lt_pow C (28 + j') ltac:(lia) ltac:(unfold j'; lia)) as Hhi.
  apply N2Z.inj_le in Hlo. apply N2Z.inj_lt in Hhi.
  rewrite pow10_Z in Hlo, Hhi by lia.
  rewrite Z.pow_add_r in Hlo, Hhi by lia.
  assert (HM : 10 ^ j' = 10 * 10 ^ (j' - 1)).
  { rewrite <- pow10Z_succ by lia. f_equal. lia. }
  assert (HM1 : 0 < 10 ^ (j' - 1)) by (apply pow10Z_pos; lia).
  pose proof Hne as Hne'. rewrite HM in Hne'.
  pose proof (sticky_round n N0 (Z.of_N C) (10 ^ (j' - 1)) (Z.of_N q) Hn HN0 HM1 Hst Hne')
    as Hclose.
  rewrite <- HM in Hclose.
  destruct Hne as [Hq _].
  assert (H27 : 10 ^ 27 = 1000000000000000000000000000) by reflexivity.
  assert (H28 : 10 ^ 28 = 10000000000000000000000000000) by reflexivity.
  assert (Hq27 : 10 ^ 27 <= Z.of_N q) by nia.
  assert (Hq28 : Z.of_N q <= 10 ^ 28) by nia.
  assert (Hjpos : 0 < 10 ^ j') by (apply pow10Z_pos; lia).
  destruct (28 <? ndigits q) eqn:Hcarry.
  - (* the rounding carried into a 29th digit *)
    apply Z.ltb_lt in Hcarry.
    assert (Hqnz : q <> 0%N) by lia.
    pose proof (ndigits_gt_pow q 28 Hqnz Hcarry) as Hq28'.
    apply N2Z.inj_le in Hq28'. rewrite pow10_Z in Hq28' by lia.
    assert (Hqeq : Z.of_N q = 10 ^ 28) by lia.
    replace (Etop 28 <? ndigits C + e0 - 28 + 1) with false by lia.
    exists (q / 10)%N, (j' + 1).
    assert (Hq10 : Z.of_N (q / 10) = 10 ^ 27).
    { rewrite N2Z.inj_div. rewrite Hqeq. reflexivity. }
    split; [f_equal; f_equal; unfold j'; lia |].
    split; [lia |]. split; [lia |].
    rewrite Hq10, pow10Z_succ by lia. rewrite Hqeq in Hclose. nia.
  - apply Z.ltb_ge in Hcarry.
    replace (Etop 28 <? ndigits C + e0 - 28) with false by lia.
    exists q, j'.
    split; [f_equal; f_equal; unfold j'; lia |].
    split; [lia |]. split; [lia |].
    replace (n * Z.of_N q * 10 ^ j') with (n * Z.of_N q * 10 ^ j') by ring.
    exact Hclose.
Qed.

End RoundingFacts.

(** ** Division of an amount by a tenure *)

Section DivisionFacts.

Lemma strip_to_ideal_spec fuel : forall coeff exp ideal c1 e1,
  strip_to_ideal fuel coeff exp ideal = (c1, e1) -> exp <= ideal ->
  exp <= e1 <= ideal /\ (c1 * pow10 (e1 - exp) = coeff)%N.
Proof.
  induction fuel as [| f IH]; intros coeff exp ideal c1 e1 H Hle; cbn [strip_to_ideal] in H.
  - injection H as <- <-. rewrite Z.sub_diag. change (pow10 0) with 1%N. lia.
  - destruct (exp <? ideal) eqn:Hlt; cbn [andb] in H.
    + destruct (N.eqb_spec (coeff mod 10) 0) as [Hm | Hm].
      * apply IH in H; [| lia]. destruct H as [He Hc].
        split; [lia |].
        replace (e1 - exp) with ((e1 - (exp + 1)) + 1) by lia.
        rewrite pow10_succ by lia.
        pose proof (N.Div0.div_mod coeff 10) as Hdm. rewrite Hm in Hdm.
        rewrite N.mul_assoc, (N.mul_comm c1 10), <- N.mul_assoc, Hc. lia.
      * injection H as <- <-. rewrite Z.sub_diag. change (pow10 0) with 1%N. lia.
    + injection H as <- <-. rewrite Z.sub_diag. change (pow10 0) with 1%N. lia.
Qed.

Lemma pow10Z_le_mono j k : 0 <= j <= k -> 10 ^ j <= 10 ^ k.
Proof. intros. apply Z.pow_le_mono_r; lia. Qed.

Lemma pow10Z_split k j : 0 <= j <= k -> 10 ^ k = 10 ^ (k - j) * 10 ^ j.
Proof. intros. rewrite <- Z.pow_add_r by lia. f_equal. lia. Qed.

Lemma div_amount s c n :
  c <> 0%N -> (c < 10 ^ 12)%N -> 0 < n < 2 ^ 31 ->
  exists cy k,
    div (mkdec s c (-2)) (of_int n) = Ok (mkdec s cy (-2 - k))
    /\ 0 <= k <= 39 /\ cy <> 0%N
    /\ close_quotient (Z.of_N c) n (Z.of_N cy) k.
Proof.
  intros Hc0 Hc Hn.
  unfold div, div_, default_prec, of_int. cbn [d_sign d_int d_exp].
  replace (n <? 0) with false by lia. rewrite xorb_false_r.
  set (nN := Z.abs_N n).
  assert (HnN : Z.of_N nN = n) by (unfold nN; rewrite N2Z.inj_abs_N; lia).
  assert (HnN0 : nN <> 0%N) by lia.
  rewrite (proj2 (N.eqb_neq nN 0) HnN0), (proj2 (N.eqb_neq c 0) Hc0).
  (* digit counts *)
  pose proof (ndigits_pos c) as Hdc1. pose proof (ndigits_pos nN) as Hdn1.
  assert (Hdc : ndigits c <= 12) by (apply ndigits_le; [lia | exact Hc | exact Hc0]).
  assert (Hdn : ndigits nN <= 10).
  { apply ndigits_le; [lia | | exact HnN0].
    change (pow10 10) with (10 ^ 10)%N.
    assert (2 ^ 31 < 10 ^ 10) by reflexivity. lia. }
  set (shift := ndigits nN - ndigits c + 28 + 1).
  assert (Hshift : 18 <= shift <= 39) by (unfold shift; lia).
  replace (0 <=? shift) with true by lia.
  replace (-2 - 0 - shift) with (-2 - shift) by lia.
  replace (-2 - 0) with (-2) by lia.
  replace (-2 - (-2 - shift)) with shift by lia.
  set (num := (c * pow10 shift)%N).
  set (N0 := Z.of_N c * 10 ^ shift).
  assert (HN0 : Z.of_N num = N0)
    by (unfold num, N0; rewrite N2Z.inj_mul, pow10_Z by lia; reflexivity).
  assert (Hcoeff : Z.of_N (num / nN) = N0 / n) by (rewrite N2Z.inj_div, HN0, HnN; reflexivity).
  assert (Hrem : Z.of_N (num mod nN) = N0 mod n)
    by (rewrite N2Z.inj_mod, HN0, HnN; reflexivity).
  assert (HN0pos : 0 <= N0) by (unfold N0; pose proof (pow10Z_pos shift); nia).
  (* the quotient has 29 or 30 digits *)
  destruct (ndigits_spec c Hc0) as [Hclo Hchi].
  destruct (ndigits_spec nN HnN0) as [Hnlo Hnhi].
  apply N2Z.inj_le in Hclo, Hnlo. apply N2Z.inj_lt in Hchi, Hnhi.
  rewrite pow10_Z in Hclo, Hchi, Hnlo, Hnhi by lia. rewrite HnN in Hnlo, Hnhi.
  assert (H28 : 10 ^ 28 <= N0 / n).
  { apply Z.div_le_lower_bound; [lia |].
    unfold N0.
    assert (Hs : 10 ^ shift = 10 ^ (ndigits nN) * 10 ^ 28 * 10 ^ (12 - ndigits c) * 10 / 10 ^ 12 \/ True) by (right; exact I).
    clear Hs.
    assert (Hsplit : 10 ^ (ndigits c - 1) * 10 ^ shift = 10 ^ ndigits nN * 10 ^ 28).
    { rewrite <- !Z.pow_add_r by lia. f_equal. unfold shift. lia. }
    assert (0 < 10 ^ shift) by (apply pow10Z_pos; lia).
    assert (0 < 10 ^ 28) by reflexivity.
    nia. }
  assert (H30 : N0 / n < 10 ^ 30).
  { apply Z.div_lt_upper_bound; [lia |].
    unfold N0.
    assert (Hsplit : 10 ^ ndigits c * 10 ^ shift = 10 ^ (ndigits nN - 1) * 10 ^ 30).
    { rewrite <- !Z.pow_add_r by lia. f_equal. unfold shift. lia. }
    assert (0 < 10 ^ shift) by (apply pow10Z_pos; lia).
    assert (0 < 10 ^ 30) by reflexivity.
    nia. }
  pose proof (Z.div_mod N0 n ltac:(lia)) as Hdm.
  pose proof (Z.mod_pos_bound N0 n ltac:(lia)) as Hmb.
  assert (Hn14 : n < 10 ^ 14).
  { assert (2 ^ 31 < 10 ^ 14) by reflexivity. lia. }
  destruct (N.eqb_spec (num mod nN) 0) as [Hz | Hz].
  - (* exact quotient *)
    assert (Hz' : N0 mod n = 0) by lia.
    destruct (strip_to_ideal (Z.to_nat shift) (num / nN) (-2 - shift) (-2))
      as [coeff' exp'] eqn:Hstrip.
    apply strip_to_ideal_spec in Hstrip; [| lia].
    destruct Hstrip as [Hexp Hco].
    set (t := exp' - (-2 - shift)) in *.
    assert (Hco' : Z.of_N coeff' * 10 ^ t = N0 / n).
    { rewrite <- Hcoeff, <- Hco, N2Z.inj_mul, pow10_Z by (unfold t; lia). reflexivity. }
    assert (Ht0 : 0 < 10 ^ t) by (apply pow10Z_pos; unfold t; lia).
    assert (Hexact : n * Z.of_N coeff' = Z.of_N c * 10 ^ (-2 - exp')).
    { assert (Hs : 10 ^ shift = 10 ^ (-2 - exp') * 10 ^ t).
      { rewrite <- Z.pow_add_r by (unfold t; lia). f_equal. unfold t. lia. }
      assert (n * (Z.of_N coeff' * 10 ^ t) = Z.of_N c * (10 ^ (-2 - exp') * 10 ^ t)).
      { rewrite Hco', <- Hs. fold N0. lia. }
      nia. }
    assert (Hcnz : coeff' <> 0%N).
    { intros ->. cbn in Hco'. lia. }
    destruct (Z.le_gt_cases (ndigits coeff') 28) as [Hfit | Hbig].
    + exists coeff', (-2 - exp').
      split.
      { rewrite fix_unchanged; [f_equal; f_equal; lia | exact Hcnz | exact Hfit |].
        unfold Etiny, Etop, Emin, Emax. lia. }
      split; [lia |]. split; [exact Hcnz |]. left. exact Hexact.
    + (* the exact quotient has more than 28 digits and is rounded *)
      assert (Hc30 : ndigits coeff' <= 30).
      { apply ndigits_le; [lia | | exact Hcnz].
        apply N2Z.inj_lt. rewrite pow10_Z by lia. 
        assert (1 <= 10 ^ t) by lia. nia. }
      assert (Hc28 : 10 ^ 28 <= Z.of_N coeff').
      { pose proof (ndigits_gt_pow coeff' 28 Hcnz Hbig) as H.
        apply N2Z.inj_le in H. rewrite pow10_Z in H by lia. exact H. }
      assert (Ht1 : t <= 1).
      { destruct (Z.le_gt_cases t 1) as [| Hgt]; [assumption | exfalso].
        assert (10 ^ 2 <= 10 ^ t) by (apply pow10Z_le_mono; lia).
        assert (10 ^ 30 = 10 ^ 28 * 10 ^ 2) by reflexivity.
        nia. }
      destruct (fix_round_close s coeff' exp' n (n * Z.of_N coeff'))
        as (cy & j & Hfix & Hj & Hcy & Hclose);
        [lia | nia | left; reflexivity | lia | lia |].
      exists cy, (-2 - exp' - j).
      split; [rewrite Hfix; f_equal; f_equal; lia |].
      split; [unfold t in *; lia |].
      split; [assert (0 < 10 ^ 27) by reflexivity; lia |].
      right. split; [unfold t in *; lia |].
      rewrite Hexact in Hclose.
      rewrite (pow10Z_split (-2 - exp') j) in Hclose by (unfold t in *; lia).
      assert (0 < 10 ^ j) by (apply pow10Z_pos; lia).
      nia.
  - (* inexact quotient: the sticky digit *)
    assert (Hz' : N0 mod n <> 0) by lia.
    set (coeff := (num / nN)%N) in *.
    set (coeff_s := if (coeff mod 5 =? 0)%N then (coeff + 1)%N else coeff).
    assert (Hmod5 : Z.of_N (coeff mod 5) = (N0 / n) mod 5).
    { rewrite N2Z.inj_mod, Hcoeff. reflexivity. }
    assert (Hs : Z.of_N coeff_s = N0 / n + (if (N0 / n) mod 5 =? 0 then 1 else 0)).
    { unfold coeff_s. destruct (N.eqb_spec (coeff mod 5) 0) as [H5 | H5].
      - replace ((N0 / n) mod 5 =? 0) with true by lia. lia.
      - replace ((N0 / n) mod 5 =? 0) with false by lia. lia. }
    assert (Hs28 : 10 ^ 28 <= Z.of_N coeff_s).
    { rewrite Hs. destruct ((N0 / n) mod 5 =? 0); lia. }
    assert (Hs30 : Z.of_N coeff_s < 10 ^ 30).
    { rewrite Hs. destruct ((N0 / n) mod 5 =? 0) eqn:H5; [| lia].
      apply Z.eqb_eq in H5.
      assert (He30 : 10 ^ 30 = 5 * (2 * 10 ^ 29)) by (vm_compute; reflexivity).
      rewrite He30 in H30 |- *.
      set (w := 2 * 10 ^ 29) in *. set (x := N0 / n) in *.
      clearbody w x. clear - H30 H5. Z.to_euclidean_division_equations. lia. }
    assert (Hsnz : coeff_s <> 0%N) by (assert (0 < 10 ^ 28) by reflexivity; lia).
    destruct (fix_round_close s coeff_s (-2 - shift) n N0)
      as (cy & j & Hfix & Hj & Hcy & Hclose); [lia | exact HN0pos | | | lia |].
    { right. split; [exact Hz' | exact Hs]. }
    { split.
      - apply ndigits_ge; [| lia]. apply N2Z.inj_le. rewrite pow10_Z by lia. exact Hs28.
      - apply ndigits_le; [lia | | exact Hsnz].
        apply N2Z.inj_lt. rewrite pow10_Z by lia. exact Hs30. }
    exists cy, (shift - j).
    split; [fold coeff_s; rewrite Hfix; f_equal; f_equal; lia |].
    split; [lia |].
    split; [assert (0 < 10 ^ 27) by reflexivity; lia |].
    right. split; [lia |].
    unfold N0 in Hclose. rewrite (pow10Z_split shift j) in Hclose by lia.
    assert (0 < 10 ^ j) by (apply pow10Z_pos; lia).
    nia.
Qed.

Lemma even_pow10 k : 0 < k -> Z.even (10 ^ k) = true.
Proof.
  intros Hk. replace k with ((k - 1) + 1) by lia.
  rewrite pow10Z_succ by lia. rewrite Z.even_mul. reflexivity.
Qed.

Lemma rne_div_le a n : 0 <= a -> 0 < n -> 0 <= PyFloat.rne_div a n <= a.
Proof.
  intros Ha Hn. apply rne_div_bounds; [exact Hn | exact Ha | nia].
Qed.

Lemma quantize_cents_exact s z :
  (z < 10 ^ 12)%N -> quantize_cents (mkdec s z (-2)) = Ok (mkdec s z (-2)).
Proof.
  intros Hz. unfold quantize_cents, quantize, quantize_, default_prec.
  change (d_exp Decimal_0_01) with (-2).
  change (negb ((Etiny 28 <=? -2) && (-2 <=? Emax))) with false. cbv iota.
  unfold is_zero. cbn [d_int d_exp d_sign].
  destruct (N.eqb_spec z 0) as [-> | Hnz]; [reflexivity |].
  assert (Hd : ndigits z <= 12) by (apply ndigits_le; [lia | exact Hz | exact Hnz]).
  pose proof (ndigits_pos z) as Hp.
  unfold Emax.
  replace (999999 <? ndigits z + -2 - 1) with false by lia.
  replace (28 <? ndigits z + -2 - 1 - -2 + 1) with false by lia.
  unfold rescale. cbn [d_int d_exp d_sign].
  change (-2 <=? -2) with true. cbv iota. cbn [d_int d_exp d_sign].
  change (pow10 (-2 - -2)) with 1%N. rewrite N.mul_1_r.
  replace (999999 <? ndigits z + -2 - 1) with false by lia.
  replace (28 <? ndigits z) with false by lia.
  apply fix_unchanged; [exact Hnz | lia | unfold Etiny, Etop, Emin, Emax; lia].
Qed.

Lemma quantize_close s cy k c n :
  0 < n < 2 ^ 31 -> 0 <= c < 10 ^ 12 -> 0 <= k <= 39 -> cy <> 0%N ->
  close_quotient c n (Z.of_N cy) k ->
  quantize_cents (mkdec s cy (-2 - k))
  = Ok (mkdec s (Z.to_N (PyFloat.rne_div c n)) (-2)).
Proof.
  intros Hn Hc Hk Hcy Hclose.
  assert (Hn14 : n < 10 ^ 14) by (assert (2 ^ 31 < 10 ^ 14) by reflexivity; lia).
  assert (HT : 0 < 10 ^ k) by (apply pow10Z_pos; lia).
  pose proof (rne_div_le c n ltac:(lia) ltac:(lia)) as Hz.
  pose proof (rne_div_nearest c n ltac:(lia)) as Hnear.
  (* the coefficient before quantizing is below 10^(k+13) *)
  assert (Hcyhi : Z.of_N cy < 10 ^ (k + 13)).
  { rewrite Z.pow_add_r by lia.
    assert (H13 : 10 ^ 13 = 10 * 10 ^ 12) by reflexivity.
    destruct Hclose as [Hex | [_ Hcl]]; nia. }
  assert (Hdcy : ndigits cy <= k + 13).
  { apply ndigits_le; [lia | | exact Hcy].
    apply N2Z.inj_lt. rewrite pow10_Z by lia. exact Hcyhi. }
  pose proof (ndigits_pos cy) as Hdcy1.
  destruct (Z.eq_dec k 0) as [-> | Hk0].
  - (* no digit below the cent: the quotient is exact *)
    assert (Hex : n * Z.of_N cy = c).
    { destruct Hclose as [Hex | [Hbad _]]; [| lia]. rewrite Z.pow_0_r in Hex. lia. }
    assert (Hzeq : PyFloat.rne_div c n = Z.of_N cy).
    { apply (nearest_even_unique c n); [lia | exact Hnear |].
      split; [nia |]. intros Habs. exfalso. nia. }
    rewrite Hzeq, N2Z.id. replace (-2 - 0) with (-2) by lia.
    apply quantize_cents_exact.
    apply N2Z.inj_lt. change (Z.of_N (10 ^ 12)) with (10 ^ 12). nia.
  - assert (Hkpos : 0 < k) by lia.
    (* what the rescaling step computes *)
    set (z := round_to cy (-2 - k) (-2)).
    assert (Hzn : nearest_even (Z.of_N cy) (10 ^ k) (Z.of_N z)).
    { unfold z, round_to.
      destruct (Z.ltb_spec (ndigits cy + (-2 - k) - -2) 0) as [Hsmall | Hbig].
      - change (round_half_even 1 1) with 0%N.
        pose proof (ndigits_lt_pow cy (k - 1) ltac:(lia) ltac:(lia)) as Hlt.
        apply N2Z.inj_lt in Hlt. rewrite pow10_Z in Hlt by lia.
        assert (Hs : 10 ^ k = 10 * 10 ^ (k - 1)).
        { rewrite <- pow10Z_succ by lia. f_equal. lia. }
        split; [cbn [Z.of_N]; lia |].
        intros _. reflexivity.
      - replace (-2 - (-2 - k)) with k by lia.
        rewrite <- pow10_Z by lia. apply round_half_even_nearest. lia. }
    assert (Hzc : nearest_even c n (Z.of_N z)).
    { destruct Hclose as [Hex | [Hk14 Hcl]].
      - apply (exact_rounding c n (Z.of_N cy) (10 ^ k)); [lia | exact HT | exact Hex | exact Hzn].
      - apply (double_rounding c n (Z.of_N cy) (10 ^ k)); [lia | | | exact Hcl | exact Hzn].
        + assert (10 ^ 14 <= 10 ^ k) by (apply pow10Z_le_mono; lia). lia.
        + apply even_pow10. lia. }
    assert (Hzeq : PyFloat.rne_div c n = Z.of_N z).
    { apply (nearest_even_unique c n); [lia | exact Hnear | exact Hzc]. }
    rewrite Hzeq, N2Z.id.
    assert (Hz12 : (z < 10 ^ 12)%N).
    { apply N2Z.inj_lt. change (Z.of_N (10 ^ 12)) with (10 ^ 12). lia. }
    unfold quantize_cents, quantize, quantize_, default_prec.
    change (d_exp Decimal_0_01) with (-2).
    change (negb ((Etiny 28 <=? -2) && (-2 <=? Emax))) with false. cbv iota.
    unfold is_zero. cbn [d_int d_exp d_sign].
    rewrite (proj2 (N.eqb_neq cy 0) Hcy).
    unfold Emax.
    replace (999999 <? ndigits cy + (-2 - k) - 1) with false by lia.
    replace (28 <? ndigits cy + (-2 - k) - 1 - -2 + 1) with false by lia.
    unfold rescale. cbn [d_int d_exp d_sign].
    replace (-2 <=? -2 - k) with false by lia.
    cbn [d_int d_exp d_sign]. fold z.
    destruct (N.eq_dec z 0) as [Hz0 | Hz0].
    + rewrite Hz0. reflexivity.
    + assert (Hdz : ndigits z <= 12) by (apply ndigits_le; [lia | exact Hz12 | exact Hz0]).
      pose proof (ndigits_pos z).
      replace (999999 <? ndigits z + -2 - 1) with false by lia.
      replace (28 <? ndigits z) with false by lia.
      apply fix_unchanged; [exact Hz0 | lia | unfold Etiny, Etop, Emin, Emax; lia].
Qed.

Lemma div_zero_amount s n :
  0 < n ->
  div (mkdec s 0 (-2)) (of_int n) = Ok (mkdec s 0 (-2)).
Proof.
  intros Hn. unfold div, div_, default_prec, of_int. cbn [d_sign d_int d_exp].
  replace (n <? 0) with false by lia. rewrite xorb_false_r.
  assert (HnN0 : Z.abs_N n <> 0%N) by lia.
  rewrite (proj2 (N.eqb_neq _ 0) HnN0). cbn [N.eqb].
  reflexivity.
Qed.

Lemma zero_rate_installment principal rate n :
  eqb rate (of_int 0) = true -> 0 < n < 2 ^ 31 ->
  d_exp principal = -2 -> (d_int principal < 10 ^ 12)%N ->
  calculate_monthly_installment principal rate n = Ok (cents_quotient principal n).
Proof.
  intros Hrate Hn He Hc. unfold calculate_monthly_installment.
  rewrite Hrate. replace (n =? 0) with false by lia.
  destruct principal as [s c e]. cbn [d_sign d_int d_exp] in *. subst e.
  unfold cents_quotient. cbn [d_sign d_int d_exp].
  destruct (N.eq_dec c 0) as [-> | Hc0].
  - rewrite div_zero_amount by lia. cbn [bind].
    replace (PyFloat.rne_div (Z.of_N 0) n) with 0.
    + apply quantize_cents_exact. reflexivity.
    + unfold PyFloat.rne_div. cbn [Z.of_N]. rewrite Z.div_0_l, Zmod_0_l by lia.
      replace (2 * 0 <? n) with true by lia. reflexivity.
  - destruct (div_amount s c n Hc0 Hc Hn) as (cy & k & Hdiv & Hk & Hcy & Hclose).
    rewrite Hdiv. cbn [bind].
    apply quantize_close; try assumption.
    split; [lia |]. apply N2Z.inj_lt in Hc. exact Hc.
Qed.

End DivisionFacts.

(** ** The two gates, by value *)

Section GateFacts.

(** Comparing an amount in cents with an [int]. *)
Lemma gtb_cents_int x L :
  gtb (mkdec false x (-2)) (of_int L) = (100 * L <? Z.of_N x).
Proof.
  unfold gtb, compare, scaled, of_int. cbn [d_sign d_int d_exp].
  change (Z.min (-2) 0) with (-2).
  change (pow10 (-2 - -2)) with 1%N. change (pow10 (0 - -2)) with 100%N.
  rewrite N.mul_1_r.
  assert (Hs : (if L <? 0 then - Z.of_N (Z.abs_N L * 100) else Z.of_N (Z.abs_N L * 100))
               = 100 * L).
  { rewrite N2Z.inj_mul, N2Z.inj_abs_N. change (Z.of_N 100) with 100.
    destruct (Z.ltb_spec L 0); lia. }
  rewrite Hs.
  destruct (Z.compare_spec (Z.of_N x) (100 * L)); destruct (Z.ltb_spec (100 * L) (Z.of_N x));
    try reflexivity; lia.
Qed.

(** Comparing an amount in cents with a value that has [k] digits more. *)
Lemma gtb_cents_finer x cy k :
  0 <= k ->
  gtb (mkdec false x (-2)) (mkdec false cy (-2 - k)) = (Z.of_N cy <? Z.of_N x * 10 ^ k).
Proof.
  intros Hk. unfold gtb, compare, scaled. cbn [d_sign d_int d_exp].
  replace (Z.min (-2) (-2 - k)) with (-2 - k) by lia.
  replace (-2 - (-2 - k)) with k by lia.
  rewrite Z.sub_diag. change (pow10 0) with 1%N. rewrite N.mul_1_r.
  rewrite N2Z.inj_mul, pow10_Z by lia.
  destruct (Z.compare_spec (Z.of_N x * 10 ^ k) (Z.of_N cy));
    destruct (Z.ltb_spec (Z.of_N cy) (Z.of_N x * 10 ^ k)); try reflexivity; lia.
Qed.

(** Half of a salary is computed exactly. *)
Lemma half_salary c :
  (c < 10 ^ 12)%N ->
  exists cy k,
    div (mkdec false c (-2)) (of_int 2) = Ok (mkdec false cy (-2 - k))
    /\ 0 <= k /\ 2 * Z.of_N cy = Z.of_N c * 10 ^ k.
Proof.
  intros Hc. destruct (N.eq_dec c 0) as [-> | Hc0].
  - exists 0%N, 0. split; [apply div_zero_amount; lia |]. split; [lia | reflexivity].
  - destruct (div_amount false c 2 Hc0 Hc ltac:(split; [lia | reflexivity]))
      as (cy & k & Hdiv & Hk & _ & Hclose).
    exists cy, k. split; [exact Hdiv |]. split; [lia |].
    destruct Hclose as [Hex | [Hk14 Hcl]]; [exact Hex |].
    pose proof (even_pow10 k ltac:(lia)) as Hev.
    apply Z.even_spec in Hev. destruct Hev as [h Hh]. rewrite Hh in *. lia.
Qed.

Lemma salary_gate_by_value salary emi :
  amount_field salary -> amount_field emi ->
  exists salary_limit,
    div salary (of_int 2) = Ok salary_limit
    /\ gtb emi salary_limit = (Z.of_N (d_int salary) <? 2 * Z.of_N (d_int emi)).
Proof.
  intros (Hs1 & Hs2 & Hs3) (He1 & He2 & He3).
  destruct salary as [ss cs es]. destruct emi as [se ce ee].
  cbn [d_sign d_int d_exp] in *. subst ss es se ee.
  destruct (half_salary cs Hs3) as (cy & k & Hdiv & Hk & Hex).
  exists (mkdec false cy (-2 - k)). split; [exact Hdiv |].
  rewrite gtb_cents_finer by lia.
  assert (HT : 0 < 10 ^ k) by (apply pow10Z_pos; lia).
  destruct (Z.ltb_spec (Z.of_N cy) (Z.of_N ce * 10 ^ k));
    destruct (Z.ltb_spec (Z.of_N cs) (2 * Z.of_N ce)); try reflexivity; nia.
Qed.

Lemma exposure_by_value debt amount limit :
  amount_field debt -> amount_field amount ->
  exists exposure,
    add debt amount = Ok exposure
    /\ gtb exposure (of_int limit) = (100 * limit <? Z.of_N (d_int debt) + Z.of_N (d_int amount)).
Proof.
  intros (Hs1 & Hs2 & Hs3) (He1 & He2 & He3).
  destruct debt as [sd cd ed]. destruct amount as [sa ca ea].
  cbn [d_sign d_int d_exp] in *. subst sd ed sa ea.
  exists (mkdec false (cd + ca) (-2)). split.
  - apply add_same_exponent; [| unfold Etiny, Etop, Emin, Emax; lia].
    assert (H : (10 ^ 12 * 10 ^ 16 = pow10 28)%N) by reflexivity. lia.
  - rewrite gtb_cents_int, N2Z.inj_add. reflexivity.
Qed.

End GateFacts.

(** ** The scoring loop *)

Section ScoringFacts.

Lemma on_time_points_bounded paid due :
  0 <= paid <= due -> 0 < due ->
  exists pts, on_time_points paid due = Ok pts /\ 0 <= pts <= 40.
Proof.
  intros Hp Hd. unfold on_time_points.
  assert (H1 : 0 < 1 < 2 ^ 53) by (split; [lia | apply Z.pow_gt_1; lia]).
  destruct (int_truediv_bounded paid due 1 ltac:(lia) Hd H1 ltac:(lia))
    as (m & e & Hr & He & Hm).
  rewrite Hr. cbn [bind]. rewrite of_int_weight. cbn [bind].
  destruct (mul_weight_bounded m e He ltac:(lia)) as (m' & e' & Hr' & He' & Hm').
  rewrite Hr'. apply round_bounded; assumption.
Qed.

Lemma paid_under_half_returns paid expected :
  0 <= paid < 2 ^ 31 -> 0 < expected ->
  exists b, paid_under_half paid expected = Ok b.
Proof.
  intros Hp He. unfold paid_under_half.
  assert (H1 : 0 < 2 ^ 31 < 2 ^ 53)
    by (split; [reflexivity | apply Z.pow_lt_mono_r; lia]).
  destruct (int_truediv_bounded paid expected (2 ^ 31) ltac:(lia) He H1 ltac:(nia))
    as (m & e & Hr & _).
  rewrite Hr. cbn [bind]. eexists. reflexivity.
Qed.

Lemma aggregates_init_ok : aggregates_ok aggregates_init.
Proof. unfold aggregates_ok. cbn. lia. Qed.

Lemma history_paid ls :
  Forall history_precondition ls -> Forall paid_within_tenure ls.
Proof. apply Forall_impl. intros l [H _]. exact H. Qed.

Lemma aggregate_loan_ok today st loan st' :
  aggregate_loan today st loan = Ok st' ->
  paid_within_tenure loan -> aggregates_ok st -> aggregates_ok st'.
Proof.
  unfold aggregate_loan, paid_within_tenure, aggregates_ok.
  intros H Hl [Hp Hc].
  apply bind_ok in H. destruct H as (volume & _ & H).
  assert (Hclosed : 0 <= (if date_leb (end_date loan) today
                          then total_closed_loans st + 1 else total_closed_loans st))
    by (destruct (date_leb (end_date loan) today); lia).
  destruct (year (start_date loan) =? year today).
  - destruct (0 <? _).
    + apply bind_ok in H. destruct H as (under & _ & H).
      apply Ok_inj in H. subst st'. cbn. lia.
    + apply Ok_inj in H. subst st'. cbn. lia.
  - apply Ok_inj in H. subst st'. cbn. lia.
Qed.

Lemma aggregate_loans_ok today ls : forall st st',
  aggregate_loans today st ls = Ok st' ->
  Forall paid_within_tenure ls -> aggregates_ok st -> aggregates_ok st'.
Proof.
  induction ls as [| loan rest IH]; intros st st' H Hall Hst; cbn in H.
  - apply Ok_inj in H. subst st'. exact Hst.
  - apply bind_ok in H. destruct H as (st1 & H1 & H2).
    inversion Hall as [| ? ? Hl Hrest]; subst.
    eapply IH; eauto using aggregate_loan_ok.
Qed.

Lemma score_from_aggregates_range st score :
  aggregates_ok st -> score_from_aggregates st = Ok score -> 10 <= score <= 100.
Proof.
  intros [Hp Hc] H. unfold score_from_aggregates in H.
  apply bind_ok in H. destruct H as (base & Hbase & H).
  apply Ok_inj in H.
  assert (Hb : 10 <= base).
  { destruct (0 <? total_emis_due st) eqn:Hd.
    - apply bind_ok in Hbase. destruct Hbase as (pts & Hpts & Hbase).
      apply Ok_inj in Hbase.
      destruct (on_time_points_bounded (total_emis_paid st) (total_emis_due st))
        as (pts' & Hpts' & Hrange); [lia | lia |].
      rewrite Hpts' in Hpts. apply Ok_inj in Hpts.
      unfold SCORE_WEIGHTS.limit_check in Hbase. lia.
    - apply Ok_inj in Hbase. unfold SCORE_WEIGHTS.limit_check in Hbase. lia. }
  unfold SCORE_WEIGHTS.loan_volume, SCORE_WEIGHTS.approved_volume,
    SCORE_WEIGHTS.activity in H.
  repeat match type of H with
         | context [if ?b then _ else _] => destruct b
         end; lia.
Qed.

Lemma score_from_aggregates_returns st :
  aggregates_ok st -> exists score, score_from_aggregates st = Ok score.
Proof.
  intros [Hp Hc]. unfold score_from_aggregates.
  destruct (0 <? total_emis_due st) eqn:Hd.
  - destruct (on_time_points_bounded (total_emis_paid st) (total_emis_due st))
      as (pts & Hpts & _); [lia | lia |].
    rewrite Hpts. cbn [bind]. eexists. reflexivity.
  - cbn [bind]. eexists. reflexivity.
Qed.

Lemma aggregate_loans_returns today ls : forall st v,
  volume_is (total_approved_volume st) v ->
  (v + N.of_nat (List.length ls) * 10 ^ 12 < pow10 28)%N ->
  Forall model_loan ls -> Forall paid_within_tenure ls ->
  exists st', aggregate_loans today st ls = Ok st'.
Proof.
  induction ls as [| loan rest IH]; intros st v Hv Hsum Hm Hp; cbn [aggregate_loans].
  - eexists. reflexivity.
  - inversion Hm as [| ? ? [(Hs & He & Hc) H31] Hmrest]; subst.
    inversion Hp as [| ? ? Hpl Hprest]; subst.
    cbn [List.length] in Hsum. rewrite Nat2N.inj_succ in Hsum.
    unfold aggregate_loan.
    destruct (loan_amount loan) as [s c e]. cbn in Hs, He, Hc. subst s e.
    rewrite (add_volume _ v c Hv) by lia.
    cbn [bind].
    assert (Hnext : forall closed d paid due,
              exists st', aggregate_loans today
                (mkAgg paid due closed (mkdec false (v + c) (-2)) d) rest = Ok st').
    { intros. eapply IH; [left; reflexivity | lia | assumption | assumption]. }
    destruct (year (start_date loan) =? year today); [| apply Hnext].
    destruct (0 <? _) eqn:Hexp; [| apply Hnext].
    unfold paid_within_tenure in Hpl.
    destruct (paid_under_half_returns (emis_paid_on_time loan)
                ((year today - year (start_date loan)) * 12
                 + (month today - month (start_date loan)))) as (b & Hb); [lia | lia |].
    rewrite Hb. cbn [bind]. apply Hnext.
Qed.

(** On values as the tables hold them the score is always returned. *)
Lemma score_returns_on_model_fields today customer amount :
  Forall paid_within_tenure (loans customer) -> model_fields customer amount ->
  exists score, calculate_credit_score today customer amount = Ok score.
Proof.
  intros Hhist (Hdebt & Hamt & Hloans & Hlen).
  unfold calculate_credit_score.
  destruct (exposure_by_value (current_debt customer) amount (approved_limit customer)
              Hdebt Hamt) as (exposure & Hadd & _).
  rewrite Hadd. cbn [bind]. destruct (gtb _ _); [eexists; reflexivity |].
  destruct (aggregate_loans_returns today (loans customer) aggregates_init 0%N)
    as (st & Hst); [right; split; reflexivity | | assumption | assumption |].
  { assert (N.of_nat (List.length (loans customer)) <= 2 ^ 32)%N.
    { change (2 ^ 32)%N with (Z.to_N (2 ^ 32)). lia. }
    assert (2 ^ 32 < 10 ^ 16)%N by reflexivity.
    assert (H1012 : (10 ^ 12 * 10 ^ 16 = pow10 28)%N) by reflexivity.
    nia. }
  rewrite Hst. cbn [bind].
  apply score_from_aggregates_returns.
  eapply aggregate_loans_ok; eauto using aggregates_init_ok.
Qed.

End ScoringFacts.

(** ** The installment formula *)

Section InstallmentFacts.









End InstallmentFacts.

(** ** The salary gate and the tiers *)

Section EligibilityFacts.

Lemma score_from_aggregates_init : score_from_aggregates aggregates_init = Ok 25.
Proof. vm_compute. reflexivity. Qed.

(** What the call reduces to when the salary gate rejects. *)
Lemma salary_gate_rejects :
  forall today customer amount rate tenure salary_limit,
    div (monthly_salary customer) (of_int 2) = Ok salary_limit ->
    gtb (total_current_emi customer) salary_limit = true ->
    check_loan_eligibility today customer amount rate tenure =
      (score <- calculate_credit_score today customer amount ;;
       Ok (mkElig false None rate None (of_int 0) score msg_salary)).
Proof.
  intros today customer amount rate tenure salary_limit Hdiv Hgt.
  unfold check_loan_eligibility.
  destruct (calculate_credit_score today customer amount) as [score | e];
    cbn [bind]; [| reflexivity].
  rewrite Hdiv. cbn [bind]. rewrite Hgt. reflexivity.
Qed.

(** What the call reduces to when the salary gate lets it through:
    the tier of the score fixes the approval and the minimum rate. *)
Lemma salary_gate_passes :
  forall today customer amount rate tenure score salary_limit,
    calculate_credit_score today customer amount = Ok score ->
    div (monthly_salary customer) (of_int 2) = Ok salary_limit ->
    gtb (total_current_emi customer) salary_limit = false ->
    check_loan_eligibility today customer amount rate tenure =
      if 10 <? score then
        let min_rate :=
          if 50 <? score then of_int 0
          else if 30 <? score then MIN_INTEREST_RATES.tier_2
          else MIN_INTEREST_RATES.tier_3 in
        emi <- calculate_monthly_installment amount (decimal_max rate min_rate) tenure ;;
        Ok (approved_at rate (decimal_max rate min_rate) tenure score emi)
      else
        Ok (mkElig false (Some rate) rate (Some tenure) (of_int 0) score msg_low_score).
Proof.
  intros today customer amount rate tenure score salary_limit Hscore Hdiv Hgt.
  unfold check_loan_eligibility.
  rewrite Hscore. cbn [bind]. rewrite Hdiv. cbn [bind]. rewrite Hgt.
  unfold decimal_max, approved_at.
  destruct (50 <? score) eqn:H50.
  - assert (H10 : (10 <? score) = true) by lia. rewrite H10.
    cbn [andb]. reflexivity.
  - destruct (30 <? score) eqn:H30.
    + assert (H10 : (10 <? score) = true) by lia. rewrite H10.
      assert (Hle : (score <=? 50) = true) by lia. rewrite Hle.
      cbn [andb]. reflexivity.
    + cbn [andb]. destruct (10 <? score) eqn:H10.
      * assert (Hle : (score <=? 30) = true) by lia. rewrite Hle.
        cbn [andb]. reflexivity.
      * cbn [andb bind]. reflexivity.
Qed.

End EligibilityFacts.

(** ** The claims *)

(** C1.  Whenever the Decimal sum [current_debt + requested_loan_amount]
    compares strictly greater than [approved_limit], the score is 0,
    whatever the loan history of the customer.  On amounts of the data
    model the Decimal sum is the exact sum: the score is 0 as soon as the
    two amounts add up to more than the limit. *)
Theorem C1_debt_limit_gate_scores_zero :
  forall today customer amount,
    (forall exposure,
        add (current_debt customer) amount = Ok exposure ->
        gtb exposure (of_int (approved_limit customer)) = true ->
        calculate_credit_score today customer amount = Ok 0)
    /\ (amount_field (current_debt customer) -> amount_field amount ->
        100 * approved_limit customer
          < Z.of_N (d_int (current_debt customer)) + Z.of_N (d_int amount) ->
        calculate_credit_score today customer amount = Ok 0).
Proof.
  intros today customer amount.
  assert (Hgate : forall exposure,
             add (current_debt customer) amount = Ok exposure ->
             gtb exposure (of_int (approved_limit customer)) = true ->
             calculate_credit_score today customer amount = Ok 0).
  { intros exposure Hadd Hgt. unfold calculate_credit_score.
    rewrite Hadd. cbn [bind]. rewrite Hgt. reflexivity. }
  split; [exact Hgate |].
  intros Hdebt Hamt Hover.
  destruct (exposure_by_value (current_debt customer) amount (approved_limit customer)
              Hdebt Hamt) as (exposure & Hadd & Hgt).
  apply (Hgate exposure Hadd). rewrite Hgt. lia.
Qed.

Lemma C1_witness :
  add (current_debt (sample_customer 1800000 170000000 0 sample_loans)) (cents 10000001)
    = Ok (cents 180000001)
  /\ gtb (cents 180000001) (of_int 1800000) = true
  /\ 100 * 1800000 < 170000000 + 10000001
  /\ calculate_credit_score sample_today
       (sample_customer 1800000 170000000 0 sample_loans) (cents 10000001) = Ok 0.
Proof.
  split; [vm_compute; reflexivity |].
  split; [vm_compute; reflexivity |].
  split; [lia |].
  apply (proj1 (C1_debt_limit_gate_scores_zero sample_today
                  (sample_customer 1800000 170000000 0 sample_loans)
                  (cents 10000001)) (cents 180000001));
    vm_compute; reflexivity.
Defined.

(** C2.  When the current total EMI compares strictly greater than
    half the monthly salary, the decision is a rejection with a zero
    installment and the requested rate as corrected rate, whatever the
    score, the amount, the rate and the tenure are.  On values of the
    data model half the salary is computed exactly and the score is
    always returned: the rejection follows as soon as twice the EMI
    exceeds the salary. *)
Theorem C2_salary_gate_rejects_any_score :
  forall today customer amount rate tenure,
    let rejected :=
      exists decision,
        check_loan_eligibility today customer amount rate tenure = Ok decision
        /\ approval decision = false
        /\ res_monthly_installment decision = Decimal_0
        /\ corrected_interest_rate decision = rate in
    (forall score salary_limit,
        calculate_credit_score today customer amount = Ok score ->
        div (monthly_salary customer) (of_int 2) = Ok salary_limit ->
        gtb (total_current_emi customer) salary_limit = true ->
        rejected)
    /\ (model_fields customer amount ->
        Forall paid_within_tenure (loans customer) ->
        amount_field (monthly_salary customer) ->
        amount_field (total_current_emi customer) ->
        Z.of_N (d_int (monthly_salary customer))
          < 2 * Z.of_N (d_int (total_current_emi customer)) ->
        rejected).
Proof.
  intros today customer amount rate tenure rejected.
  assert (Hrej : forall score salary_limit,
             calculate_credit_score today customer amount = Ok score ->
             div (monthly_salary customer) (of_int 2) = Ok salary_limit ->
             gtb (total_current_emi customer) salary_limit = true ->
             rejected).
  { intros score salary_limit Hscore Hdiv Hgt. unfold rejected.
    rewrite (salary_gate_rejects today customer amount rate tenure salary_limit Hdiv Hgt).
    rewrite Hscore. cbn [bind].
    eexists. split; [reflexivity |]. cbn. repeat split; reflexivity. }
  split; [exact Hrej |].
  intros Hmodel Hhist Hsalary Hemi Hover.
  destruct (score_returns_on_model_fields today customer amount Hhist Hmodel)
    as (score & Hscore).
  destruct (salary_gate_by_value (monthly_salary customer) (total_current_emi customer)
              Hsalary Hemi) as (salary_limit & Hdiv & Hgt).
  apply (Hrej score salary_limit Hscore Hdiv). rewrite Hgt. lia.
Qed.

Lemma C2_witness :
  calculate_credit_score sample_today
    (sample_customer 1800000 0 3000000 sample_loans) (cents 10000000) = Ok 51
  /\ div (monthly_salary (sample_customer 1800000 0 3000000 sample_loans)) (of_int 2)
       = Ok (cents 2500000)
  /\ gtb (total_current_emi (sample_customer 1800000 0 3000000 sample_loans))
       (cents 2500000) = true
  /\ exists decision,
       check_loan_eligibility sample_today
         (sample_customer 1800000 0 3000000 sample_loans) (cents 10000000) (cents 1000) 12
       = Ok decision
       /\ approval decision = false
       /\ res_monthly_installment decision = Decimal_0
       /\ corrected_interest_rate decision = cents 1000.
Proof.
  split; [vm_compute; reflexivity |].
  split; [vm_compute; reflexivity |].
  split; [vm_compute; reflexivity |].
  apply (proj1 (C2_salary_gate_rejects_any_score sample_today
                  (sample_customer 1800000 0 3000000 sample_loans)
                  (cents 10000000) (cents 1000) 12) 51 (cents 2500000));
    vm_compute; reflexivity.
Defined.




(** C4.  For a profile and a history that meet the preconditions of the
    data model, a returned score lies between 0 and 100; and on values
    as the tables hold them the score is returned (no exception). *)
Theorem C4_score_between_0_and_100 :
  forall today customer amount,
    profile_precondition customer ->
    (forall score,
        calculate_credit_score today customer amount = Ok score ->
        0 <= score <= 100)
    /\ (model_fields customer amount ->
        exists score, calculate_credit_score today customer amount = Ok score).
Proof.
  intros today customer amount [_ Hhist].
  apply history_paid in Hhist.
  split.
  - intros score H. unfold calculate_credit_score in H.
    apply bind_ok in H. destruct H as (exposure & _ & H).
    destruct (gtb exposure _).
    + apply Ok_inj in H. lia.
    + apply bind_ok in H. destruct H as (st & Hst & H).
      assert (Hok : aggregates_ok st)
        by (eapply aggregate_loans_ok; eauto using aggregates_init_ok).
      pose proof (score_from_aggregates_range st score Hok H). lia.
  - intros Hmodel.
    exact (score_returns_on_model_fields today customer amount Hhist Hmodel).
Qed.

Lemma C4_witness :
  profile_precondition (sample_customer 1800000 0 0 sample_loans)
  /\ calculate_credit_score sample_today
       (sample_customer 1800000 0 0 sample_loans) (cents 10000000) = Ok 51
  /\ 0 <= 51 <= 100.
Proof.
  assert (Hpre : profile_precondition (sample_customer 1800000 0 0 sample_loans)).
  { split; [vm_compute; reflexivity |].
    repeat constructor; cbn; try lia; vm_compute; reflexivity. }
  split; [exact Hpre |].
  split; [vm_compute; reflexivity |].
  apply (proj1 (C4_score_between_0_and_100 sample_today
                  (sample_customer 1800000 0 0 sample_loans) (cents 10000000) Hpre)).
  vm_compute. reflexivity.
Defined.

(** C5.  With an empty loan history and the debt-to-limit gate not
    firing, the score is exactly 25: 10 for the limit check and 15 for
    the activity component, nothing from the other three.  On amounts of
    the data model the gate does not fire when the two amounts add up to
    at most the limit. *)
Theorem C5_empty_history_scores_25 :
  forall today customer amount,
    loans customer = [] ->
    (forall exposure,
        add (current_debt customer) amount = Ok exposure ->
        gtb exposure (of_int (approved_limit customer)) = false ->
        calculate_credit_score today customer amount = Ok 25)
    /\ (amount_field (current_debt customer) -> amount_field amount ->
        Z.of_N (d_int (current_debt customer)) + Z.of_N (d_int amount)
          <= 100 * approved_limit customer ->
        calculate_credit_score today customer amount = Ok 25).
Proof.
  intros today customer amount Hnil.
  assert (Hpass : forall exposure,
             add (current_debt customer) amount = Ok exposure ->
             gtb exposure (of_int (approved_limit customer)) = false ->
             calculate_credit_score today customer amount = Ok 25).
  { intros exposure Hadd Hgt. unfold calculate_credit_score.
    rewrite Hadd. cbn [bind]. rewrite Hgt, Hnil. cbn [aggregate_loans bind].
    apply score_from_aggregates_init. }
  split; [exact Hpass |].
  intros Hdebt Hamt Hle.
  destruct (exposure_by_value (current_debt customer) amount (approved_limit customer)
              Hdebt Hamt) as (exposure & Hadd & Hgt).
  apply (Hpass exposure Hadd). rewrite Hgt. lia.
Qed.

Lemma C5_witness :
  loans (sample_customer 1800000 0 0 []) = []
  /\ add (current_debt (sample_customer 1800000 0 0 [])) (cents 180000000)
       = Ok (cents 180000000)
  /\ gtb (cents 180000000) (of_int 1800000) = false
  /\ calculate_credit_score sample_today (sample_customer 1800000 0 0 [])
       (cents 180000000) = Ok 25.
Proof.
  split; [reflexivity |].
  split; [vm_compute; reflexivity |].
  split; [vm_compute; reflexivity |].
  apply (proj1 (C5_empty_history_scores_25 sample_today (sample_customer 1800000 0 0 [])
                  (cents 180000000) eq_refl) (cents 180000000));
    vm_compute; reflexivity.
Defined.

(** C6.  At rate 0 a tenure of 0 gives the installment 0, and any other
    tenure gives the Decimal quotient [principal / n] quantized to two
    places; for an amount of the data model (two decimals, at most 12
    digits) and a positive 32-bit tenure, that is exactly the quotient
    rounded half-even to whole cents: the 28-digit rounding of the
    division does not disturb the rounding to cents. *)
Theorem C6_zero_rate_installment :
  forall principal rate n,
    eqb rate (of_int 0) = true ->
    (n = 0 -> calculate_monthly_installment principal rate n = Ok Decimal_0)
    /\ (n <> 0 ->
        calculate_monthly_installment principal rate n
        = (q <- div principal (of_int n) ;; quantize_cents q))
    /\ (0 < n < 2 ^ 31 -> d_exp principal = -2 -> (d_int principal < 10 ^ 12)%N ->
        calculate_monthly_installment principal rate n
        = Ok (cents_quotient principal n)).
Proof.
  intros principal rate n Hrate. repeat split.
  - intros ->. unfold calculate_monthly_installment. rewrite Hrate. reflexivity.
  - intros Hn. unfold calculate_monthly_installment. rewrite Hrate.
    replace (n =? 0) with false by lia. reflexivity.
  - intros Hn He Hc. apply zero_rate_installment; assumption.
Qed.

Lemma C6_witness :
  eqb (cents 0) (of_int 0) = true
  /\ calculate_monthly_installment (cents 10000000) (cents 0) 12 = Ok (cents 833333)
  /\ calculate_monthly_installment (cents 5) (cents 0) 2 = Ok (cents 2)
  /\ calculate_monthly_installment (cents 10000000) (cents 0) 0 = Ok Decimal_0.
Proof.
  split; [vm_compute; reflexivity |].
  split.
  { rewrite (proj2 (proj2 (C6_zero_rate_installment (cents 10000000) (cents 0) 12
                             ltac:(vm_compute; reflexivity))));
      [vm_compute; reflexivity | lia | reflexivity | vm_compute; reflexivity]. }
  split.
  { rewrite (proj2 (proj2 (C6_zero_rate_installment (cents 5) (cents 0) 2
                             ltac:(vm_compute; reflexivity))));
      [vm_compute; reflexivity | lia | reflexivity | vm_compute; reflexivity]. }
  apply (proj1 (C6_zero_rate_installment (cents 10000000) (cents 0) 0
                  ltac:(vm_compute; reflexivity))).
  reflexivity.
Defined.

(** C7.  Principal 100000 at 12 percent a year over 12 months: the
    monthly rate is exactly 0.01, the compounding factor 1.01^12 is
    exact within 28 digits, and the installment is 8884.88. *)
Theorem C7_installment_100000_12_12 :
  div (of_int 12) (of_int 1200) = Ok (mkdec false 1 (-2))
  /\ pow (mkdec false 101 (-2)) 12 = Ok (mkdec false 1126825030131969720661201 (-24))
  /\ calculate_monthly_installment (of_int 100000) (of_int 12) 12 = Ok (cents 888488)
  /\ calculate_monthly_installment (cents 10000000) (cents 1200) 12 = Ok (cents 888488).
Proof. vm_compute. repeat split; reflexivity. Qed.






(** C10.  The credit score is computed before the salary gate is
    looked at: when the gate rejects, the call is exactly the score
    computation followed by the rejection that carries that score (and
    an exception raised by the score computation is raised by the
    call). *)
Theorem C10_salary_rejection_carries_score :
  forall today customer amount rate tenure salary_limit,
    div (monthly_salary customer) (of_int 2) = Ok salary_limit ->
    gtb (total_current_emi customer) salary_limit = true ->
    check_loan_eligibility today customer amount rate tenure =
      (score <- calculate_credit_score today customer amount ;;
       Ok (mkElig false None rate None (of_int 0) score msg_salary)).
Proof.
  intros today customer amount rate tenure salary_limit Hdiv Hgt.
  exact (salary_gate_rejects today customer amount rate tenure salary_limit Hdiv Hgt).
Qed.

Lemma C10_witness :
  div (monthly_salary (sample_customer 1800000 0 3000000 sample_loans)) (of_int 2)
    = Ok (cents 2500000)
  /\ gtb (total_current_emi (sample_customer 1800000 0 3000000 sample_loans))
       (cents 2500000) = true
  /\ check_loan_eligibility sample_today
       (sample_customer 1800000 0 3000000 sample_loans) (cents 10000000) (cents 1000) 12
     = Ok (mkElig false None (cents 1000) None (of_int 0) 51 msg_salary).
Proof.
  split; [vm_compute; reflexivity |].
  split; [vm_compute; reflexivity |].
  rewrite (C10_salary_rejection_carries_score sample_today
             (sample_customer 1800000 0 3000000 sample_loans)
             (cents 10000000) (cents 1000) 12 (cents 2500000));
    vm_compute; reflexivity.
Defined.

(** * Further properties of the code *)

(** ** Decisions of the engine, whatever the branch *)

Section DecisionFacts.

Lemma compare_antisym a b : compare b a = CompOpp (compare a b).
Proof.
  unfold compare. rewrite (Z.min_comm (d_exp b) (d_exp a)). apply Z.compare_antisym.
Qed.

Lemma ltb_irrefl a : ltb a a = false.
Proof. unfold ltb, compare. rewrite Z.compare_refl. reflexivity. Qed.

Lemma ltb_asym a b : ltb a b = true -> ltb b a = false.
Proof.
  unfold ltb. rewrite (compare_antisym a b).
  destruct (compare a b); cbn; congruence.
Qed.

(** The larger of two rates is below neither of them. *)
Lemma decimal_max_ge a b :
  ltb (decimal_max a b) a = false /\ ltb (decimal_max a b) b = false.
Proof.
  unfold decimal_max. destruct (ltb a b) eqn:H.
  - split; [apply ltb_asym; exact H | apply ltb_irrefl].
  - split; [apply ltb_irrefl | exact H].
Qed.

(** Every decision has one of three shapes. *)
Lemma decision_shapes today customer amount rate tenure decision :
  check_loan_eligibility today customer amount rate tenure = Ok decision ->
  exists score salary_limit,
    calculate_credit_score today customer amount = Ok score
    /\ div (monthly_salary customer) (of_int 2) = Ok salary_limit
    /\ ((gtb (total_current_emi customer) salary_limit = true
         /\ decision = mkElig false None rate None (of_int 0) score msg_salary)
        \/ (gtb (total_current_emi customer) salary_limit = false /\ score <= 10
            /\ decision = mkElig false (Some rate) rate (Some tenure) (of_int 0) score
                            msg_low_score)
        \/ (gtb (total_current_emi customer) salary_limit = false /\ 10 < score
            /\ exists min_rate emi,
                min_rate = (if 50 <? score then of_int 0
                            else if 30 <? score then MIN_INTEREST_RATES.tier_2
                            else MIN_INTEREST_RATES.tier_3)
                /\ calculate_monthly_installment amount (decimal_max rate min_rate) tenure
                   = Ok emi
                /\ decision = approved_at rate (decimal_max rate min_rate) tenure score emi)).
Proof.
  intros H.
  destruct (calculate_credit_score today customer amount) as [score | e] eqn:Hscore;
    [| unfold check_loan_eligibility in H; rewrite Hscore in H; discriminate].
  destruct (div (monthly_salary customer) (of_int 2)) as [salary_limit | e] eqn:Hdiv;
    [| unfold check_loan_eligibility in H; rewrite Hscore in H; cbn [bind] in H;
       rewrite Hdiv in H; discriminate].
  exists score, salary_limit. split; [reflexivity |]. split; [reflexivity |].
  destruct (gtb (total_current_emi customer) salary_limit) eqn:Hgate.
  - left. split; [reflexivity |].
    rewrite (salary_gate_rejects today customer amount rate tenure salary_limit Hdiv Hgate),
      Hscore in H.
    cbn [bind] in H. apply Ok_inj in H. symmetry. exact H.
  - right.
    rewrite (salary_gate_passes today customer amount rate tenure score salary_limit
               Hscore Hdiv Hgate) in H.
    destruct (Z.ltb_spec 10 score) as [Hhi | Hlo].
    + right. split; [reflexivity |]. split; [exact Hhi |].
      cbv zeta in H. apply bind_ok in H. destruct H as (emi & Hemi & H).
      apply Ok_inj in H. eexists. exists emi.
      split; [reflexivity |]. split; [exact Hemi |]. symmetry. exact H.
    + left. split; [reflexivity |]. split; [exact Hlo |].
      apply Ok_inj in H. symmetry. exact H.
Qed.

End DecisionFacts.

(** X1.  A rejection, by the salary gate or by the score, always carries
    the requested rate unchanged as corrected rate, the installment
    [Decimal(0)] and one of the two rejection messages. *)
Theorem X1_rejection_keeps_rate_and_zero_installment :
  forall today customer amount rate tenure decision,
    check_loan_eligibility today customer amount rate tenure = Ok decision ->
    approval decision = false ->
    corrected_interest_rate decision = rate
    /\ res_monthly_installment decision = Decimal_0
    /\ (message decision = msg_salary \/ message decision = msg_low_score).
Proof.
  intros today customer amount rate tenure decision H Hrej.
  destruct (decision_shapes today customer amount rate tenure decision H)
    as (score & salary_limit & _ & _ & [[_ ->] | [(_ & _ & ->) | (_ & _ & Happ)]]).
  - cbn. repeat split. left. reflexivity.
  - cbn. repeat split. right. reflexivity.
  - destruct Happ as (min_rate & emi & _ & _ & ->). cbn in Hrej. discriminate.
Qed.

Lemma X1_witness :
  check_loan_eligibility sample_today (sample_customer 1800000 0 3000000 sample_loans)
    (cents 10000000) (cents 1000) 12
  = Ok (mkElig false None (cents 1000) None (of_int 0) 51 msg_salary)
  /\ corrected_interest_rate (mkElig false None (cents 1000) None (of_int 0) 51 msg_salary)
     = cents 1000.
Proof.
  split; [vm_compute; reflexivity |].
  apply (X1_rejection_keeps_rate_and_zero_installment sample_today
           (sample_customer 1800000 0 3000000 sample_loans)
           (cents 10000000) (cents 1000) 12);
    vm_compute; reflexivity.
Defined.

(** X2.  An approval is only given to a score above 10 with the current
    EMIs not above half the salary; the corrected rate is never below the
    requested one, never below 12.0 for a score up to 50 and never below
    16.0 for a score up to 30; and the installment is the one computed
    at the corrected rate. *)
Theorem X2_approval_conditions :
  forall today customer amount rate tenure decision,
    check_loan_eligibility today customer amount rate tenure = Ok decision ->
    approval decision = true ->
    10 < credit_score decision
    /\ (exists salary_limit,
          div (monthly_salary customer) (of_int 2) = Ok salary_limit
          /\ gtb (total_current_emi customer) salary_limit = false)
    /\ ltb (corrected_interest_rate decision) rate = false
    /\ (credit_score decision <= 50 ->
        ltb (corrected_interest_rate decision) MIN_INTEREST_RATES.tier_2 = false)
    /\ (credit_score decision <= 30 ->
        ltb (corrected_interest_rate decision) MIN_INTEREST_RATES.tier_3 = false)
    /\ calculate_monthly_installment amount (corrected_interest_rate decision) tenure
       = Ok (res_monthly_installment decision)
    /\ res_interest_rate decision = Some rate
    /\ res_tenure decision = Some tenure.
Proof.
  intros today customer amount rate tenure decision H Happ.
  destruct (decision_shapes today customer amount rate tenure decision H)
    as (score & salary_limit & _ & Hdiv & [[_ ->] | [(_ & _ & ->) | (Hgate & Hhi & Hd)]]);
    [cbn in Happ; discriminate | cbn in Happ; discriminate |].
  destruct Hd as (min_rate & emi & Hmin & Hemi & ->).
  cbn [approved_at credit_score corrected_interest_rate res_monthly_installment
         res_interest_rate res_tenure].
  split; [exact Hhi |].
  split; [exists salary_limit; split; assumption |].
  destruct (decimal_max_ge rate min_rate) as [Hge_rate Hge_min].
  split; [exact Hge_rate |].
  split.
  { intros H50. rewrite (proj2 (Z.ltb_ge 50 score) H50) in Hmin.
    destruct (30 <? score) eqn:H30; [subst min_rate; exact Hge_min |].
    apply Z.ltb_ge in H30.
    subst min_rate. unfold decimal_max in *.
    destruct (ltb rate MIN_INTEREST_RATES.tier_3) eqn:Hlt; [reflexivity |].
    unfold ltb, compare in Hlt |- *.
    change (d_exp MIN_INTEREST_RATES.tier_2) with (-1).
    change (d_exp MIN_INTEREST_RATES.tier_3) with (-1) in Hlt.
    change (scaled MIN_INTEREST_RATES.tier_2 (Z.min (d_exp rate) (-1)))
      with (Z.of_N (120 * pow10 (-1 - Z.min (d_exp rate) (-1)))).
    change (scaled MIN_INTEREST_RATES.tier_3 (Z.min (d_exp rate) (-1)))
      with (Z.of_N (160 * pow10 (-1 - Z.min (d_exp rate) (-1)))) in Hlt.
    pose proof (pow10_pos (-1 - Z.min (d_exp rate) (-1))) as Hp.
    rewrite N2Z.inj_mul in Hlt |- *.
    set (P := Z.of_N (pow10 (-1 - Z.min (d_exp rate) (-1)))) in *.
    assert (HP : 0 < P) by (unfold P; lia).
    set (x := scaled rate (Z.min (d_exp rate) (-1))) in *.
    change (Z.of_N 160) with 160 in Hlt. change (Z.of_N 120) with 120.
    destruct (Z.compare_spec x (160 * P)); try discriminate;
      destruct (Z.compare_spec x (120 * P)); try reflexivity; lia. }
  split.
  { intros H30. rewrite (proj2 (Z.ltb_ge 50 score)) in Hmin by lia.
    rewrite (proj2 (Z.ltb_ge 30 score) H30) in Hmin. subst min_rate. exact Hge_min. }
  split; [exact Hemi |]. split; reflexivity.
Qed.

Lemma X2_witness :
  check_loan_eligibility sample_today (sample_customer 1800000 0 0 []) (cents 10000000)
    (cents 1000) 12
  = Ok (approved_at (cents 1000) MIN_INTEREST_RATES.tier_3 12 25 (cents 907309))
  /\ ltb MIN_INTEREST_RATES.tier_3 (cents 1000) = false
  /\ calculate_monthly_installment (cents 10000000) MIN_INTEREST_RATES.tier_3 12
     = Ok (cents 907309).
Proof.
  split; [vm_compute; reflexivity |].
  pose proof (X2_approval_conditions sample_today (sample_customer 1800000 0 0 [])
                (cents 10000000) (cents 1000) 12
                (approved_at (cents 1000) MIN_INTEREST_RATES.tier_3 12 25 (cents 907309))
                ltac:(vm_compute; reflexivity) eq_refl) as (_ & _ & Hrate & _ & _ & Hemi & _).
  split; [exact Hrate | exact Hemi].
Defined.

(** X3.  The [credit_score] of a decision is, in every branch, the
    value of [calculate_credit_score] for the same customer and amount;
    and an exception raised by the score computation is raised by the
    eligibility check. *)
Theorem X3_decision_carries_the_score :
  forall today customer amount rate tenure,
    (forall decision,
        check_loan_eligibility today customer amount rate tenure = Ok decision ->
        calculate_credit_score today customer amount = Ok (credit_score decision))
    /\ (forall e,
        calculate_credit_score today customer amount = Raise e ->
        check_loan_eligibility today customer amount rate tenure = Raise e).
Proof.
  intros today customer amount rate tenure. split.
  - intros decision H.
    destruct (decision_shapes today customer amount rate tenure decision H)
      as (score & salary_limit & Hscore & _ & [[_ ->] | [(_ & _ & ->) | (_ & _ & Hd)]]);
      try exact Hscore.
    destruct Hd as (min_rate & emi & _ & _ & ->). exact Hscore.
  - intros e He. unfold check_loan_eligibility. rewrite He. reflexivity.
Qed.

Lemma X3_witness :
  check_loan_eligibility sample_today (sample_customer 1800000 0 0 sample_loans)
    (cents 10000000) (cents 1000) 12
  = Ok (approved_at (cents 1000) (cents 1000) 12 51 (cents 879159))
  /\ calculate_credit_score sample_today (sample_customer 1800000 0 0 sample_loans)
       (cents 10000000) = Ok 51.
Proof.
  split; [vm_compute; reflexivity |].
  apply (proj1 (X3_decision_carries_the_score sample_today
                  (sample_customer 1800000 0 0 sample_loans) (cents 10000000)
                  (cents 1000) 12)
           (approved_at (cents 1000) (cents 1000) 12 51 (cents 879159))).
  vm_compute. reflexivity.
Defined.

(** ** The shape of an installment *)

Section QuantizeFacts.

(** A value that fits the precision keeps its exponent through [_fix]. *)
Lemma fix_keeps_exponent p s c e r :
  ndigits c <= p -> Etiny p <= e <= Emax ->
  fix_ p (mkdec s c e) = Ok r ->
  d_exp r = e /\ ndigits (d_int r) <= p.
Proof.
  intros Hd He H. unfold fix_ in H.
  destruct (N.eqb_spec c 0) as [-> | Hc].
  - apply Ok_inj in H. subst r. cbn [d_exp d_int]. split; [lia | exact Hd].
  - destruct (Etop p <? ndigits c + e - p); [discriminate |].
    destruct (Z.ltb_spec e (Z.max (ndigits c + e - p) (Etiny p))) as [Hlt | Hge]; [lia |].
    apply Ok_inj in H. subst r. cbn [d_exp d_int]. split; [reflexivity | exact Hd].
Qed.

Lemma quantize_cents_exponent q r :
  quantize_cents q = Ok r -> d_exp r = -2 /\ ndigits (d_int r) <= 28.
Proof.
  unfold quantize_cents, quantize, quantize_, default_prec.
  change (d_exp Decimal_0_01) with (-2).
  change (negb ((Etiny 28 <=? -2) && (-2 <=? Emax))) with false. cbv iota.
  assert (Hrange : Etiny 28 <= -2 <= Emax) by (unfold Etiny, Emin, Emax; lia).
  destruct (is_zero q).
  - intros H. eapply fix_keeps_exponent; [| exact Hrange | exact H].
    vm_compute. discriminate.
  - destruct (Emax <? ndigits (d_int q) + d_exp q - 1); [discriminate |].
    destruct (28 <? ndigits (d_int q) + d_exp q - 1 - -2 + 1); [discriminate |].
    destruct (Emax <? _); [discriminate |].
    destruct (Z.ltb_spec 28 (ndigits (d_int (rescale q (-2))))) as [| Hfit]; [discriminate |].
    assert (Hexp : d_exp (rescale q (-2)) = -2)
      by (unfold rescale; destruct (-2 <=? d_exp q); reflexivity).
    destruct (rescale q (-2)) as [s c e]. cbn [d_int d_exp] in *. subst e.
    intros H. eapply fix_keeps_exponent; [exact Hfit | exact Hrange | exact H].
Qed.

End QuantizeFacts.

(** X4.  Whatever the arguments, a returned installment is either the
    literal [Decimal(0)] of a guard (zero tenure at rate 0, or a zero
    denominator) or a value quantized to exactly two decimal places,
    of at most 28 digits. *)
Theorem X4_installment_has_two_decimals :
  forall principal rate n emi,
    calculate_monthly_installment principal rate n = Ok emi ->
    emi = Decimal_0 \/ (d_exp emi = -2 /\ ndigits (d_int emi) <= 28).
Proof.
  intros principal rate n emi H. unfold calculate_monthly_installment in H.
  destruct (eqb rate (of_int 0)).
  - destruct (n =? 0).
    + left. apply Ok_inj in H. symmetry. exact H.
    + right. apply bind_ok in H. destruct H as (q & _ & H).
      exact (quantize_cents_exponent q emi H).
  - repeat (apply bind_ok in H; destruct H as (? & _ & H)).
    destruct (eqb _ (of_int 0)).
    + left. apply Ok_inj in H. symmetry. exact H.
    + right. apply bind_ok in H. destruct H as (q & _ & H).
      exact (quantize_cents_exponent q emi H).
Qed.

Lemma X4_witness :
  calculate_monthly_installment (of_int 100000) (of_int 12) 12 = Ok (cents 888488)
  /\ d_exp (cents 888488) = -2.
Proof.
  split; [vm_compute; reflexivity |].
  destruct (X4_installment_has_two_decimals (of_int 100000) (of_int 12) 12 (cents 888488)
              ltac:(vm_compute; reflexivity)) as [H | [H _]];
    [discriminate H | exact H].
Defined.

(** X5.  At rate 0, for an amount of the data model and a positive
    tenure, the installments add up to the principal but for the
    rounding to cents: [n] installments differ from the principal by at
    most [n / 2] cents, and a single installment is the principal itself. *)
Theorem X5_zero_rate_installments_repay_the_principal :
  forall principal n,
    amount_field principal -> 0 < n < 2 ^ 31 ->
    exists emi_cents,
      calculate_monthly_installment principal (of_int 0) n
      = Ok (mkdec false emi_cents (-2))
      /\ - n <= 2 * (n * Z.of_N emi_cents - Z.of_N (d_int principal)) <= n
      /\ (n = 1 -> emi_cents = d_int principal).
Proof.
  intros principal n (Hs & He & Hc) Hn.
  exists (Z.to_N (PyFloat.rne_div (Z.of_N (d_int principal)) n)).
  pose proof (rne_div_le (Z.of_N (d_int principal)) n ltac:(lia) ltac:(lia)) as Hle.
  destruct (rne_div_nearest (Z.of_N (d_int principal)) n ltac:(lia)) as [Hnear _].
  split; [| split].
  - rewrite (zero_rate_installment principal (of_int 0) n eq_refl Hn He Hc).
    unfold cents_quotient. rewrite Hs. reflexivity.
  - rewrite Z2N.id by lia. lia.
  - intros ->. apply N2Z.inj. rewrite Z2N.id by lia. lia.
Qed.

Lemma X5_witness :
  exists emi_cents,
    calculate_monthly_installment (cents 10000000) (of_int 0) 12
    = Ok (mkdec false emi_cents (-2))
    /\ - 12 <= 2 * (12 * Z.of_N emi_cents - 10000000) <= 12.
Proof.
  destruct (X5_zero_rate_installments_repay_the_principal (cents 10000000) 12
              ltac:(split; [reflexivity | split; [reflexivity | reflexivity]])
              ltac:(split; [lia | reflexivity]))
    as (emi_cents & Hemi & Hnear & _).
  exists emi_cents. split; [exact Hemi | exact Hnear].
Defined.

(** ** A tenure of zero months *)

Section ZeroTenureFacts.

(** [x ** 0] is [Decimal(1)] when it is defined. *)
Lemma pow_zero_exponent a x : pow a 0 = Ok x -> x = mkdec false 1 0.
Proof.
  unfold pow, pow_. change (0 <=? 0) with true. change (0 =? 0) with true.
  change (Z.odd 0) with false. rewrite andb_false_r.
  destruct (is_zero a); [discriminate |].
  intros H. apply Ok_inj in H. symmetry. exact H.
Qed.

Lemma one_minus_one : sub (mkdec false 1 0) (of_int 1) = Ok (mkdec false 0 0).
Proof. vm_compute. reflexivity. Qed.

End ZeroTenureFacts.

(** X6.  A tenure of 0 months never divides by zero: at any rate and
    for any principal, an installment that is returned for it is
    [Decimal(0)], since [(1 + r) ** 0 - 1] is zero and the guard on the
    denominator applies. *)
Theorem X6_zero_tenure_gives_zero :
  forall principal rate emi,
    calculate_monthly_installment principal rate 0 = Ok emi -> emi = Decimal_0.
Proof.
  intros principal rate emi H. unfold calculate_monthly_installment in H.
  destruct (eqb rate (of_int 0)).
  - change (0 =? 0) with true in H. cbv iota in H. apply Ok_inj in H. symmetry. exact H.
  - apply bind_ok in H. destruct H as (r & _ & H).
    apply bind_ok in H. destruct H as (one_plus_r & _ & H).
    apply bind_ok in H. destruct H as (pow_r_n & Hpow & H).
    apply bind_ok in H. destruct H as (pr & _ & H).
    apply bind_ok in H. destruct H as (numerator & _ & H).
    apply bind_ok in H. destruct H as (denominator & Hden & H).
    apply pow_zero_exponent in Hpow. subst pow_r_n.
    rewrite one_minus_one in Hden. apply Ok_inj in Hden. subst denominator.
    change (eqb (mkdec false 0 0) (of_int 0)) with true in H. cbv iota in H.
    apply Ok_inj in H. symmetry. exact H.
Qed.

Lemma X6_witness :
  exists emi,
    calculate_monthly_installment (cents 10000000) (cents 1200) 0 = Ok emi
    /\ emi = Decimal_0.
Proof.
  eassert (E : calculate_monthly_installment (cents 10000000) (cents 1200) 0 = Ok _)
    by (vm_compute; reflexivity).
  eexists. split; [exact E |].
  exact (X6_zero_tenure_gives_zero (cents 10000000) (cents 1200) _ E).
Defined.

(** X7.  With installments paid within the tenures, the score is 0 exactly
    when the debt-to-limit check fires; every other score is at least
    10, the points of that check. *)
Theorem X7_zero_score_means_over_limit :
  forall today customer amount exposure score,
    Forall paid_within_tenure (loans customer) ->
    add (current_debt customer) amount = Ok exposure ->
    calculate_credit_score today customer amount = Ok score ->
    (score = 0 <-> gtb exposure (of_int (approved_limit customer)) = true)
    /\ (score <> 0 -> 10 <= score <= 100).
Proof.
  intros today customer amount exposure score Hhist Hadd H.
  unfold calculate_credit_score in H. rewrite Hadd in H. cbn [bind] in H.
  destruct (gtb exposure (of_int (approved_limit customer))).
  - apply Ok_inj in H. subst score. split; [split; reflexivity | intros F; contradiction].
  - apply bind_ok in H. destruct H as (st & Hst & H).
    assert (Hok : aggregates_ok st)
      by (eapply aggregate_loans_ok; eauto using aggregates_init_ok).
    pose proof (score_from_aggregates_range st score Hok H) as Hr.
    split; [split; [lia | discriminate] | intros _; exact Hr].
Qed.

Lemma X7_witness :
  Forall paid_within_tenure (loans (sample_customer 1800000 0 0 sample_loans))
  /\ calculate_credit_score sample_today (sample_customer 1800000 0 0 sample_loans)
       (cents 10000000) = Ok 51
  /\ gtb (cents 10000000) (of_int 1800000) <> true.
Proof.
  assert (Hhist : Forall paid_within_tenure
                    (loans (sample_customer 1800000 0 0 sample_loans))).
  { repeat constructor; cbn; lia. }
  split; [exact Hhist |].
  split; [vm_compute; reflexivity |].
  intros Hgate.
  pose proof (proj2 (proj1 (X7_zero_score_means_over_limit sample_today
                              (sample_customer 1800000 0 0 sample_loans) (cents 10000000)
                              (cents 10000000) 51 Hhist
                              ltac:(vm_compute; reflexivity) ltac:(vm_compute; reflexivity)))
                Hgate) as H.
  discriminate H.
Defined.

(** ** The float comparison of the activity check *)

Section HalfFacts.

Import PyFloat.

(** For counts of the size of an [IntegerField], the float quotient is
    below [0.5] exactly when twice the numerator is below the
    denominator. *)
Lemma paid_under_half_exact paid expected :
  0 <= paid < 2 ^ 31 -> 0 < expected < 2 ^ 31 ->
  paid_under_half paid expected = Ok (2 * paid <? expected).
Proof.
  intros Hp He. unfold paid_under_half, int_truediv.
  rewrite (proj2 (Z.eqb_neq expected 0)) by lia.
  destruct (Z.eqb_spec paid 0) as [-> | Hp0].
  - cbn [bind]. f_equal. cbn. symmetry. apply Z.ltb_lt. lia.
  - rewrite (proj2 (Z.ltb_ge paid 0)), (proj2 (Z.ltb_ge expected 0)) by lia.
    cbn [xorb]. rewrite !Z.abs_eq by lia.
    set (a := paid) in *. set (b := expected) in *.
    assert (Ha : 0 < a) by lia. assert (Hb : 0 < b) by lia.
    pose proof (ge_scaled_ilog2 a b Ha Hb) as Hge.
    assert (H231 : 0 < 2 ^ 31) by reflexivity.
    pose proof (ilog2_ratio_lt a b 31 Ha Hb ltac:(lia) ltac:(nia)) as Hup.
    unfold round_ratio.
    set (L := ilog2_ratio a b) in *.
    set (ex := Z.max (L - 52) (-1074)).
    assert (Hex : ex <= -22) by (unfold ex; lia).
    rewrite (proj2 (Z.leb_gt 0 ex)) by lia. cbn [andb].
    cbn [bind]. f_equal. unfold ltb, half.
    replace (Z.min ex (-1)) with ex by lia.
    rewrite Z.sub_diag, Z.pow_0_r, Z.mul_1_r, Z.mul_1_l.
    set (k := - ex) in *.
    replace (-1 - ex) with (k - 1) by (unfold k; lia).
    set (T := 2 ^ (k - 1)).
    assert (HT : 0 < T) by (apply Z.pow_pos_nonneg; unfold k; lia).
    assert (H2k : 2 ^ k = 2 * T).
    { unfold T. replace k with ((k - 1) + 1) at 1 by lia.
      rewrite Z.pow_add_r by (unfold k; lia). lia. }
    rewrite H2k.
    destruct (rne_div_nearest (a * (2 * T)) b Hb) as [Hnear _].
    set (m := rne_div (a * (2 * T)) b) in *.
    destruct (Z.ltb_spec (2 * a) b) as [Hunder | Hover].
    + (* under one half: the exponent is at most -54 *)
      assert (HL : L <= -2).
      { destruct (Z.le_gt_cases L (-2)) as [| HL]; [assumption | exfalso].
        unfold ge_scaled in Hge.
        destruct (Z.leb_spec 0 L) as [HL0 | HL0].
        - apply Z.leb_le in Hge.
          assert (0 < 2 ^ L) by (apply Z.pow_pos_nonneg; lia). nia.
        - assert (L = -1) by lia. subst L. rewrite H in Hge.
          apply Z.leb_le in Hge. change (2 ^ (- -1)) with 2 in Hge. lia. }
      assert (Hk : 54 <= k) by (unfold k, ex; lia).
      assert (H254 : 2 ^ 54 <= 2 * T).
      { rewrite <- H2k. apply Z.pow_le_mono_r; lia. }
      assert (2 ^ 31 < 2 ^ 54) by reflexivity.
      apply Z.ltb_lt. nia.
    + apply Z.ltb_ge. nia.
Qed.

(** The flag after one iteration of the loop. *)
Lemma aggregate_loan_flag :
  forall today st loan st',
    0 <= emis_paid_on_time loan < 2 ^ 31 ->
    month today - month (start_date loan) < 2 ^ 31 ->
    aggregate_loan today st loan = Ok st' ->
    has_recent_default st'
    = (((year (start_date loan) =? year today)
        && (2 * emis_paid_on_time loan <? month today - month (start_date loan)))
       || has_recent_default st).
Proof.
  intros today st loan st' Hpaid Hmonths H. unfold aggregate_loan in H.
  apply bind_ok in H. destruct H as (volume & _ & H).
  destruct (Z.eqb_spec (year (start_date loan)) (year today)) as [Hy | Hy].
  - rewrite Hy, Z.sub_diag in H. cbn [Z.mul Z.add] in H.
    destruct (Z.ltb_spec 0 (month today - month (start_date loan))) as [Hpos | Hnon].
    + rewrite paid_under_half_exact in H by lia. cbn [bind] in H.
      apply Ok_inj in H. subst st'. reflexivity.
    + apply Ok_inj in H. subst st'. cbn [has_recent_default andb orb].
      rewrite (proj2 (Z.ltb_ge _ _)) by lia. reflexivity.
  - apply Ok_inj in H. subst st'. reflexivity.
Qed.

End HalfFacts.

(** X8.  The activity check of the scoring loop is exact: a loan marks
    the customer as a recent defaulter exactly when it started in the
    current year, in an earlier month, and fewer than half of the
    months elapsed since have an installment paid on time.  A loan that
    started in another year never does. *)
Theorem X8_recent_default_flag :
  forall today st loan st',
    0 <= emis_paid_on_time loan < 2 ^ 31 ->
    month today - month (start_date loan) < 2 ^ 31 ->
    aggregate_loan today st loan = Ok st' ->
    has_recent_default st'
    = (((year (start_date loan) =? year today)
        && (2 * emis_paid_on_time loan <? month today - month (start_date loan)))
       || has_recent_default st).
Proof. exact aggregate_loan_flag. Qed.

Lemma X8_witness :
  aggregate_loan sample_today aggregates_init
    (mkLoan 2 (cents 80000000) 36 (cents 1200) (cents 2657100) 2
       (mkdate 2025 1 10) (mkdate 2028 1 10) true)
  = Ok (mkAgg 2 36 0 (cents 80000000) true)
  /\ has_recent_default (mkAgg 2 36 0 (cents 80000000) true)
     = (((2025 =? 2025) && (2 * 2 <? 6 - 1)) || false)%bool.
Proof.
  split; [vm_compute; reflexivity |].
  apply (X8_recent_default_flag sample_today aggregates_init
           (mkLoan 2 (cents 80000000) 36 (cents 1200) (cents 2657100) 2
              (mkdate 2025 1 10) (mkdate 2028 1 10) true)
           (mkAgg 2 36 0 (cents 80000000) true)).
  - cbn. split; [lia | reflexivity].
  - reflexivity.
  - vm_compute. reflexivity.
Defined.

(** ** The activity points *)

Section ActivityFacts.

(** Once set, the flag stays set. *)
Lemma aggregate_loan_keeps_flag today st loan st' :
  aggregate_loan today st loan = Ok st' ->
  has_recent_default st = true -> has_recent_default st' = true.
Proof.
  intros H Hflag. unfold aggregate_loan in H.
  apply bind_ok in H. destruct H as (volume & _ & H).
  destruct (year (start_date loan) =? year today).
  - destruct (0 <? _).
    + apply bind_ok in H. destruct H as (under & _ & H).
      apply Ok_inj in H. subst st'. cbn. rewrite Hflag. apply orb_true_r.
    + apply Ok_inj in H. subst st'. exact Hflag.
  - apply Ok_inj in H. subst st'. exact Hflag.
Qed.

Lemma aggregate_loans_keeps_flag today ls : forall st st',
  aggregate_loans today st ls = Ok st' ->
  has_recent_default st = true -> has_recent_default st' = true.
Proof.
  induction ls as [| l rest IH]; intros st st' H Hflag; cbn [aggregate_loans] in H.
  - apply Ok_inj in H. subst st'. exact Hflag.
  - apply bind_ok in H. destruct H as (st1 & H1 & H2).
    eapply IH; [exact H2 |]. eapply aggregate_loan_keeps_flag; eassumption.
Qed.

(** One loan behind on its payments sets the flag for the whole history. *)
Lemma aggregate_loans_sets_flag today ls loan : forall st st',
  aggregate_loans today st ls = Ok st' ->
  In loan ls ->
  0 <= emis_paid_on_time loan < 2 ^ 31 ->
  year (start_date loan) = year today ->
  month today - month (start_date loan) < 2 ^ 31 ->
  2 * emis_paid_on_time loan < month today - month (start_date loan) ->
  has_recent_default st' = true.
Proof.
  induction ls as [| l rest IH]; intros st st' H Hin Hpaid Hyear Hbound Hbehind;
    [destruct Hin |].
  cbn [aggregate_loans] in H. apply bind_ok in H. destruct H as (st1 & H1 & H2).
  destruct Hin as [-> | Hin].
  - eapply aggregate_loans_keeps_flag; [exact H2 |].
    rewrite (aggregate_loan_flag today st loan st1 Hpaid Hbound H1).
    rewrite (proj2 (Z.eqb_eq _ _) Hyear), (proj2 (Z.ltb_lt _ _) Hbehind). reflexivity.
  - eapply IH; eassumption.
Qed.

(** With the flag set the score stays at 85 or below. *)
Lemma score_with_default st score :
  aggregates_ok st -> has_recent_default st = true ->
  score_from_aggregates st = Ok score -> 10 <= score <= 85.
Proof.
  intros [Hp Hc] Hflag H. unfold score_from_aggregates in H.
  apply bind_ok in H. destruct H as (base & Hbase & H).
  apply Ok_inj in H. rewrite Hflag in H. cbn [negb] in H.
  assert (Hb : 10 <= base <= 50).
  { destruct (0 <? total_emis_due st) eqn:Hd.
    - apply bind_ok in Hbase. destruct Hbase as (pts & Hpts & Hbase).
      apply Ok_inj in Hbase.
      destruct (on_time_points_bounded (total_emis_paid st) (total_emis_due st))
        as (pts' & Hpts' & Hrange); [lia | lia |].
      rewrite Hpts' in Hpts. apply Ok_inj in Hpts.
      unfold SCORE_WEIGHTS.limit_check in Hbase. lia.
    - apply Ok_inj in Hbase. unfold SCORE_WEIGHTS.limit_check in Hbase. lia. }
  unfold SCORE_WEIGHTS.loan_volume, SCORE_WEIGHTS.approved_volume in H.
  repeat match type of H with
         | context [if ?b then _ else _] => destruct b
         end; lia.
Qed.

(** Without the flag the score is at least 25. *)
Lemma score_without_default st score :
  aggregates_ok st -> has_recent_default st = false ->
  score_from_aggregates st = Ok score -> 25 <= score <= 100.
Proof.
  intros [Hp Hc] Hflag H. unfold score_from_aggregates in H.
  apply bind_ok in H. destruct H as (base & Hbase & H).
  apply Ok_inj in H. rewrite Hflag in H. cbn [negb] in H.
  assert (Hb : 10 <= base).
  { destruct (0 <? total_emis_due st) eqn:Hd.
    - apply bind_ok in Hbase. destruct Hbase as (pts & Hpts & Hbase).
      apply Ok_inj in Hbase.
      destruct (on_time_points_bounded (total_emis_paid st) (total_emis_due st))
        as (pts' & Hpts' & Hrange); [lia | lia |].
      rewrite Hpts' in Hpts. apply Ok_inj in Hpts.
      unfold SCORE_WEIGHTS.limit_check in Hbase. lia.
    - apply Ok_inj in Hbase. unfold SCORE_WEIGHTS.limit_check in Hbase. lia. }
  unfold SCORE_WEIGHTS.loan_volume, SCORE_WEIGHTS.approved_volume,
    SCORE_WEIGHTS.activity in H.
  repeat match type of H with
         | context [if ?b then _ else _] => destruct b
         end; lia.
Qed.

End ActivityFacts.

(** X9.  One loan of the current year that is behind (fewer than half
    of the months elapsed since its start have an installment paid on
    time) takes the 15 activity points from the whole history: the score
    is then 85 at most.  This is the case of every loan created by
    /create-loan, which starts with no installment paid, from the month
    after its creation to the end of that year. *)
Theorem X9_a_loan_behind_caps_the_score_at_85 :
  forall today customer amount loan score,
    Forall paid_within_tenure (loans customer) ->
    In loan (loans customer) ->
    emis_paid_on_time loan < 2 ^ 31 ->
    year (start_date loan) = year today ->
    month today - month (start_date loan) < 2 ^ 31 ->
    2 * emis_paid_on_time loan < month today - month (start_date loan) ->
    calculate_credit_score today customer amount = Ok score ->
    score <= 85.
Proof.
  intros today customer amount loan score Hhist Hin Hpaid Hyear Hbound Hbehind H.
  unfold calculate_credit_score in H.
  apply bind_ok in H. destruct H as (exposure & _ & H).
  destruct (gtb exposure _); [apply Ok_inj in H; lia |].
  apply bind_ok in H. destruct H as (st & Hst & H).
  assert (Hl : paid_within_tenure loan)
    by (rewrite Forall_forall in Hhist; apply Hhist; exact Hin).
  unfold paid_within_tenure in Hl.
  pose proof (aggregate_loans_sets_flag today (loans customer) loan _ _ Hst Hin
                ltac:(lia) Hyear Hbound Hbehind) as Hflag.
  assert (Hok : aggregates_ok st)
    by (eapply aggregate_loans_ok; eauto using aggregates_init_ok).
  pose proof (score_with_default st score Hok Hflag H). lia.
Qed.

Lemma X9_witness :
  calculate_credit_score sample_today
    (sample_customer 1800000 0 0
       [mkLoan 3 (cents 10000000) 12 (cents 1600) (cents 907309) 0
          (mkdate 2025 5 20) (mkdate 2026 5 20) true])
    (cents 10000000) = Ok 10
  /\ 10 <= 85.
Proof.
  split; [vm_compute; reflexivity |].
  apply (X9_a_loan_behind_caps_the_score_at_85 sample_today
           (sample_customer 1800000 0 0
              [mkLoan 3 (cents 10000000) 12 (cents 1600) (cents 907309) 0
                 (mkdate 2025 5 20) (mkdate 2026 5 20) true])
           (cents 10000000)
           (mkLoan 3 (cents 10000000) 12 (cents 1600) (cents 907309) 0
              (mkdate 2025 5 20) (mkdate 2026 5 20) true) 10).
  - repeat constructor; cbn; lia.
  - left. reflexivity.
  - reflexivity.
  - reflexivity.
  - reflexivity.
  - reflexivity.
  - vm_compute. reflexivity.
Defined.

(** X10.  With installments paid within the tenures, a customer within
    the limit and with no loan of the current year behind on its payments
    scores at least 25, and is therefore never rejected for the score. *)
Theorem X10_no_default_scores_at_least_25 :
  forall today customer amount exposure score,
    Forall paid_within_tenure (loans customer) ->
    Forall (fun l => year (start_date l) <> year today
                     \/ (emis_paid_on_time l < 2 ^ 31
                         /\ month today - month (start_date l) < 2 ^ 31
                         /\ month today - month (start_date l) <= 2 * emis_paid_on_time l))
           (loans customer) ->
    add (current_debt customer) amount = Ok exposure ->
    gtb exposure (of_int (approved_limit customer)) = false ->
    calculate_credit_score today customer amount = Ok score ->
    25 <= score <= 100.
Proof.
  intros today customer amount exposure score Hhist Hgood Hadd Hgate H.
  unfold calculate_credit_score in H. rewrite Hadd in H. cbn [bind] in H.
  rewrite Hgate in H.
  apply bind_ok in H. destruct H as (st & Hst & H).
  assert (Hok : aggregates_ok st)
    by (eapply aggregate_loans_ok; eauto using aggregates_init_ok).
  apply (score_without_default st score Hok); [| exact H].
  clear H Hok Hadd Hgate.
  assert (Hinit : has_recent_default aggregates_init = false) by reflexivity.
  revert Hst Hinit. generalize aggregates_init as st0.
  induction (loans customer) as [| l rest IH]; intros st0 Hst Hinit;
    cbn [aggregate_loans] in Hst.
  - apply Ok_inj in Hst. subst st. exact Hinit.
  - apply bind_ok in Hst. destruct Hst as (st1 & H1 & H2).
    inversion Hhist as [| ? ? Hl Hrest]; subst.
    inversion Hgood as [| ? ? Hg Hgrest]; subst.
    apply (IH Hrest Hgrest st1 H2).
    unfold paid_within_tenure in Hl.
    destruct Hg as [Hy | (Hp & Hb & Hhalf)].
    + unfold aggregate_loan in H1.
      apply bind_ok in H1. destruct H1 as (volume & _ & H1).
      rewrite (proj2 (Z.eqb_neq _ _) Hy) in H1.
      apply Ok_inj in H1. subst st1. exact Hinit.
    + rewrite (aggregate_loan_flag today st0 l st1 ltac:(lia) Hb H1), Hinit.
      rewrite (proj2 (Z.ltb_ge _ _) Hhalf). rewrite andb_false_r. reflexivity.
Qed.

Lemma X10_witness :
  calculate_credit_score sample_today (sample_customer 1800000 0 0 sample_loans)
    (cents 10000000) = Ok 51
  /\ 25 <= 51 <= 100.
Proof.
  split; [vm_compute; reflexivity |].
  apply (X10_no_default_scores_at_least_25 sample_today
           (sample_customer 1800000 0 0 sample_loans) (cents 10000000)
           (cents 10000000) 51).
  - repeat constructor; cbn; lia.
  - constructor; [left; cbn; lia |].
    constructor; [| constructor].
    right. cbn. repeat split; lia.
  - vm_compute. reflexivity.
  - vm_compute. reflexivity.
  - vm_compute. reflexivity.
Defined.

(** ** The float arithmetic of the on-time points *)

Section PointsFacts.

Import PyFloat.

(** The quotient of two positive counts, as a float: the exponent is at
    most -52 and the significand is within one half of the scaled quotient. *)
Lemma int_truediv_close p d :
  0 < p <= d ->
  exists m K,
    int_truediv p d = Ok (Finite m (- K))
    /\ 52 <= K /\ 0 <= m <= 2 ^ K
    /\ - d <= 2 * (p * 2 ^ K) - 2 * m * d <= d.
Proof.
  intros Hp. unfold int_truediv.
  rewrite (proj2 (Z.eqb_neq d 0)), (proj2 (Z.eqb_neq p 0)) by lia.
  rewrite (proj2 (Z.ltb_ge p 0)), (proj2 (Z.ltb_ge d 0)) by lia.
  cbn [xorb]. rewrite !Z.abs_eq by lia.
  pose proof (ilog2_ratio_lt p d 1 ltac:(lia) ltac:(lia) ltac:(lia) ltac:(lia)) as HL.
  unfold round_ratio.
  set (ex := Z.max (ilog2_ratio p d - 52) (-1074)).
  assert (Hex : ex <= -52) by (unfold ex; lia).
  rewrite (proj2 (Z.leb_gt 0 ex)) by lia. cbn [andb].
  exists (rne_div (p * 2 ^ (- ex)) d), (- ex).
  rewrite Z.opp_involutive.
  split; [reflexivity |]. split; [lia |].
  assert (HA : 0 < 2 ^ (- ex)) by (apply Z.pow_pos_nonneg; lia).
  split.
  - apply rne_div_bounds; nia.
  - destruct (rne_div_nearest (p * 2 ^ (- ex)) d ltac:(lia)) as [H _]. exact H.
Qed.

(** The product by the weight 40 and its rounding to an [int]. *)
Lemma weight_round_close m K :
  52 <= K -> 0 < m <= 2 ^ K ->
  exists pts m' K',
    round (mul (Finite (40 * 2 ^ 47) (-47)) (Finite m (- K))) = Ok pts
    /\ 47 <= K'
    /\ - 2 ^ K <= 80 * m * 2 ^ K' - 2 * m' * 2 ^ K <= 2 ^ K
    /\ - 2 ^ K' <= 2 * m' - 2 * pts * 2 ^ K' <= 2 ^ K'.
Proof.
  intros HK Hm. cbn [mul]. unfold round_dyadic.
  assert (HA : 0 < 2 ^ K) by (apply Z.pow_pos_nonneg; lia).
  assert (H47 : 0 < 2 ^ 47) by reflexivity.
  set (z := 40 * 2 ^ 47 * m).
  assert (Hz : 0 < z) by (unfold z; nia).
  rewrite (proj2 (Z.eqb_neq z 0)) by lia.
  rewrite (proj2 (Z.leb_gt 0 (-47 + - K))) by lia.
  rewrite (proj2 (Z.ltb_ge z 0)) by lia. rewrite Z.abs_eq by lia.
  replace (- (-47 + - K)) with (47 + K) by lia.
  assert (HE : 2 ^ (47 + K) = 2 ^ 47 * 2 ^ K) by (apply Z.pow_add_r; lia).
  pose proof (ilog2_ratio_lt z (2 ^ (47 + K)) 6 Hz ltac:(lia) ltac:(lia)) as HL.
  assert (HL' : ilog2_ratio z (2 ^ (47 + K)) < 6).
  { apply HL. rewrite HE. unfold z. change (2 ^ 6) with 64. nia. }
  clear HL.
  unfold round_ratio.
  set (ex := Z.max (ilog2_ratio z (2 ^ (47 + K)) - 52) (-1074)).
  assert (Hex : ex <= -47) by (unfold ex; lia).
  rewrite (proj2 (Z.leb_gt 0 ex)) by lia. cbn [andb].
  set (m' := rne_div (z * 2 ^ (- ex)) (2 ^ (47 + K))).
  cbn [round]. rewrite (proj2 (Z.leb_gt 0 ex)) by lia.
  exists (rne_div m' (2 ^ (- ex))), m', (- ex).
  assert (HB : 0 < 2 ^ (- ex)) by (apply Z.pow_pos_nonneg; lia).
  split; [reflexivity |]. split; [lia |]. split.
  - destruct (rne_div_nearest (z * 2 ^ (- ex)) (2 ^ (47 + K)) ltac:(lia)) as [H _].
    fold m' in H. rewrite HE in H. unfold z in H.
    set (A := 2 ^ K) in *. set (B := 2 ^ (- ex)) in *.
    clearbody A B m'. clear - H H47.
    assert (Hs : 2 * (40 * 2 ^ 47 * m * B) - 2 * m' * (2 ^ 47 * A)
                 = 2 ^ 47 * (80 * m * B - 2 * m' * A)) by ring.
    rewrite Hs in H. nia.
  - destruct (rne_div_nearest m' (2 ^ (- ex)) HB) as [H _]. exact H.
Qed.

Lemma on_time_points_nearest paid due :
  0 <= paid <= due -> 0 < due < 2 ^ 45 ->
  exists pts,
    on_time_points paid due = Ok pts
    /\ - due <= 2 * (due * pts - 40 * paid) <= due.
Proof.
  intros Hp Hd. unfold on_time_points.
  destruct (Z.eq_dec paid 0) as [-> | Hp0].
  - exists 0. unfold int_truediv. rewrite (proj2 (Z.eqb_neq due 0)) by lia.
    cbn [Z.eqb bind]. rewrite of_int_weight. cbn [bind]. split; [reflexivity | lia].
  - destruct (int_truediv_close paid due ltac:(lia)) as (m & K & Hdiv & HK & Hm & H1).
    rewrite Hdiv. cbn [bind]. rewrite of_int_weight. cbn [bind].
    assert (HA : 0 < 2 ^ K) by (apply Z.pow_pos_nonneg; lia).
    assert (HA52 : 2 ^ 52 <= 2 ^ K) by (apply Z.pow_le_mono_r; lia).
    assert (H4552 : 2 ^ 45 * 2 ^ 7 = 2 ^ 52) by reflexivity.
    assert (H45 : 0 < 2 ^ 45) by reflexivity.
    assert (Hm0 : 0 < m) by nia.
    destruct (weight_round_close m K HK ltac:(lia))
      as (pts & m' & K' & Hround & HK' & H2 & H3).
    exists pts. split; [exact Hround |].
    assert (HB47 : 2 ^ 47 <= 2 ^ K') by (apply Z.pow_le_mono_r; lia).
    assert (H4547 : 2 ^ 45 * 4 = 2 ^ 47) by reflexivity.
    set (A := 2 ^ K) in *. set (B := 2 ^ K') in *. set (d := due) in *. set (p := paid) in *.
    clearbody A B d p. clear - Hd H1 H2 H3 HA52 HB47 H4552 H4547 H45.
    set (c45 := 2 ^ 45) in *. set (c52 := 2 ^ 52) in *. set (c47 := 2 ^ 47) in *.
    clearbody c45 c52 c47.
    assert (HAB : 0 < A * B) by nia.
    assert (E1 : - (40 * B * d) <= 80 * p * A * B - 80 * m * d * B <= 40 * B * d) by nia.
    assert (E2 : - (A * d) <= 80 * m * B * d - 2 * m' * A * d <= A * d) by nia.
    assert (E3 : - (A * B * d) <= 2 * m' * A * d - 2 * pts * A * B * d <= A * B * d) by nia.
    assert (E : - (A * B * d + A * d + 40 * B * d)
                <= A * B * (2 * (d * pts - 40 * p)) <= A * B * d + A * d + 40 * B * d).
    { replace (A * B * (2 * (d * pts - 40 * p)))
        with (- (80 * p * A * B - 80 * m * d * B) - (80 * m * B * d - 2 * m' * A * d)
              - (2 * m' * A * d - 2 * pts * A * B * d)) by ring.
      lia. }
    assert (S1 : 2 * (A * d) < A * B) by nia.
    assert (S2 : 80 * (B * d) < A * B) by nia.
    assert (Hlt : - (A * B * (d + 1)) < A * B * (2 * (d * pts - 40 * p)) < A * B * (d + 1))
      by lia.
    split.
    + assert (- (d + 1) < 2 * (d * pts - 40 * p)) by nia. lia.
    + assert (2 * (d * pts - 40 * p) < d + 1) by nia. lia.
Qed.

End PointsFacts.

(** X11.  The points for installments paid on time are 40 times the
    share of paid installments rounded to a nearest integer: the float
    arithmetic loses nothing.  So nothing is granted when no installment
    was paid, the full 40 when all were, and a larger count of paid
    installments never gives fewer points. *)
Theorem X11_on_time_points_nearest_and_monotone :
  forall paid paid' due,
    0 <= paid <= paid' -> paid' <= due -> 0 < due < 2 ^ 45 ->
    exists pts pts',
      on_time_points paid due = Ok pts
      /\ on_time_points paid' due = Ok pts'
      /\ - due <= 2 * (due * pts - 40 * paid) <= due
      /\ pts <= pts'
      /\ (paid = 0 -> pts = 0)
      /\ (paid' = due -> pts' = 40).
Proof.
  intros paid paid' due Hp Hp' Hd.
  destruct (on_time_points_nearest paid due ltac:(lia) Hd) as (pts & Hpts & Hn).
  destruct (on_time_points_nearest paid' due ltac:(lia) Hd) as (pts' & Hpts' & Hn').
  exists pts, pts'. split; [exact Hpts |]. split; [exact Hpts' |]. split; [exact Hn |].
  split; [| split].
  - destruct (Z.eq_dec paid paid') as [<- | Hne].
    + rewrite Hpts in Hpts'. apply Ok_inj in Hpts'. lia.
    + nia.
  - intros ->. nia.
  - intros ->. nia.
Qed.

Lemma X11_witness :
  exists pts pts',
    on_time_points 24 60 = Ok pts /\ on_time_points 60 60 = Ok pts'
    /\ pts = 16 /\ pts' = 40.
Proof.
  destruct (X11_on_time_points_nearest_and_monotone 24 60 60
              ltac:(lia) ltac:(lia) ltac:(split; [lia | reflexivity]))
    as (pts & pts' & H1 & H2 & Hn & _ & _ & Hfull).
  exists pts, pts'. split; [exact H1 |]. split; [exact H2 |].
  split; [lia | apply Hfull; reflexivity].
Defined.

(** ** The order of the loans *)

Section OrderFacts.

(** One iteration on a stored loan: what it adds does not depend on the
    state it starts from. *)
Lemma aggregate_loan_step today loan :
  model_loan loan -> paid_within_tenure loan ->
  exists flag inc,
    forall st v,
      volume_is (total_approved_volume st) v ->
      (v + d_int (loan_amount loan) < pow10 28)%N ->
      aggregate_loan today st loan
      = Ok (mkAgg (total_emis_paid st + emis_paid_on_time loan)
              (total_emis_due st + tenure loan)
              (total_closed_loans st + inc)
              (mkdec false (v + d_int (loan_amount loan)) (-2))
              (flag || has_recent_default st)).
Proof.
  intros [(Hs & He & Hc) H31] Hpaid. unfold paid_within_tenure in Hpaid.
  unfold aggregate_loan.
  destruct (loan_amount loan) as [s c e]. cbn [d_sign d_int d_exp] in *. subst s e.
  set (inc := if date_leb (end_date loan) today then 1 else 0).
  assert (Hinc : forall st, (if date_leb (end_date loan) today
                             then total_closed_loans st + 1 else total_closed_loans st)
                            = total_closed_loans st + inc).
  { intros st. unfold inc. destruct (date_leb (end_date loan) today); lia. }
  destruct (year (start_date loan) =? year today).
  - destruct (0 <? _) eqn:Hexp.
    + destruct (paid_under_half_returns (emis_paid_on_time loan)
                  ((year today - year (start_date loan)) * 12
                   + (month today - month (start_date loan)))) as (b & Hb); [lia | lia |].
      exists b, inc. intros st v Hv Hsum.
      rewrite (add_volume _ v c Hv Hsum). cbn [bind]. rewrite Hb. cbn [bind].
      rewrite Hinc. reflexivity.
    + exists false, inc. intros st v Hv Hsum.
      rewrite (add_volume _ v c Hv Hsum). cbn [bind]. rewrite Hinc. reflexivity.
  - exists false, inc. intros st v Hv Hsum.
    rewrite (add_volume _ v c Hv Hsum). cbn [bind]. rewrite Hinc. reflexivity.
Qed.

Lemma model_loan_amount loan : model_loan loan -> (d_int (loan_amount loan) < 10 ^ 12)%N.
Proof. intros [(_ & _ & H) _]. exact H. Qed.

Lemma aggregate_loans_permutation today ls ls' :
  Permutation ls ls' ->
  forall st v,
    volume_is (total_approved_volume st) v ->
    (v + N.of_nat (List.length ls) * 10 ^ 12 < pow10 28)%N ->
    Forall model_loan ls -> Forall paid_within_tenure ls ->
    aggregate_loans today st ls = aggregate_loans today st ls'.
Proof.
  induction 1 as [| x l l' Hperm IH | x y l | l l' l'' H1 IH1 H2 IH2];
    intros st v Hv Hsum Hm Hp.
  - reflexivity.
  - inversion Hm as [| ? ? Hmx Hmrest]; subst. inversion Hp as [| ? ? Hpx Hprest]; subst.
    cbn [List.length] in Hsum. rewrite Nat2N.inj_succ in Hsum.
    pose proof (model_loan_amount x Hmx) as Hcx.
    destruct (aggregate_loan_step today x Hmx Hpx) as (fx & ix & Hx).
    cbn [aggregate_loans]. rewrite (Hx st v Hv) by lia. cbn [bind].
    apply (IH _ (v + d_int (loan_amount x))%N); [left; reflexivity | lia | assumption ..].
  - inversion Hm as [| ? ? Hmy Hm1]; subst. inversion Hm1 as [| ? ? Hmx Hmrest]; subst.
    inversion Hp as [| ? ? Hpy Hp1]; subst. inversion Hp1 as [| ? ? Hpx Hprest]; subst.
    cbn [List.length] in Hsum. rewrite !Nat2N.inj_succ in Hsum.
    pose proof (model_loan_amount x Hmx) as Hcx.
    pose proof (model_loan_amount y Hmy) as Hcy.
    destruct (aggregate_loan_step today x Hmx Hpx) as (fx & ix & Hx).
    destruct (aggregate_loan_step today y Hmy Hpy) as (fy & iy & Hy).
    cbn [aggregate_loans].
    rewrite (Hy st v Hv) by lia. cbn [bind].
    rewrite (Hx _ (v + d_int (loan_amount y))%N) by (first [left; reflexivity | lia]).
    rewrite (Hx st v Hv) by lia. cbn [bind].
    rewrite (Hy _ (v + d_int (loan_amount x))%N) by (first [left; reflexivity | lia]).
    cbn [bind total_emis_paid total_emis_due total_closed_loans has_recent_default].
    f_equal. f_equal; [lia | lia | lia | f_equal; lia |].
    destruct fx, fy; reflexivity.
  - rewrite (IH1 st v Hv Hsum Hm Hp).
    apply (IH2 st v Hv).
    + rewrite <- (Permutation_length H1). exact Hsum.
    + exact (Permutation_Forall H1 Hm).
    + exact (Permutation_Forall H1 Hp).
Qed.

End OrderFacts.

(** X12.  On values as the tables hold them, the score depends on the
    loans of the customer only as a collection: any reordering of the
    history gives the same result, whatever order the database returns
    the rows in.  The running total of the approved volume is exact, so
    that the order of the additions does not matter. *)
Theorem X12_score_ignores_the_order_of_loans :
  forall today customer customer' amount,
    Permutation (loans customer) (loans customer') ->
    current_debt customer' = current_debt customer ->
    approved_limit customer' = approved_limit customer ->
    model_fields customer amount ->
    Forall paid_within_tenure (loans customer) ->
    calculate_credit_score today customer' amount
    = calculate_credit_score today customer amount.
Proof.
  intros today customer customer' amount Hperm Hdebt Hlimit
    (_ & _ & Hloans & Hlen) Hpaid.
  unfold calculate_credit_score. rewrite Hdebt, Hlimit.
  destruct (add (current_debt customer) amount) as [exposure | e]; [| reflexivity].
  cbn [bind]. destruct (gtb exposure _); [reflexivity |].
  rewrite (aggregate_loans_permutation today (loans customer) (loans customer') Hperm
             aggregates_init 0%N); try assumption; [reflexivity | right; split; reflexivity |].
  assert (N.of_nat (List.length (loans customer)) <= 2 ^ 32)%N.
  { change (2 ^ 32)%N with (Z.to_N (2 ^ 32)). lia. }
  assert (2 ^ 32 < 10 ^ 16)%N by reflexivity.
  assert (H1012 : (10 ^ 12 * 10 ^ 16 = pow10 28)%N) by reflexivity.
  nia.
Qed.

Lemma X12_witness :
  calculate_credit_score sample_today
    (sample_customer 1800000 0 0 (rev sample_loans)) (cents 10000000) = Ok 51.
Proof.
  rewrite (X12_score_ignores_the_order_of_loans sample_today
             (sample_customer 1800000 0 0 sample_loans)
             (sample_customer 1800000 0 0 (rev sample_loans)) (cents 10000000)).
  - vm_compute. reflexivity.
  - apply Permutation_rev.
  - reflexivity.
  - reflexivity.
  - split; [| split; [| split]].
    + split; [reflexivity | split; [reflexivity | reflexivity]].
    + split; [reflexivity | split; [reflexivity | reflexivity]].
    + repeat constructor.
    + cbn. discriminate.
  - repeat constructor; cbn; lia.
Defined.

(** ** The approved limit of a new customer *)

Section LimitFacts.

(** The stripping loop of the division stops only at the ideal exponent
    or at a coefficient that does not end in zero. *)
Lemma strip_to_ideal_maximal fuel : forall coeff exp ideal c1 e1,
  strip_to_ideal fuel coeff exp ideal = (c1, e1) ->
  ideal - exp <= Z.of_nat fuel ->
  ideal <= e1 \/ (c1 mod 10 <> 0)%N.
Proof.
  induction fuel as [| f IH]; intros coeff exp ideal c1 e1 H Hfuel;
    cbn [strip_to_ideal] in H.
  - injection H as <- <-. left. lia.
  - destruct (Z.ltb_spec exp ideal) as [Hlt | Hge]; cbn [andb] in H.
    + destruct (N.eqb_spec (coeff mod 10) 0) as [Hm | Hm].
      * apply IH in H; [exact H | lia].
      * injection H as <- <-. right. exact Hm.
    + injection H as <- <-. left. lia.
Qed.

(** The product of two non-negative [int]s that fits the precision is
    exact. *)
Lemma mul_of_int a b :
  0 <= a -> 0 <= b -> a * b < 10 ^ 28 ->
  mul (of_int a) (of_int b) = Ok (of_int (a * b)).
Proof.
  intros Ha Hb Hab. unfold mul, mul_, of_int, default_prec. cbn [d_sign d_int d_exp].
  rewrite (proj2 (Z.ltb_ge a 0)), (proj2 (Z.ltb_ge b 0)), (proj2 (Z.ltb_ge (a * b) 0))
    by nia.
  cbn [xorb Z.add].
  assert (Hc : (Z.abs_N a * Z.abs_N b)%N = Z.abs_N (a * b)) by (symmetry; apply Zabs2N.inj_mul).
  rewrite Hc.
  destruct (N.eq_dec (Z.abs_N (a * b)) 0) as [-> | Hnz].
  - apply fix_zero. unfold Etiny, Emin, Emax. lia.
  - apply fix_unchanged; [exact Hnz | | unfold Etiny, Etop, Emin, Emax; lia].
    apply ndigits_le; [lia | | exact Hnz].
    apply N2Z.inj_lt. rewrite pow10_Z, N2Z.inj_abs_N by lia. lia.
Qed.

(** Dividing an integer of at most 28 digits by one lakh is exact. *)
Lemma div_by_lakh c :
  c <> 0%N -> (c < pow10 28)%N ->
  exists c1 j,
    div (mkdec false c 0) (of_int 100000) = Ok (mkdec false c1 (- j))
    /\ 0 <= j <= 5 /\ (c1 * pow10 (5 - j))%N = c.
Proof.
  intros Hc0 Hc.
  change (of_int 100000) with (mkdec false 100000 0).
  unfold div, div_, default_prec. cbn [d_sign d_int d_exp xorb].
  change (100000 =? 0)%N with false. rewrite (proj2 (N.eqb_neq c 0) Hc0). cbv iota.
  change (ndigits 100000) with 6.
  pose proof (ndigits_pos c) as Hd1.
  assert (Hd28 : ndigits c <= 28) by (apply ndigits_le; [lia | exact Hc | exact Hc0]).
  set (shift := 6 - ndigits c + 28 + 1).
  assert (Hshift : 7 <= shift <= 34) by (unfold shift; lia).
  rewrite (proj2 (Z.leb_le 0 shift)) by lia.
  replace (0 - 0 - shift) with (- shift) by lia.
  replace (0 - 0 - - shift) with shift by lia.
  change (0 - 0) with 0.
  set (P := pow10 (shift - 5)).
  assert (HP : (0 < P)%N) by apply pow10_pos.
  assert (Hnum : (c * pow10 shift = c * P * 100000)%N).
  { replace shift with ((shift - 5) + 5) at 1 by lia.
    rewrite pow10_add by lia. change (pow10 5) with 100000%N. fold P. lia. }
  rewrite Hnum, N.Div0.mod_mul, N.div_mul by discriminate.
  change (0 =? 0)%N with true. cbv iota.
  destruct (strip_to_ideal (Z.to_nat shift) (c * P) (- shift) 0) as [c1 e1] eqn:Hstrip.
  pose proof (strip_to_ideal_spec _ _ _ _ _ _ Hstrip ltac:(lia)) as [He1 Hco].
  pose proof (strip_to_ideal_maximal _ _ _ _ _ _ Hstrip ltac:(lia)) as Hmax.
  assert (Hlow : -5 <= e1).
  { destruct (Z.le_gt_cases (-5) e1) as [| Hlt]; [assumption | exfalso].
    destruct Hmax as [Hmax | Hmax]; [lia |]. apply Hmax.
    assert (Hsplit : P = (pow10 (e1 - - shift) * pow10 (-5 - e1))%N).
    { unfold P. rewrite <- pow10_add by lia. f_equal. lia. }
    assert (Hten : pow10 (-5 - e1) = (10 * pow10 (-6 - e1))%N).
    { replace (-5 - e1) with ((-6 - e1) + 1) by lia. apply pow10_succ. lia. }
    pose proof (pow10_pos (e1 - - shift)) as HQ.
    assert (Hc1 : c1 = (c * pow10 (-5 - e1))%N).
    { rewrite Hsplit in Hco.
      apply (N.mul_cancel_r _ _ (pow10 (e1 - - shift))); [lia |]. lia. }
    rewrite Hc1, Hten, N.mul_assoc, (N.mul_comm c 10), <- N.mul_assoc, N.mul_comm.
    apply N.Div0.mod_mul. }
  assert (Hval : (c1 * pow10 (5 + e1))%N = c).
  { assert (Hsplit : pow10 (e1 - - shift) = (pow10 (5 + e1) * P)%N).
    { unfold P. rewrite <- pow10_add by lia. f_equal. lia. }
    rewrite Hsplit in Hco.
    apply (N.mul_cancel_r _ _ P); [lia |]. lia. }
  assert (Hc1nz : c1 <> 0%N) by (intros ->; cbn in Hval; lia).
  exists c1, (- e1). rewrite Z.opp_involutive.
  split; [| split; [lia | replace (5 - - e1) with (5 + e1) by lia; exact Hval]].
  apply fix_unchanged; [exact Hc1nz | | unfold Etiny, Etop, Emin, Emax; lia].
  apply ndigits_le; [lia | | exact Hc1nz].
  pose proof (pow10_pos (5 + e1)). nia.
Qed.

(** [round()] of a non-negative Decimal with [j] decimal places is the
    nearest integer, ties to even. *)
Lemma decimal_round_nearest c j :
  0 <= j ->
  nearest_even (Z.of_N c) (10 ^ j) (decimal_round (mkdec false c (- j)))
  /\ 0 <= decimal_round (mkdec false c (- j)).
Proof.
  intros Hj. unfold decimal_round, rescale. cbn [d_sign d_int d_exp].
  destruct (Z.eq_dec j 0) as [-> | Hj0].
  - cbn [Z.opp Z.leb Z.compare]. unfold decimal_int. cbn [d_sign d_int d_exp].
    change (0 <=? 0) with true. cbv iota. change (pow10 (0 - 0)) with 1%N.
    rewrite N.mul_1_r, Z.pow_0_r, Z.mul_1_r.
    split; [| lia]. unfold nearest_even. split; lia.
  - rewrite (proj2 (Z.leb_gt 0 (- j))) by lia.
    unfold decimal_int. cbn [d_sign d_int d_exp]. change (0 <=? 0) with true. cbv iota.
    rewrite Z.pow_0_r, Z.mul_1_r. split; [| lia].
    unfold round_to.
    destruct (Z.ltb_spec (ndigits c + - j - 0) 0) as [Hsmall | Hbig].
    + change (round_half_even 1 1) with 0%N.
      pose proof (ndigits_lt_pow c (j - 1) ltac:(lia) ltac:(lia)) as Hlt.
      apply N2Z.inj_lt in Hlt. rewrite pow10_Z in Hlt by lia.
      assert (Hten : 10 ^ j = 10 * 10 ^ (j - 1)).
      { replace j with ((j - 1) + 1) at 1 by lia. apply pow10Z_succ. lia. }
      assert (0 < 10 ^ (j - 1)) by (apply pow10Z_pos; lia).
      unfold nearest_even. change (Z.of_N 0) with 0. split; lia.
    + replace (0 - - j) with j by lia.
      pose proof (round_half_even_nearest c j ltac:(lia)) as H.
      rewrite pow10_Z in H by lia. exact H.
Qed.

Lemma calculate_approved_limit_value m :
  1 <= m < 10 ^ 26 ->
  exists lakhs,
    calculate_approved_limit m = Ok (100000 * lakhs)
    /\ nearest_even (36 * m) 100000 lakhs.
Proof.
  intros Hm. unfold calculate_approved_limit.
  assert (H26 : 10 ^ 28 = 100 * 10 ^ 26) by reflexivity.
  rewrite mul_of_int by lia. cbn [bind].
  unfold of_int at 1. rewrite (proj2 (Z.ltb_ge (36 * m) 0)) by lia.
  set (c := Z.abs_N (36 * m)).
  assert (Hcz : Z.of_N c = 36 * m) by (unfold c; rewrite N2Z.inj_abs_N; lia).
  destruct (div_by_lakh c) as (c1 & j & Hdiv & Hj & Hval); [lia | |].
  { apply N2Z.inj_lt. rewrite pow10_Z by lia. lia. }
  rewrite Hdiv. cbn [bind].
  destruct (decimal_round_nearest c1 j ltac:(lia)) as [Hnear Hpos].
  set (r := decimal_round (mkdec false c1 (- j))) in *.
  assert (Hexact : nearest_even (36 * m) 100000 r).
  { apply (exact_rounding (36 * m) 100000 (Z.of_N c1) (10 ^ j) r);
      [lia | apply pow10Z_pos; lia | | exact Hnear].
    rewrite <- Hcz, <- Hval, N2Z.inj_mul, pow10_Z by lia.
    assert (Hs : 100000 = 10 ^ (5 - j) * 10 ^ j).
    { rewrite <- Z.pow_add_r by lia. replace (5 - j + j) with 5 by lia. reflexivity. }
    rewrite Hs at 1. ring. }
  exists r. split; [| exact Hexact].
  destruct Hexact as [Hr _].
  rewrite mul_of_int by lia. cbn [bind]. f_equal.
  unfold decimal_int, of_int. cbn [d_sign d_int d_exp].
  rewrite (proj2 (Z.ltb_ge (r * 100000) 0)) by lia.
  change (0 <=? 0) with true. cbv iota.
  rewrite N2Z.inj_abs_N, Z.pow_0_r. lia.
Qed.

End LimitFacts.

(** X13.  For a monthly income of up to 26 digits, the approved limit of
    a new customer is 36 times the income rounded to the nearest lakh,
    a half lakh going to the even multiple: it is a multiple of 100000
    within 50000 of 36 times the income.  An income of 1388 or less
    gets the limit 0; one of 12500 gets 400000, not 500000. *)
Theorem X13_approved_limit_is_nearest_lakh :
  forall monthly_income,
    1 <= monthly_income < 10 ^ 26 ->
    exists lakhs,
      calculate_approved_limit monthly_income = Ok (100000 * lakhs)
      /\ nearest_even (36 * monthly_income) 100000 lakhs
      /\ - 50000 <= 36 * monthly_income - 100000 * lakhs <= 50000
      /\ (lakhs = 0 <-> monthly_income <= 1388).
Proof.
  intros m Hm.
  destruct (calculate_approved_limit_value m Hm) as (lakhs & Hcalc & Hnear).
  exists lakhs. split; [exact Hcalc |]. split; [exact Hnear |].
  destruct Hnear as [Hr _]. split; lia.
Qed.

Lemma X13_witness :
  exists lakhs,
    calculate_approved_limit 12500 = Ok (100000 * lakhs) /\ lakhs = 4.
Proof.
  destruct (X13_approved_limit_is_nearest_lakh 12500 ltac:(split; [lia | reflexivity]))
    as (lakhs & Hcalc & [Hr Heven] & _).
  exists lakhs. split; [exact Hcalc |].
  assert (Hl : lakhs = 4 \/ lakhs = 5) by lia.
  destruct Hl as [-> | ->]; [reflexivity |].
  specialize (Heven eq_refl). discriminate Heven.
Defined.

(** ** Primary keys *)

Section KeyFacts.

Lemma fold_max_ge l : forall a,
  a <= fold_left Z.max l a /\ Forall (fun i => i <= fold_left Z.max l a) l.
Proof.
  induction l as [| x l IH]; intros a; cbn [fold_left].
  - split; [lia | constructor].
  - destruct (IH (Z.max a x)) as [H1 H2].
    split; [lia |]. constructor; [lia | exact H2].
Qed.

(** The id after the latest one is larger than every id of the table. *)
Lemma next_id_fresh ids :
  let new_id := match latest ids with Some latest_id => latest_id + 1 | None => 1 end in
  Forall (fun i => i < new_id) ids.
Proof.
  destruct ids as [| i rest]; cbn [latest]; [constructor |].
  destruct (fold_max_ge rest i) as [H1 H2].
  constructor; [lia |].
  eapply Forall_impl; [| exact H2]. cbn. intros. lia.
Qed.

Lemma Forall_lt_not_In ids new_id : Forall (fun i => i < new_id) ids -> ~ In new_id ids.
Proof.
  intros H Hin. rewrite Forall_forall in H. specialize (H _ Hin). lia.
Qed.

Lemma existsb_eqb_In {A : Type} (f : A -> Z) (l : list A) (k : Z) :
  existsb (fun x => f x =? k) l = true <-> In k (List.map f l).
Proof.
  rewrite existsb_exists, in_map_iff. split.
  - intros (x & Hin & Heq). apply Z.eqb_eq in Heq. exists x. split; assumption.
  - intros (x & Heq & Hin). exists x. split; [exact Hin | apply Z.eqb_eq; exact Heq].
Qed.

Lemma existsb_eqb_not_In {A : Type} (f : A -> Z) (l : list A) (k : Z) :
  ~ In k (List.map f l) -> existsb (fun x => f x =? k) l = false.
Proof.
  intros H. destruct (existsb _ l) eqn:E; [| reflexivity].
  apply existsb_eqb_In in E. contradiction.
Qed.

Lemma NoDup_snoc {A : Type} (l : list A) (x : A) :
  NoDup l -> ~ In x l -> NoDup (l ++ [x]).
Proof.
  intros Hl Hx. apply NoDup_app; [exact Hl | repeat constructor; intros [] |].
  intros a Ha [<- | []]. contradiction.
Qed.

End KeyFacts.

(** ** Registration *)

Section RegisterFacts.

Lemma register_conflict_or_fresh :
  forall db data,
    CustomerRegisterRequest_valid data ->
    reg_monthly_income data < 10 ^ 26 ->
    (In (reg_phone_number data) (List.map phone_number db) ->
     RegisterCustomerView_post db (Some data)
     = Handled (mkResponse
                  (content (register_message
                              "Customer with this phone number already exists."))
                  409, db))
    /\ (~ In (reg_phone_number data) (List.map phone_number db) ->
        exists new_id lakhs,
          let customer :=
            mkCustomer new_id (reg_first_name data) (reg_last_name data) (reg_age data)
              (reg_phone_number data) (of_int (reg_monthly_income data))
              (100000 * lakhs) (of_int 0) (of_int 0) [] in
          RegisterCustomerView_post db (Some data)
          = Handled (mkResponse
                       (content (register_created new_id
                                   (reg_first_name data ++ " " ++ reg_last_name data)
                                   (reg_age data) (reg_monthly_income data)
                                   (100000 * lakhs) (reg_phone_number data)))
                       201, db ++ [customer])
          /\ nearest_even (36 * reg_monthly_income data) 100000 lakhs
          /\ (db = [] -> new_id = 1)
          /\ Forall (fun c => customer_id c < new_id) db
          /\ (database_ok db -> database_ok (db ++ [customer]))).
Proof.
  intros db data (_ & _ & _ & Hincome) Hbound. split.
  - intros Hin. unfold RegisterCustomerView_post. cbv zeta.
    rewrite (proj2 (existsb_eqb_In phone_number db (reg_phone_number data)) Hin).
    reflexivity.
  - intros Hnew.
    destruct (calculate_approved_limit_value (reg_monthly_income data) ltac:(lia))
      as (lakhs & Hlimit & Hnear).
    pose proof (next_id_fresh (List.map customer_id db)) as Hfresh. cbv zeta in Hfresh.
    set (new_id := match latest (List.map customer_id db) with
                   | Some latest_id => latest_id + 1
                   | None => 1
                   end) in *.
    exists new_id, lakhs. cbv zeta.
    assert (Hid : ~ In new_id (List.map customer_id db))
      by (apply Forall_lt_not_In; exact Hfresh).
    split; [| split; [exact Hnear | split; [| split]]].
    + unfold RegisterCustomerView_post. cbv zeta.
      rewrite (existsb_eqb_not_In phone_number db _ Hnew), Hlimit.
      fold new_id.
      assert (Hcreate : existsb (fun c => (customer_id c =? new_id)
                                          || (phone_number c =? reg_phone_number data)) db
                        = false).
      { destruct (existsb _ db) eqn:E; [| reflexivity].
        apply existsb_exists in E. destruct E as (c & Hc & E).
        apply orb_true_iff in E. destruct E as [E | E]; apply Z.eqb_eq in E; exfalso.
        - apply Hid. rewrite <- E. apply in_map. exact Hc.
        - apply Hnew. rewrite <- E. apply in_map. exact Hc. }
      rewrite Hcreate. reflexivity.
    + intros ->. reflexivity.
    + rewrite Forall_forall in Hfresh |- *. intros c Hc.
      apply Hfresh. apply in_map. exact Hc.
    + intros (Hids & Hphones & Hloans). unfold database_ok.
      rewrite !map_app. cbn [List.map customer_id phone_number].
      split; [apply NoDup_snoc; assumption |].
      split; [apply NoDup_snoc; assumption |].
      unfold Loan_objects_all in *. rewrite flat_map_app. cbn [flat_map loans].
      rewrite !app_nil_r. exact Hloans.
Qed.

End RegisterFacts.



(** ** The sample tables *)

Section SampleFacts.

Lemma sample_database_ok : database_ok sample_database.
Proof.
  unfold database_ok. cbn.
  repeat split; repeat constructor; cbn; intuition discriminate.
Qed.

Lemma sample_registration_valid : CustomerRegisterRequest_valid sample_registration.
Proof.
  unfold CustomerRegisterRequest_valid, sample_registration.
  cbn [reg_first_name reg_last_name reg_age reg_monthly_income String.length]. lia.
Qed.


End SampleFacts.

(** ** Creating a loan *)

Section CreateFacts.

(** A score other than 0 means that the debt-to-limit check passed. *)
Lemma scored_within_limit today customer amount score :
  calculate_credit_score today customer amount = Ok score -> score <> 0 ->
  exists exposure,
    add (current_debt customer) amount = Ok exposure
    /\ gtb exposure (of_int (approved_limit customer)) = false.
Proof.
  intros H Hs. unfold calculate_credit_score in H.
  destruct (add (current_debt customer) amount) as [exposure | e]; [| discriminate].
  cbn [bind] in H. exists exposure. split; [reflexivity |].
  destruct (gtb exposure _); [| reflexivity].
  apply Ok_inj in H. congruence.
Qed.

Lemma get_object_or_404_In db id customer :
  get_object_or_404 db id = Some customer -> In customer db /\ customer_id customer = id.
Proof.
  intros H. apply find_some in H. destruct H as [Hin Heq].
  split; [exact Hin | apply Z.eqb_eq; exact Heq].
Qed.

Lemma save_loan_customer_ids db id l debt emi :
  List.map customer_id (save_loan db id l debt emi) = List.map customer_id db.
Proof.
  unfold save_loan. rewrite map_map. apply map_ext.
  intros c. destruct (customer_id c =? id); reflexivity.
Qed.

Lemma save_loan_phone_numbers db id l debt emi :
  List.map phone_number (save_loan db id l debt emi) = List.map phone_number db.
Proof.
  unfold save_loan. rewrite map_map. apply map_ext.
  intros c. destruct (customer_id c =? id); reflexivity.
Qed.

Lemma save_loan_other db id l debt emi :
  ~ In id (List.map customer_id db) -> save_loan db id l debt emi = db.
Proof.
  induction db as [| c rest IH]; intros Hid; [reflexivity |].
  cbn [save_loan List.map] in *.
  destruct (Z.eqb_spec (customer_id c) id) as [E | E]; [exfalso; apply Hid; left; exact E |].
  f_equal. apply IH. intros Hin. apply Hid. right. exact Hin.
Qed.

(** With unique customer ids, exactly one loan is added to the table. *)
Lemma save_loan_adds_one db id l debt emi :
  NoDup (List.map customer_id db) -> In id (List.map customer_id db) ->
  Permutation (Loan_objects_all (save_loan db id l debt emi)) (l :: Loan_objects_all db).
Proof.
  induction db as [| c rest IH]; intros Hnd Hin; [destruct Hin |].
  cbn [List.map] in Hnd. inversion Hnd as [| ? ? Hc Hrest]; subst.
  unfold Loan_objects_all in *. cbn [save_loan List.map flat_map].
  destruct (Z.eqb_spec (customer_id c) id) as [E | E].
  - fold (save_loan rest id l debt emi).
    rewrite save_loan_other by (rewrite <- E; exact Hc).
    cbn [loans]. rewrite <- app_assoc. cbn [app].
    symmetry. apply Permutation_middle.
  - fold (save_loan rest id l debt emi).
    destruct Hin as [Hin | Hin]; [contradiction |].
    rewrite (IH Hrest Hin).
    change (l :: flat_map loans rest) with ([l] ++ flat_map loans rest).
    rewrite app_assoc, (Permutation_app_comm (loans c) [l]), <- app_assoc. reflexivity.
Qed.

(** What an approved request writes. *)
Lemma create_loan_approved today offset db data r db' :
  CreateLoanView_post today offset db (Some data) = Handled (r, db') ->
  status_code r = 201 ->
  exists customer decision end_date debt emi,
    get_object_or_404 db (req_customer_id data) = Some customer
    /\ check_loan_eligibility today customer (req_loan_amount data)
         (req_interest_rate data) (req_tenure data) = Ok decision
    /\ approval decision = true
    /\ offset today (req_tenure data) = Some end_date
    /\ add (current_debt customer) (req_loan_amount data) = Ok debt
    /\ gtb debt (of_int (approved_limit customer)) = false
    /\ add (total_current_emi customer) (res_monthly_installment decision) = Ok emi
    /\ let new_loan_id :=
         match latest (List.map loan_id (Loan_objects_all db)) with
         | Some latest_loan => latest_loan + 1
         | None => 1
         end in
       let new_loan :=
         mkLoan new_loan_id (req_loan_amount data) (req_tenure data)
           (corrected_interest_rate decision) (res_monthly_installment decision)
           0 today end_date true in
       r = mkResponse
             (content (mkCreateLoanResponse (Some new_loan_id) (customer_id customer) true
                         "Loan approved and processed successfully."
                         (res_monthly_installment decision)))
             201
       /\ db' = save_loan db (customer_id customer) new_loan debt emi.
Proof.
  intros H Hstatus. unfold CreateLoanView_post in H.
  destruct (get_object_or_404 db (req_customer_id data)) as [customer |] eqn:Hget;
    [| injection H as <- <-; discriminate Hstatus].
  destruct (check_loan_eligibility today customer (req_loan_amount data)
              (req_interest_rate data) (req_tenure data)) as [decision | e] eqn:Hcheck;
    [| discriminate].
  cbv zeta in H.
  destruct (approval decision) eqn:Happ;
    [| injection H as <- <-; discriminate Hstatus].
  destruct (offset today (req_tenure data)) as [end_date |] eqn:Hoff; [| discriminate].
  destruct (existsb _ (Loan_objects_all db)); [discriminate |].
  destruct (add (current_debt customer) (req_loan_amount data)) as [debt | e] eqn:Hdebt;
    [| discriminate].
  destruct (add (total_current_emi customer) (res_monthly_installment decision))
    as [emi | e] eqn:Hemi; [| discriminate].
  injection H as <- <-.
  exists customer, decision, end_date, debt, emi. cbv zeta.
  split; [reflexivity |]. split; [exact Hcheck |]. split; [exact Happ |].
  split; [reflexivity |]. split; [exact Hdebt |].
  split; [| split; [exact Hemi | split; reflexivity]].
  destruct (decision_shapes today customer _ _ _ decision Hcheck)
    as (score & salary_limit & Hscore & _ & [[_ ->] | [(_ & _ & ->) | (_ & Hhi & _)]]);
    [discriminate Happ | discriminate Happ |].
  destruct (scored_within_limit today customer (req_loan_amount data) score Hscore
              ltac:(lia)) as (exposure & Hexp & Hgate).
  rewrite Hdebt in Hexp. apply Ok_inj in Hexp. subst exposure. exact Hgate.
Qed.

(** Without a 201 nothing is written. *)
Lemma create_loan_unchanged today offset db validated r db' :
  CreateLoanView_post today offset db validated = Handled (r, db') ->
  status_code r <> 201 -> db' = db.
Proof.
  intros H Hstatus. unfold CreateLoanView_post in H.
  destruct validated as [data |]; [| injection H as <- <-; reflexivity].
  destruct (get_object_or_404 db (req_customer_id data)) as [customer |];
    [| injection H as <- <-; reflexivity].
  destruct (check_loan_eligibility today customer (req_loan_amount data)
              (req_interest_rate data) (req_tenure data)) as [decision | e];
    [| discriminate].
  cbv zeta in H.
  destruct (approval decision); [| injection H as <- <-; reflexivity].
  destruct (offset today (req_tenure data)); [| discriminate].
  destruct (existsb _ (Loan_objects_all db)); [discriminate |].
  destruct (add (current_debt customer) (req_loan_amount data)); [| discriminate].
  destruct (add (total_current_emi customer) (res_monthly_installment decision));
    [| discriminate].
  injection H as <- <-. cbn in Hstatus. contradiction.
Qed.

Lemma save_loan_keeps_others db id l debt emi c :
  In c db -> customer_id c <> id -> In c (save_loan db id l debt emi).
Proof.
  intros Hin Hne. unfold save_loan. apply in_map_iff. exists c.
  split; [| exact Hin].
  destruct (Z.eqb_spec (customer_id c) id); [contradiction | reflexivity].
Qed.

(** Storing a loan under a fresh id keeps the keys unique. *)
Lemma save_loan_database_ok db id l debt emi :
  database_ok db -> In id (List.map customer_id db) ->
  ~ In (loan_id l) (List.map loan_id (Loan_objects_all db)) ->
  database_ok (save_loan db id l debt emi).
Proof.
  intros (Hids & Hphones & Hloans) Hin Hfresh. unfold database_ok.
  rewrite save_loan_customer_ids, save_loan_phone_numbers.
  split; [exact Hids |]. split; [exact Hphones |].
  apply (Permutation_NoDup (l := List.map loan_id (l :: Loan_objects_all db))).
  - symmetry. apply Permutation_map. apply save_loan_adds_one; assumption.
  - cbn [List.map]. constructor; assumption.
Qed.

(** With unique ids a customer is determined by its id. *)
Lemma unique_customer db c c' :
  NoDup (List.map customer_id db) -> In c db -> In c' db ->
  customer_id c = customer_id c' -> c = c'.
Proof.
  induction db as [| x rest IH]; intros Hnd Hc Hc' Heq; [destruct Hc |].
  cbn [List.map] in Hnd. inversion Hnd as [| ? ? Hx Hrest]; subst.
  destruct Hc as [-> | Hc], Hc' as [-> | Hc'].
  - reflexivity.
  - exfalso. apply Hx. rewrite Heq. apply in_map. exact Hc'.
  - exfalso. apply Hx. rewrite <- Heq. apply in_map. exact Hc.
  - apply IH; assumption.
Qed.

End CreateFacts.

(** X15.  Creating a loan writes only when it answers 201.  Any other
    answer (400, 404, or 200 for a rejection) leaves the tables as they
    were, and a rejection carries no loan id, the installment
    [Decimal(0)] and the message of the engine.  The id given to a new
    loan is never taken already: no IntegrityError leaves the view. *)
Theorem X15_create_loan_writes_only_on_approval :
  forall today offset db validated,
    CreateLoanView_post today offset db validated <> Unhandled IntegrityError
    /\ (forall r db',
          CreateLoanView_post today offset db validated = Handled (r, db') ->
          status_code r <> 201 ->
          db' = db
          /\ (status_code r = 200 \/ status_code r = 400 \/ status_code r = 404)
          /\ (forall c, response_data r = content c ->
                cl_loan_id c = None /\ cl_loan_approved c = false
                /\ cl_monthly_installment c = Decimal_0
                /\ (cl_message c = msg_salary \/ cl_message c = msg_low_score))).
Proof.
  intros today offset db validated. unfold CreateLoanView_post.
  destruct validated as [data |];
    [| split; [discriminate |];
       intros r db' H _; injection H as <- <-;
       split; [reflexivity | split; [right; left; reflexivity | discriminate]]].
  destruct (get_object_or_404 db (req_customer_id data)) as [customer |];
    [| split; [discriminate |];
       intros r db' H _; injection H as <- <-;
       split; [reflexivity | split; [right; right; reflexivity | discriminate]]].
  destruct (check_loan_eligibility today customer (req_loan_amount data)
              (req_interest_rate data) (req_tenure data)) as [decision | e] eqn:Hcheck;
    [| split; [discriminate | discriminate]].
  cbv zeta.
  destruct (approval decision) eqn:Happ.
  - destruct (offset today (req_tenure data)) as [end_date |];
      [| split; [discriminate | discriminate]].
    pose proof (next_id_fresh (List.map loan_id (Loan_objects_all db))) as Hfresh.
    cbv zeta in Hfresh. apply Forall_lt_not_In in Hfresh.
    rewrite (existsb_eqb_not_In loan_id (Loan_objects_all db) _ Hfresh).
    destruct (add (current_debt customer) (req_loan_amount data));
      [| split; [discriminate | discriminate]].
    destruct (add (total_current_emi customer) (res_monthly_installment decision));
      [| split; [discriminate | discriminate]].
    split; [discriminate |].
    intros r db' H Hstatus. injection H as <- <-. cbn in Hstatus. contradiction.
  - split; [discriminate |].
    intros r db' H _. injection H as <- <-.
    split; [reflexivity |]. split; [left; reflexivity |].
    intros c Hc. cbn [response_data] in Hc. injection Hc as <-.
    cbn [cl_loan_id cl_loan_approved cl_monthly_installment cl_message].
    destruct (decision_shapes today customer _ _ _ decision Hcheck)
      as (score & salary_limit & _ & _ & [[_ ->] | [(_ & _ & ->) | (_ & _ & Hd)]]).
    + cbn. repeat split. left. reflexivity.
    + cbn. repeat split. right. reflexivity.
    + destruct Hd as (min_rate & emi & _ & _ & ->). discriminate Happ.
Qed.

Lemma X15_witness :
  exists r,
    CreateLoanView_post sample_today sample_offset sample_database
      (Some sample_request_over_limit) = Handled (r, sample_database)
    /\ status_code r = 200.
Proof.
  eassert (E : CreateLoanView_post sample_today sample_offset sample_database
                 (Some sample_request_over_limit) = Handled (_, _))
    by (vm_compute; reflexivity).
  destruct (proj2 (X15_create_loan_writes_only_on_approval sample_today sample_offset
                     sample_database (Some sample_request_over_limit))
              _ _ E ltac:(discriminate)) as (Hdb & _ & _).
  eexists. split; [rewrite <- Hdb at 2; exact E | reflexivity].
Defined.

(** X16.  An approved request creates one loan for the amount and the
    tenure asked, at the corrected rate of the engine (never below the
    requested one), with the installment computed at that rate, starting
    today with no installment paid, under an id above every id of the
    table.  The debt of the customer grows by the amount and stays
    within the approved limit; the EMI total grows by the installment. *)
Theorem X16_create_loan_record_and_debt :
  forall today offset db data r db',
    CreateLoanView_post today offset db (Some data) = Handled (r, db') ->
    status_code r = 201 ->
    exists customer new_loan debt emi,
      get_object_or_404 db (req_customer_id data) = Some customer
      /\ r = mkResponse
               (content (mkCreateLoanResponse (Some (loan_id new_loan))
                           (customer_id customer) true
                           "Loan approved and processed successfully."
                           (monthly_installment new_loan)))
               201
      /\ db' = save_loan db (customer_id customer) new_loan debt emi
      /\ loan_amount new_loan = req_loan_amount data
      /\ tenure new_loan = req_tenure data
      /\ start_date new_loan = today
      /\ offset today (req_tenure data) = Some (end_date new_loan)
      /\ emis_paid_on_time new_loan = 0
      /\ is_active new_loan = true
      /\ Forall (fun l => loan_id l < loan_id new_loan) (Loan_objects_all db)
      /\ ltb (interest_rate new_loan) (req_interest_rate data) = false
      /\ calculate_monthly_installment (req_loan_amount data) (interest_rate new_loan)
           (req_tenure data) = Ok (monthly_installment new_loan)
      /\ add (current_debt customer) (req_loan_amount data) = Ok debt
      /\ gtb debt (of_int (approved_limit customer)) = false
      /\ add (total_current_emi customer) (monthly_installment new_loan) = Ok emi.
Proof.
  intros today offset db data r db' H Hstatus.
  destruct (create_loan_approved today offset db data r db' H Hstatus)
    as (customer & decision & ends & debt & emi
        & Hget & Hcheck & Happ & Hoff & Hdebt & Hlimit & Hemi & Hr & Hdb).
  cbv zeta in Hr, Hdb.
  exists customer,
    (mkLoan
       match latest (List.map loan_id (Loan_objects_all db)) with
       | Some latest_loan => latest_loan + 1
       | None => 1
       end
       (req_loan_amount data) (req_tenure data) (corrected_interest_rate decision)
       (res_monthly_installment decision) 0 today ends true), debt, emi.
  split; [exact Hget |]. split; [exact Hr |]. split; [exact Hdb |].
  cbn [loan_amount tenure start_date end_date emis_paid_on_time is_active loan_id
         interest_rate monthly_installment].
  repeat (split; [reflexivity |]).
  split; [exact Hoff |]. repeat (split; [reflexivity |]).
  split.
  { pose proof (next_id_fresh (List.map loan_id (Loan_objects_all db))) as Hfresh.
    cbv zeta in Hfresh. rewrite Forall_forall in Hfresh |- *.
    intros l Hl. apply Hfresh. apply in_map. exact Hl. }
  destruct (decision_shapes today customer _ _ _ decision Hcheck)
    as (score & salary_limit & Hscore & _ & [[_ ->] | [(_ & _ & ->) | (_ & Hhi & Hd)]]);
    [discriminate Happ | discriminate Happ |].
  destruct Hd as (min_rate & installment & _ & Hinst & ->).
  cbn [approved_at corrected_interest_rate res_monthly_installment] in *.
  split; [apply decimal_max_ge |]. split; [exact Hinst |]. split; [exact Hdebt |].
  split; [exact Hlimit | exact Hemi].
Qed.

Lemma X16_witness :
  exists debt,
    add (cents 0) (cents 10000000) = Ok debt /\ gtb debt (of_int 1800000) = false.
Proof.
  eassert (E : CreateLoanView_post sample_today sample_offset sample_database
                 (Some sample_request) = Handled (_, _))
    by (vm_compute; reflexivity).
  destruct (X16_create_loan_record_and_debt sample_today sample_offset sample_database
              sample_request _ _ E eq_refl)
    as (customer & new_loan & debt & emi & Hget & _ & _ & _ & _ & _ & _ & _ & _ & _ & _ & _
        & Hdebt & Hlimit & _).
  vm_compute in Hget. injection Hget as <-.
  exists debt. split; [exact Hdebt | exact Hlimit].
Defined.

(** X17.  Creating a loan keeps the primary keys and the phone numbers
    unique and never changes the set of customers; every customer other
    than the one of the request stays as it was; and the table of loans
    gains exactly one row when the answer is 201, none otherwise. *)
Theorem X17_create_loan_keeps_the_tables_consistent :
  forall today offset db validated r db',
    database_ok db ->
    CreateLoanView_post today offset db validated = Handled (r, db') ->
    database_ok db'
    /\ List.map customer_id db' = List.map customer_id db
    /\ List.map phone_number db' = List.map phone_number db
    /\ (forall data c, validated = Some data -> In c db ->
          customer_id c <> req_customer_id data -> In c db')
    /\ (status_code r = 201 ->
        exists new_loan,
          Permutation (Loan_objects_all db') (new_loan :: Loan_objects_all db))
    /\ (status_code r <> 201 -> db' = db).
Proof.
  intros today offset db validated r db' Hok H.
  destruct (Z.eq_dec (status_code r) 201) as [Hst | Hst].
  - destruct validated as [data |];
      [| cbn in H; injection H as <- <-; discriminate Hst].
    destruct (create_loan_approved today offset db data r db' H Hst)
      as (customer & decision & ends & debt & emi
          & Hget & _ & _ & _ & _ & _ & _ & _ & Hdb).
    cbv zeta in Hdb.
    set (new_loan := mkLoan _ _ _ _ _ _ _ _ _) in Hdb.
    destruct (get_object_or_404_In db _ customer Hget) as [Hin Hid].
    destruct Hok as (Hids & Hphones & Hloans).
    assert (Hperm : Permutation (Loan_objects_all db') (new_loan :: Loan_objects_all db)).
    { rewrite Hdb. apply save_loan_adds_one; [exact Hids |].
      apply in_map. exact Hin. }
    subst db'.
    split; [| split; [apply save_loan_customer_ids
                     | split; [apply save_loan_phone_numbers | split; [| split]]]].
    + apply save_loan_database_ok;
        [repeat split; assumption | apply in_map; exact Hin |].
      apply Forall_lt_not_In.
      exact (next_id_fresh (List.map loan_id (Loan_objects_all db))).
    + intros data' c Hd Hc Hne. injection Hd as <-.
      apply save_loan_keeps_others; [exact Hc | congruence].
    + intros _. exists new_loan. exact Hperm.
    + intros F. contradiction.
  - pose proof (create_loan_unchanged today offset db validated r db' H Hst) as ->.
    split; [exact Hok |]. split; [reflexivity |]. split; [reflexivity |].
    split; [intros data c _ Hc _; exact Hc |].
    split; [intros F; contradiction | reflexivity].
Qed.

Lemma X17_witness :
  exists r db',
    CreateLoanView_post sample_today sample_offset sample_database (Some sample_request)
    = Handled (r, db')
    /\ database_ok db'.
Proof.
  eassert (E : CreateLoanView_post sample_today sample_offset sample_database
                 (Some sample_request) = Handled (_, _))
    by (vm_compute; reflexivity).
  destruct (X17_create_loan_keeps_the_tables_consistent sample_today sample_offset
              sample_database (Some sample_request) _ _ sample_database_ok E)
    as (Hok & _).
  eexists. eexists. split; [exact E | exact Hok].
Defined.

(** ** Reading the tables *)

Section ReadFacts.

Lemma find_app_l {A : Type} (f : A -> bool) (l1 l2 : list A) x :
  find f l1 = Some x -> find f (l1 ++ l2) = Some x.
Proof.
  induction l1 as [| a l1 IH]; cbn [find app]; [discriminate |].
  destruct (f a); [trivial | exact IH].
Qed.

Lemma find_app_r {A : Type} (f : A -> bool) (l1 l2 : list A) :
  find f l1 = None -> find f (l1 ++ l2) = find f l2.
Proof.
  induction l1 as [| a l1 IH]; cbn [find app]; [reflexivity |].
  destruct (f a); [discriminate | exact IH].
Qed.

Lemma find_none_of {A : Type} (f : A -> bool) (l : list A) :
  Forall (fun x => f x = false) l -> find f l = None.
Proof.
  induction 1 as [| a l Ha _ IH]; cbn [find]; [reflexivity |].
  rewrite Ha. exact IH.
Qed.

(** [a > b] is the negation of [a <= b] on dates. *)
Lemma date_gtb_negb_leb a b : date_gtb a b = negb (date_leb a b).
Proof.
  unfold date_gtb, date_leb.
  destruct (Z.ltb_spec (year b) (year a)), (Z.ltb_spec (year a) (year b)),
    (Z.eqb_spec (year a) (year b)), (Z.ltb_spec (month b) (month a)),
    (Z.ltb_spec (month a) (month b)), (Z.eqb_spec (month a) (month b)),
    (Z.ltb_spec (day b) (day a)), (Z.leb_spec (day a) (day b));
    cbn; try reflexivity; lia.
Qed.

(** The closed loans counted by the scoring loop. *)
Lemma aggregate_loans_closed today ls : forall st st',
  aggregate_loans today st ls = Ok st' ->
  total_closed_loans st'
  = total_closed_loans st
    + Z.of_nat (List.length (filter (fun l => date_leb (end_date l) today) ls)).
Proof.
  induction ls as [| loan rest IH]; intros st st' H; cbn [aggregate_loans] in H.
  - apply Ok_inj in H. subst st'. cbn. lia.
  - apply bind_ok in H. destruct H as (st1 & H1 & H2).
    rewrite (IH _ _ H2). cbn [filter].
    assert (Hc : total_closed_loans st1
                 = if date_leb (end_date loan) today
                   then total_closed_loans st + 1 else total_closed_loans st).
    { unfold aggregate_loan in H1.
      apply bind_ok in H1. destruct H1 as (volume & _ & H1).
      destruct (year (start_date loan) =? year today).
      - destruct (0 <? _).
        + apply bind_ok in H1. destruct H1 as (under & _ & H1).
          apply Ok_inj in H1. subst st1. reflexivity.
        + apply Ok_inj in H1. subst st1. reflexivity.
      - apply Ok_inj in H1. subst st1. reflexivity. }
    rewrite Hc. destruct (date_leb (end_date loan) today); cbn [List.length]; lia.
Qed.

Lemma filter_partition_length {A : Type} (f : A -> bool) (l : list A) :
  (List.length (filter f l) + List.length (filter (fun x => negb (f x)) l)
   = List.length l)%nat.
Proof.
  induction l as [| a l IH]; [reflexivity |].
  cbn [filter]. destruct (f a); cbn [negb List.length]; lia.
Qed.

(** A loan stored under a fresh id is found again, with its owner. *)
Lemma get_loan_after_save db id new_loan debt emi : forall customer,
  get_object_or_404 db id = Some customer ->
  Forall (fun l => loan_id l <> loan_id new_loan) (Loan_objects_all db) ->
  get_loan_or_404 (save_loan db id new_loan debt emi) (loan_id new_loan)
  = Some (mkCustomer (customer_id customer) (first_name customer) (last_name customer)
            (age customer) (phone_number customer) (monthly_salary customer)
            (approved_limit customer) debt emi (loans customer ++ [new_loan]),
          new_loan).
Proof.
  unfold get_loan_or_404, get_object_or_404, Loan_objects_all.
  induction db as [| c rest IH]; intros customer Hget Hfresh; [discriminate |].
  cbn [find flat_map save_loan List.map] in *.
  apply Forall_app in Hfresh. destruct Hfresh as [Hc Hrest].
  assert (Hnone : forall owner,
             find (fun cl : Customer * Loan => loan_id (snd cl) =? loan_id new_loan)
               (List.map (pair owner) (loans c)) = None).
  { intros owner. apply find_none_of. rewrite Forall_map.
    eapply Forall_impl; [| exact Hc]. cbn. intros l Hl. apply Z.eqb_neq. exact Hl. }
  destruct (customer_id c =? id) eqn:E.
  - injection Hget as <-. cbn [loans].
    apply find_app_l. rewrite map_app. rewrite find_app_r by apply Hnone.
    cbn [List.map find snd]. rewrite Z.eqb_refl. reflexivity.
  - rewrite find_app_r by apply Hnone.
    apply IH; assumption.
Qed.


End ReadFacts.



(** X19.  /view-loans answers 404 for an unknown customer; for a known
    one it lists, in the order of the table, exactly the loans whose end
    date is after today, whatever their [is_active] flag.  These are the
    loans that the credit score does not count as closed: listed and
    closed loans add up to all the loans of the customer.  The
    repayments left are the tenure less the installments paid on time,
    which is not negative when these stay within the tenure. *)
Theorem X19_view_loans_lists_the_unfinished_loans :
  forall today db id,
    (get_object_or_404 db id = None ->
     ViewCustomerLoansView_get today db id = mkResponse not_found 404)
    /\ (forall customer,
          get_object_or_404 db id = Some customer ->
          exists items,
            ViewCustomerLoansView_get today db id = mkResponse (content items) 200
            /\ List.map li_loan_id items
               = List.map loan_id
                   (filter (fun l => negb (date_leb (end_date l) today)) (loans customer))
            /\ List.map li_repayments_left items
               = List.map (fun l => tenure l - emis_paid_on_time l)
                   (filter (fun l => negb (date_leb (end_date l) today)) (loans customer))
            /\ (forall st,
                  aggregate_loans today aggregates_init (loans customer) = Ok st ->
                  Z.of_nat (List.length items) + total_closed_loans st
                  = Z.of_nat (List.length (loans customer)))
            /\ (Forall paid_within_tenure (loans customer) ->
                Forall (fun i => 0 <= li_repayments_left i) items)).
Proof.
  intros today db id. unfold ViewCustomerLoansView_get. split.
  - intros ->. reflexivity.
  - intros customer ->. cbv zeta. eexists. split; [reflexivity |].
    assert (Hf : filter (fun loan => date_gtb (end_date loan) today) (loans customer)
                 = filter (fun l => negb (date_leb (end_date l) today)) (loans customer)).
    { apply filter_ext. intros l. apply date_gtb_negb_leb. }
    rewrite Hf, !map_map. cbn [li_loan_id li_repayments_left].
    split; [reflexivity |]. split; [reflexivity |]. split.
    + intros st Hst. rewrite length_map.
      rewrite (aggregate_loans_closed today (loans customer) _ _ Hst).
      cbn [total_closed_loans aggregates_init].
      pose proof (filter_partition_length (fun l => date_leb (end_date l) today)
                    (loans customer)).
      lia.
    + intros Hpaid. rewrite Forall_map. cbn [li_repayments_left].
      apply Forall_forall. intros l Hl. apply filter_In in Hl. destruct Hl as [Hl _].
      rewrite Forall_forall in Hpaid. specialize (Hpaid l Hl).
      unfold paid_within_tenure in Hpaid. lia.
Qed.

Lemma X19_witness :
  exists items,
    ViewCustomerLoansView_get sample_today sample_database 7 = mkResponse (content items) 200
    /\ List.map li_loan_id items = [2]
    /\ List.map li_repayments_left items = [32].
Proof.
  destruct (proj2 (X19_view_loans_lists_the_unfinished_loans sample_today sample_database 7)
              (sample_customer 1800000 0 0 sample_loans) eq_refl)
    as (items & Hget & Hids & Hleft & _).
  exists items. split; [exact Hget |]. split; [exact Hids | exact Hleft].
Defined.

(** X20.  A loan that /create-loan reports under an id is returned by
    /view-loan for that id: with the amount and the tenure of the
    request, the installment of the answer, a rate that is not below the
    requested one, and the customer of the request as owner. *)
Theorem X20_created_loan_can_be_viewed :
  forall today offset db data r db' c new_id,
    CreateLoanView_post today offset db (Some data) = Handled (r, db') ->
    response_data r = content c ->
    cl_loan_id c = Some new_id ->
    exists owner rate,
      get_object_or_404 db (req_customer_id data) = Some owner
      /\ ltb rate (req_interest_rate data) = false
      /\ ViewLoanDetailsView_retrieve db' new_id
         = mkResponse
             (content (mkLoanView new_id
                         (mkCustomerView (customer_id owner) (first_name owner)
                            (last_name owner) (phone_number owner) (age owner))
                         (req_loan_amount data) rate (cl_monthly_installment c)
                         (req_tenure data)))
             200.
Proof.
  intros today offset db data r db' c new_id H Hc Hid.
  assert (Hstatus : status_code r = 201).
  { destruct (Z.eq_dec (status_code r) 201) as [| Hne]; [assumption | exfalso].
    unfold CreateLoanView_post in H.
    destruct (get_object_or_404 db (req_customer_id data)) as [customer |];
      [| injection H as <- <-; discriminate Hc].
    destruct (check_loan_eligibility today customer (req_loan_amount data)
                (req_interest_rate data) (req_tenure data)) as [decision | e];
      [| discriminate].
    cbv zeta in H.
    destruct (approval decision).
    - destruct (offset today (req_tenure data)); [| discriminate].
      destruct (existsb _ (Loan_objects_all db)); [discriminate |].
      destruct (add (current_debt customer) (req_loan_amount data)); [| discriminate].
      destruct (add (total_current_emi customer) (res_monthly_installment decision));
        [| discriminate].
      injection H as <- <-. apply Hne. reflexivity.
    - injection H as <- <-. cbn in Hc. injection Hc as <-. discriminate Hid. }
  destruct (create_loan_approved today offset db data r db' H Hstatus)
    as (customer & decision & ends & debt & emi
        & Hget & Hcheck & Happ & _ & _ & _ & _ & Hr & Hdb).
  cbv zeta in Hr, Hdb.
  exists customer, (corrected_interest_rate decision).
  split; [exact Hget |].
  split.
  { destruct (decision_shapes today customer _ _ _ decision Hcheck)
      as (score & salary_limit & _ & _ & [[_ ->] | [(_ & _ & ->) | (_ & _ & Hd)]]);
      [discriminate Happ | discriminate Happ |].
    destruct Hd as (min_rate & installment & _ & _ & ->). apply decimal_max_ge. }
  rewrite Hr in Hc. cbn [response_data] in Hc. injection Hc as <-.
  cbn [cl_loan_id cl_monthly_installment] in *. injection Hid as <-.
  set (new_loan := mkLoan _ _ _ _ _ _ _ _ _) in Hdb.
  unfold ViewLoanDetailsView_retrieve. rewrite Hdb.
  change (match latest (List.map loan_id (Loan_objects_all db)) with
          | Some latest_loan => latest_loan + 1
          | None => 1
          end) with (loan_id new_loan).
  destruct (get_object_or_404_In db _ customer Hget) as [_ Hcid].
  rewrite (get_loan_after_save db (customer_id customer) new_loan debt emi customer).
  - reflexivity.
  - rewrite Hcid. exact Hget.
  - pose proof (next_id_fresh (List.map loan_id (Loan_objects_all db))) as Hfresh.
    cbv zeta in Hfresh. rewrite Forall_forall in Hfresh |- *.
    intros l Hl. specialize (Hfresh (loan_id l) (in_map loan_id _ _ Hl)).
    unfold new_loan. cbn [loan_id]. lia.
Qed.

Lemma X20_witness :
  exists r db' rate,
    CreateLoanView_post sample_today sample_offset sample_database (Some sample_request)
    = Handled (r, db')
    /\ ViewLoanDetailsView_retrieve db' 3
       = mkResponse
           (content (mkLoanView 3 (mkCustomerView 7 "Test" "User" 9988776655 40)
                       (cents 10000000) rate (cents 879159) 12))
           200.
Proof.
  eassert (E : CreateLoanView_post sample_today sample_offset sample_database
                 (Some sample_request) = Handled (_, _))
    by (vm_compute; reflexivity).
  destruct (X20_created_loan_can_be_viewed sample_today sample_offset sample_database
              sample_request _ _ _ 3 E eq_refl eq_refl)
    as (owner & rate & Hget & _ & Hview).
  vm_compute in Hget. injection Hget as <-.
  eexists. eexists. exists rate. split; [exact E | exact Hview].
Defined.

(** ** A customer who has just registered *)

Section NewCustomerFacts.



Lemma gtb_zero_nonneg c e : gtb (of_int 0) (mkdec false c e) = false.
Proof.
  change (of_int 0) with (mkdec false 0 0).
  unfold gtb, compare, scaled. cbn [d_sign d_int d_exp].
  rewrite N.mul_0_l. change (Z.of_N 0) with 0.
  destruct (Z.compare_spec 0 (Z.of_N (c * pow10 (e - Z.min 0 e)))); try reflexivity; lia.
Qed.


End NewCustomerFacts.



(** ** Invariants of the API *)

Section ReachableFacts.

Lemma Handled_inj {A B : Type} (a a' : A) (b b' : B) :
  Handled (a, b) = Handled (a', b') -> a = a' /\ b = b'.
Proof. intros H. split; congruence. Qed.

Lemma database_ok_nil : database_ok [].
Proof. unfold database_ok. cbn. repeat split; constructor. Qed.

(** What holds of every customer and of every loan. *)
Lemma reachable_invariant offset db :
  reachable offset db ->
  database_ok db
  /\ Forall (fun c => gtb (current_debt c) (of_int (approved_limit c)) = false
                      /\ 0 <= approved_limit c
                      /\ approved_limit c mod 100000 = 0) db
  /\ Forall (fun l => emis_paid_on_time l = 0 /\ is_active l = true) (Loan_objects_all db).
Proof.
  induction 1 as [| db data r db' Hreach IH Hvalid Hbound Hpost
                  | db today validated r db' Hreach IH Hpost].
  - split; [exact database_ok_nil |]. split; constructor.
  - destruct IH as (Hok & Hcust & Hloans).
    destruct (register_conflict_or_fresh db data Hvalid Hbound) as [Hconflict Hfresh].
    destruct (in_dec Z.eq_dec (reg_phone_number data) (List.map phone_number db))
      as [Hin | Hnew].
    { rewrite (Hconflict Hin) in Hpost. injection Hpost as <- <-.
      split; [exact Hok |]. split; assumption. }
    destruct (Hfresh Hnew) as (new_id & lakhs & Hcreated & [Hnear _] & _ & _ & Hkeeps).
    cbv zeta in Hcreated, Hkeeps. rewrite Hcreated in Hpost.
    apply Handled_inj in Hpost. destruct Hpost as [_ <-].
    destruct Hvalid as (_ & _ & _ & Hincome).
    assert (Hlakhs : 0 <= lakhs) by lia.
    split; [exact (Hkeeps Hok) |]. split.
    + apply Forall_app. split; [exact Hcust |].
      constructor; [| constructor].
      cbv beta. cbn [current_debt approved_limit].
      split; [| split; [lia | rewrite Z.mul_comm; apply Z.mod_mul; lia]].
      unfold of_int at 2. rewrite (proj2 (Z.ltb_ge (100000 * lakhs) 0)) by lia.
      apply gtb_zero_nonneg.
    + unfold Loan_objects_all in *. rewrite flat_map_app. cbn [flat_map loans].
      rewrite !app_nil_r. exact Hloans.
  - destruct IH as (Hok & Hcust & Hloans).
    destruct (Z.eq_dec (status_code r) 201) as [Hst | Hst].
    2: { rewrite (create_loan_unchanged today offset db validated r db' Hpost Hst).
         split; [exact Hok |]. split; assumption. }
    destruct validated as [data |];
      [| cbn in Hpost; injection Hpost as <- <-; discriminate Hst].
    destruct (create_loan_approved today offset db data r db' Hpost Hst)
      as (customer & decision & ends & debt & emi
          & Hget & _ & _ & _ & _ & Hlimit & _ & _ & Hdb).
    cbv zeta in Hdb.
    set (new_loan := mkLoan _ _ _ _ _ _ _ _ _) in Hdb.
    destruct (get_object_or_404_In db _ customer Hget) as [Hin Hid].
    pose proof (next_id_fresh (List.map loan_id (Loan_objects_all db))) as Hfresh.
    cbv zeta in Hfresh. apply Forall_lt_not_In in Hfresh.
    assert (Hids : NoDup (List.map customer_id db)) by (destruct Hok as [H _]; exact H).
    subst db'. split; [| split].
    + apply save_loan_database_ok; [exact Hok | apply in_map; exact Hin | exact Hfresh].
    + unfold save_loan. rewrite Forall_map.
      rewrite Forall_forall in Hcust |- *. intros c Hc.
      destruct (Z.eqb_spec (customer_id c) (customer_id customer)) as [E | E].
      * assert (c = customer) by (eapply unique_customer; eassumption). subst c.
        cbn [current_debt approved_limit].
        destruct (Hcust customer Hin) as (_ & H0 & Hmod).
        split; [exact Hlimit | split; assumption].
      * apply Hcust. exact Hc.
    + eapply Permutation_Forall.
      * symmetry. apply save_loan_adds_one; [exact Hids | apply in_map; exact Hin].
      * constructor; [split; reflexivity | exact Hloans].
Qed.

End ReachableFacts.

(** X22.  In any database built through the API from empty tables
    (registrations and loan creations, in any order), the primary keys
    and the phone numbers are unique, the debt of every customer is
    within the approved limit, every approved limit is a non-negative
    multiple of one lakh, and every loan is active with no installment
    recorded as paid on time: no endpoint ever records a payment. *)
Theorem X22_invariants_of_the_api :
  forall offset db,
    reachable offset db ->
    database_ok db
    /\ Forall (fun c => gtb (current_debt c) (of_int (approved_limit c)) = false
                        /\ 0 <= approved_limit c
                        /\ approved_limit c mod 100000 = 0) db
    /\ Forall (fun l => emis_paid_on_time l = 0 /\ is_active l = true)
              (Loan_objects_all db).
Proof. exact reachable_invariant. Qed.

Lemma X22_witness :
  exists db, reachable sample_offset db /\ database_ok db.
Proof.
  eassert (E : RegisterCustomerView_post [] (Some sample_registration) = Handled (_, _))
    by (vm_compute; reflexivity).
  pose proof (@reachable_register sample_offset [] sample_registration _ _
                (@reachable_empty sample_offset) sample_registration_valid
                ltac:(reflexivity) E) as Hreach.
  destruct (X22_invariants_of_the_api sample_offset _ Hreach) as (Hok & _).
  eexists. split; [exact Hreach | exact Hok].
Defined.
